(** * Appointment scheduling core of [server.js]

    A shallow embedding of the booking routes of the Fastify server
    ([POST /appointments], [PATCH /appointments/:id/cancel] and the two
    listing routes) together with the helpers [hasOverlappingAppointment]
    and [getServiceDetails].

    The server talks to PostgreSQL through [dbQuery]; every call of
    [dbQuery] is one autocommitted SQL statement and every [await] is a
    point where another request may run.  The embedding therefore has three
    layers:

    - [JS]: the JavaScript values a JSON body can carry, truthiness, [??]
      and [Date];
    - [Pg]: the tables, the range operators and the meaning of each SQL
      statement of the source as a function on the store;
    - handlers as programs [Prog] whose only effect is [dbQuery], run either
      to completion ([run]) or interleaved statement by statement
      ([interleave]). *)

From Stdlib Require Import ZArith List String Bool Lia.
From Stdlib Require Import Sorting.Sorted Sorting.Permutation.
Import ListNotations.
Open Scope string_scope.
Open Scope list_scope.
Open Scope Z_scope.

Set Implicit Arguments.

(* ================================================================== *)
(** ** JavaScript values *)
(* ================================================================== *)

Module JS.

(** Values reachable from a parsed JSON body or a route parameter.  Numbers
    are the integer-valued doubles plus [NaN]; [JObj] stands for an array or
    an object and carries the string its [ToPrimitive] conversion yields. *)
Inductive value : Type :=
| JUndefined
| JNull
| JBool (b : bool)
| JNaN
| JNum (n : Z)
| JStr (s : string)
| JObj (prim : string).

(** [ToBoolean]: what [!x] negates. *)
Definition truthy (v : value) : bool :=
  match v with
  | JUndefined | JNull | JNaN => false
  | JBool b => b
  | JNum n => negb (n =? 0)
  | JStr s => negb (String.eqb s "")
  | JObj _ => true
  end.

(** [a ?? b] on a nullable column value read from a result row. *)
Definition nullish {A : Type} (a : option A) (b : A) : A :=
  match a with
  | Some x => x
  | None => b
  end.

(** [notes ?? null] on a request value. *)
Definition nullish_null (v : value) : value :=
  match v with
  | JUndefined | JNull => JNull
  | _ => v
  end.

(** A [Date] object is its time value in milliseconds; [None] is the
    Invalid Date (time value NaN). *)
Definition Date : Type := option Z.

Definition maxTime : Z := 8640000000000000.

Definition TimeClip (t : Z) : Date :=
  if (Z.abs t <=? maxTime) then Some t else None.

(** *** The text of [Date.prototype.toISOString] *)

Definition msPerDay : Z := 86400000.

(** Year, month (1 to 12) and day of the month of a day number, day 0
    being 1 January 1970, in the proleptic Gregorian calendar. *)
Definition civil_from_days (z : Z) : Z * Z * Z :=
  let z := z + 719468 in
  let era := z / 146097 in
  let doe := z mod 146097 in
  let yoe := (doe - doe / 1460 + doe / 36524 - doe / 146096) / 365 in
  let doy := doe - (365 * yoe + yoe / 4 - yoe / 100) in
  let mp := (5 * doy + 2) / 153 in
  let d := doy - (153 * mp + 2) / 5 + 1 in
  let m := if mp <? 10 then mp + 3 else mp - 9 in
  (yoe + era * 400 + (if m <=? 2 then 1 else 0), m, d).

Definition YearFromTime (t : Z) : Z :=
  fst (fst (civil_from_days (t / msPerDay))).

Definition digit_char (d : Z) : Ascii.ascii :=
  Ascii.ascii_of_nat (48 + Z.to_nat d).

(** The last [n] decimal digits of [v], zero-padded. *)
Fixpoint pad (n : nat) (v : Z) : string :=
  match n with
  | O => EmptyString
  | S n' => String (digit_char ((v / 10 ^ Z.of_nat n') mod 10)) (pad n' v)
  end.

(** Four digits for the years 0 to 9999; any other year in the expanded
    form, a sign and six digits. *)
Definition year_text (y : Z) : string :=
  if (0 <=? y) && (y <=? 9999) then pad 4 y
  else String.append (if y <? 0 then "-" else "+") (pad 6 (Z.abs y)).

(** [YYYY-MM-DDTHH:mm:ss.sssZ] for the time value [t] of a valid date. *)
Definition ISO_text (t : Z) : string :=
  let '(y, m, d) := civil_from_days (t / msPerDay) in
  let w := t mod msPerDay in
  String.append (year_text y)
    (String.append "-" (String.append (pad 2 m)
    (String.append "-" (String.append (pad 2 d)
    (String.append "T" (String.append (pad 2 (w / 3600000))
    (String.append ":" (String.append (pad 2 (w / 60000 mod 60))
    (String.append ":" (String.append (pad 2 (w / 1000 mod 60))
    (String.append "." (String.append (pad 3 (w mod 1000)) "Z")))))))))))).

End JS.

Arguments JS.ISO_text : simpl never.

(* ================================================================== *)
(** ** The store *)
(* ================================================================== *)

Module Pg.

Inductive Status : Type :=
| PENDING | CONFIRMED | COMPLETED | CANCELLED | NO_SHOW.

Definition Status_eqb (a b : Status) : bool :=
  match a, b with
  | PENDING, PENDING | CONFIRMED, CONFIRMED | COMPLETED, COMPLETED
  | CANCELLED, CANCELLED | NO_SHOW, NO_SHOW => true
  | _, _ => false
  end.

(** [status NOT IN ('CANCELLED', 'NO_SHOW')] *)
Definition not_in_cancelled_no_show (s : Status) : bool :=
  negb (Status_eqb s CANCELLED || Status_eqb s NO_SHOW).

(** Modelled from the spec: the table declarations are not part of the
    source file; the columns are those the statements of the source name
    and the fields the data model lists.  Keys are integers, instants are
    milliseconds since the epoch, the catalog values are not null, and the
    columns the INSERT of the source leaves out take their value from a
    sequence ([id]) and from the clock ([created_at], [updated_at]). *)
Record User : Type := mkUser
  { u_id : Z; u_full_name : string }.

Record Professional : Type := mkProfessional
  { p_id : Z; p_user_id : Z }.

Record Service : Type := mkService
  { s_id : Z; s_name : string; s_duration_min : Z; s_price_cents : Z }.

Record ProfessionalService : Type := mkProfessionalService
  { ps_professional_id : Z;
    ps_service_id : Z;
    ps_custom_duration_min : option Z;
    ps_custom_price_cents : option Z }.

Record Appointment : Type := mkAppointment
  { id : Z;
    client_id : Z;
    professional_id : Z;
    service_id : Z;
    start_time : Z;
    end_time : Z;
    status : Status;
    total_price_cents : Z;
    notes : JS.value;
    created_at : Z;
    updated_at : Z }.

Record Store : Type := mkStore
  { users : list User;
    professionals : list Professional;
    services : list Service;
    professional_services : list ProfessionalService;
    appointments : list Appointment;
    (** next value of the sequence behind [appointments.id] *)
    next_id : Z }.

(** *** Ranges *)

(** A [tstzrange] value with the default bounds ['[)']. *)
Inductive range : Type :=
| Empty
| Bounds (lower upper : Z).

(** [tstzrange(lo, hi)]: raises when [lo > hi] ([None]); [lo = hi] is
    normalised to the empty range. *)
Definition tstzrange (lo hi : Z) : option range :=
  if hi <? lo then None
  else if lo =? hi then Some Empty
  else Some (Bounds lo hi).

(** The operator [&&], as the store computes it: an empty range overlaps
    nothing; otherwise one of the two lower bounds lies inside the other
    range. *)
Definition range_overlaps (r1 r2 : range) : bool :=
  match r1, r2 with
  | Bounds l1 u1, Bounds l2 u2 =>
      ((l2 <=? l1) && (l1 <? u2)) || ((l1 <=? l2) && (l2 <? u1))
  | _, _ => false
  end.

(** *** Timestamps received as text *)

(** The day number of a civil date. *)
Definition days_from_civil (y m d : Z) : Z :=
  let y := if m <=? 2 then y - 1 else y in
  let era := y / 400 in
  let yoe := y mod 400 in
  let mp := if 2 <? m then m - 3 else m + 9 in
  let doy := (153 * mp + 2) / 5 + d - 1 in
  let doe := yoe * 365 + yoe / 4 - yoe / 100 + doy in
  era * 146097 + doe - 719468.

(** A date of the calendar: it is the date of its own day number. *)
Definition valid_date (y m d : Z) : bool :=
  let '(y', m', d') := JS.civil_from_days (days_from_civil y m d) in
  (y' =? y) && (m' =? m) && (d' =? d).

Definition digit (c : Ascii.ascii) : option Z :=
  let n := Z.of_nat (Ascii.nat_of_ascii c) in
  if (48 <=? n) && (n <=? 57) then Some (n - 48) else None.

Fixpoint read_digits (n : nat) (s : string) (acc : Z) : option (Z * string) :=
  match n with
  | O => Some (acc, s)
  | S n' =>
      match s with
      | String c s' =>
          match digit c with
          | Some d => read_digits n' s' (10 * acc + d)
          | None => None
          end
      | EmptyString => None
      end
  end.

Fixpoint expect (pre s : string) : option string :=
  match pre with
  | EmptyString => Some s
  | String c pre' =>
      match s with
      | String c' s' => if Ascii.eqb c c' then expect pre' s' else None
      | EmptyString => None
      end
  end.

(** The instant the store reads from a text bound to a [timestamptz]
    parameter, for the texts the route sends: the 24 characters
    [YYYY-MM-DDTHH:mm:ss.sssZ] of a date of the calendar from the year 1
    on are read as that instant; the store has no year 0 and does not read
    the expanded years ([+010000-01-01T00:00:00.000Z]), and then the
    statement fails ([None]). *)
Definition timestamptz_in (s : string) : option Z :=
  match read_digits 4 s 0 with None => None | Some (y, s) =>
  match expect "-" s with None => None | Some s =>
  match read_digits 2 s 0 with None => None | Some (m, s) =>
  match expect "-" s with None => None | Some s =>
  match read_digits 2 s 0 with None => None | Some (d, s) =>
  match expect "T" s with None => None | Some s =>
  match read_digits 2 s 0 with None => None | Some (h, s) =>
  match expect ":" s with None => None | Some s =>
  match read_digits 2 s 0 with None => None | Some (mi, s) =>
  match expect ":" s with None => None | Some s =>
  match read_digits 2 s 0 with None => None | Some (sec, s) =>
  match expect "." s with None => None | Some s =>
  match read_digits 3 s 0 with None => None | Some (ms, s) =>
  match expect "Z" s with
  | Some EmptyString =>
      if (1 <=? y) && valid_date y m d
         && (h <=? 23) && (mi <=? 59) && (sec <=? 59)
      then Some (days_from_civil y m d * 86400000
                 + h * 3600000 + mi * 60000 + sec * 1000 + ms)
      else None
  | _ => None
  end end end end end end end end end end end end end end.

(** *** Result rows *)

Record DetailsRow : Type := mkDetailsRow
  { duration_min : Z;
    price_cents : Z;
    custom_duration_min : option Z;
    custom_price_cents : option Z }.

Record ClientSummary : Type := mkClientSummary
  { cs_id : Z;
    cs_start_time : Z;
    cs_end_time : Z;
    cs_status : Status;
    cs_total_price_cents : Z;
    cs_service_name : string;
    cs_professional_name : string }.

Record TodaySummary : Type := mkTodaySummary
  { ts_id : Z;
    ts_start_time : Z;
    ts_end_time : Z;
    ts_status : Status;
    ts_total_price_cents : Z;
    ts_service_name : string;
    ts_client_name : string }.

(** *** ORDER BY *)

Section OrderBy.
Variable A : Type.
Variable key : A -> Z.
Variable before : Z -> Z -> bool.

Fixpoint insert_by (x : A) (l : list A) : list A :=
  match l with
  | [] => [x]
  | y :: l' => if before (key x) (key y) then x :: l else y :: insert_by x l'
  end.

Fixpoint order_by (l : list A) : list A :=
  match l with
  | [] => []
  | x :: l' => insert_by x (order_by l')
  end.

End OrderBy.

Definition order_by_asc {A} (key : A -> Z) := order_by key Z.leb.
Definition order_by_desc {A} (key : A -> Z) := order_by key Z.geb.

(** *** The statements of the source, on key values already bound *)

(** [SELECT s.duration_min, ... FROM services s LEFT JOIN
    professional_services ps ON ps.service_id = s.id AND
    ps.professional_id = $1 WHERE s.id = $2] *)
Definition select_service_details (db : Store) (pid sid : Z) : list DetailsRow :=
  flat_map
    (fun s =>
       if s_id s =? sid then
         match filter (fun ps => (ps_service_id ps =? s_id s)
                                 && (ps_professional_id ps =? pid))
                      (professional_services db) with
         | [] => [mkDetailsRow (s_duration_min s) (s_price_cents s) None None]
         | pss => map (fun ps => mkDetailsRow (s_duration_min s) (s_price_cents s)
                                   (ps_custom_duration_min ps)
                                   (ps_custom_price_cents ps)) pss
         end
       else [])
    (services db).

(** [SELECT 1 FROM appointments WHERE professional_id = $1 AND status NOT
    IN ('CANCELLED', 'NO_SHOW') AND tstzrange(start_time, end_time) &&
    tstzrange($2, $3) LIMIT 1], the parameter range already built.  The
    rows are scanned in order; the range of a row is built only when the
    first two conditions hold, and building it raises on a row whose end
    precedes its start.  The scan stops at the first hit. *)
Fixpoint select_overlapping (rows : list Appointment) (pid : Z) (r : range)
  : option (list unit) :=
  match rows with
  | [] => Some []
  | a :: rest =>
      if (professional_id a =? pid) && not_in_cancelled_no_show (status a) then
        match tstzrange (start_time a) (end_time a) with
        | None => None
        | Some ra =>
            if range_overlaps ra r then Some [tt]
            else select_overlapping rest pid r
        end
      else select_overlapping rest pid r
  end.

(** [INSERT INTO appointments (client_id, professional_id, service_id,
    start_time, end_time, status, total_price_cents, notes) VALUES ($1, $2,
    $3, $4, $5, 'PENDING', $6, $7) RETURNING *]; [id] comes from the
    sequence, [created_at] and [updated_at] from the clock. *)
Definition insert_appointment (db : Store) (now : Z)
    (cid pid sid start_ end_ price : Z) (notes_ : JS.value)
  : list Appointment * Store :=
  let row := mkAppointment (next_id db) cid pid sid start_ end_ PENDING price
                           notes_ now now in
  ([row],
   mkStore (users db) (professionals db) (services db)
           (professional_services db)
           (appointments db ++ [row])
           (next_id db + 1)).

(** [UPDATE appointments SET status = 'CANCELLED', updated_at = NOW() WHERE
    id = $1 RETURNING *] *)
Definition set_cancelled (now : Z) (a : Appointment) : Appointment :=
  mkAppointment (id a) (client_id a) (professional_id a) (service_id a)
                (start_time a) (end_time a) CANCELLED (total_price_cents a)
                (notes a) (created_at a) now.

Definition update_cancel (db : Store) (now : Z) (k : Z)
  : list Appointment * Store :=
  let rows' := map (fun a => if id a =? k then set_cancelled now a else a)
                   (appointments db) in
  (map (set_cancelled now) (filter (fun a => id a =? k) (appointments db)),
   mkStore (users db) (professionals db) (services db)
           (professional_services db) rows' (next_id db)).

(** [SELECT a.id, ... FROM appointments a JOIN services s ON s.id =
    a.service_id JOIN professionals p ON p.id = a.professional_id JOIN
    users u ON u.id = p.user_id WHERE a.client_id = $1 ORDER BY
    a.start_time DESC] *)
Definition client_rows (db : Store) (cid : Z) : list ClientSummary :=
  flat_map
    (fun a =>
       if client_id a =? cid then
         flat_map
           (fun s =>
              flat_map
                (fun p =>
                   map (fun u =>
                          mkClientSummary (id a) (start_time a) (end_time a)
                                          (status a) (total_price_cents a)
                                          (s_name s) (u_full_name u))
                       (filter (fun u => u_id u =? p_user_id p) (users db)))
                (filter (fun p => p_id p =? professional_id a)
                        (professionals db)))
           (filter (fun s => s_id s =? service_id a) (services db))
       else [])
    (appointments db).

Definition select_client_appointments (db : Store) (cid : Z)
  : list ClientSummary :=
  order_by_desc cs_start_time (client_rows db cid).

(** [SELECT a.id, ... FROM appointments a JOIN services s ON s.id =
    a.service_id JOIN users u ON u.id = a.client_id WHERE a.professional_id
    = $1 AND a.status NOT IN ('CANCELLED', 'NO_SHOW') AND a.start_time::date
    = CURRENT_DATE ORDER BY a.start_time ASC]; [date_of] is the cast of an
    instant to a date in the session's time zone. *)
Definition today_rows (date_of : Z -> Z) (db : Store) (now : Z) (pid : Z)
  : list TodaySummary :=
  flat_map
    (fun a =>
       if (professional_id a =? pid)
          && not_in_cancelled_no_show (status a)
          && (date_of (start_time a) =? date_of now) then
         flat_map
           (fun s =>
              map (fun u =>
                     mkTodaySummary (id a) (start_time a) (end_time a)
                                    (status a) (total_price_cents a)
                                    (s_name s) (u_full_name u))
                  (filter (fun u => u_id u =? client_id a) (users db)))
           (filter (fun s => s_id s =? service_id a) (services db))
       else [])
    (appointments db).

Definition select_today_appointments (date_of : Z -> Z) (db : Store)
    (now : Z) (pid : Z) : list TodaySummary :=
  order_by_asc ts_start_time (today_rows date_of db now pid).

End Pg.

Arguments Pg.timestamptz_in : simpl never.

Import JS.

(* ================================================================== *)
(** ** What the platform decides *)
(* ================================================================== *)

(** The behaviour of the runtime and of the store's input conversions that
    the source relies on and does not define. *)
Class Platform : Type := mkPlatform
  { (** [Date.parse] on a string; [None] is NaN *)
    Date_parse : string -> option Z;
    (** [Number(s)] on a route parameter; [None] is NaN *)
    Number_parse : string -> option Z;
    (** the key the store reads from a bound parameter (the driver's text
        form of the value, read as the key column's type); [None] when the
        store rejects it and the statement fails *)
    pg_key : value -> option Z;
    (** [t::date], the calendar day of an instant in the session's zone *)
    pg_date : Z -> Z }.

(* ================================================================== *)
(** ** Statements and programs *)
(* ================================================================== *)

(** The SQL statements of the booking routes with their parameters as the
    handlers pass them; the index is the type of a result row. *)
Inductive Query : Type -> Type :=
| ServiceDetailsQuery (professionalId serviceId : value) : Query Pg.DetailsRow
| OverlapQuery (professionalId : value) (startTime endTime : string)
  : Query unit
| InsertQuery (clientId professionalId serviceId : value) (start end_ : Date)
              (priceCents : Z) (notes : value) : Query Pg.Appointment
| CancelQuery (id : value) : Query Pg.Appointment
| ClientAppointmentsQuery (clientId : value) : Query Pg.ClientSummary
| TodayAppointmentsQuery (professionalId : value) : Query Pg.TodaySummary.

Inductive Tag : Type :=
| TServiceDetails | TOverlap | TInsert | TCancel | TClientAppointments
| TTodayAppointments.

Definition tag {R} (q : Query R) : Tag :=
  match q with
  | ServiceDetailsQuery _ _ => TServiceDetails
  | OverlapQuery _ _ _ => TOverlap
  | InsertQuery _ _ _ _ _ _ _ => TInsert
  | CancelQuery _ => TCancel
  | ClientAppointmentsQuery _ => TClientAppointments
  | TodayAppointmentsQuery _ => TTodayAppointments
  end.

(** An async function body: it returns, throws, or awaits one [dbQuery] and
    continues with its outcome ([None] when the statement raised). *)
Inductive Prog (A : Type) : Type :=
| Ret (a : A)
| Throw
| Await (R : Type) (q : Query R) (k : option (list R) -> Prog A).

Arguments Ret {A} a.
Arguments Throw {A}.
Arguments Await {A R} q k.

Fixpoint bind {A B} (p : Prog A) (f : A -> Prog B) : Prog B :=
  match p with
  | Ret a => f a
  | Throw => Throw
  | Await q k => Await q (fun r => bind (k r) f)
  end.

(** [try { p } catch (err) { h }] *)
Fixpoint try_catch {A} (p : Prog A) (h : Prog A) : Prog A :=
  match p with
  | Ret a => Ret a
  | Throw => h
  | Await q k => Await q (fun r => try_catch (k r) h)
  end.

Notation "x <- p ;; k" := (bind p (fun x => k))
  (at level 61, p at next level, right associativity).

(** [await dbQuery(text, params)] *)
Definition dbQuery {R} (q : Query R) : Prog (list R) :=
  Await q (fun r => match r with
                    | Some rows => Ret rows
                    | None => Throw
                    end).

(** The store, the clock [NOW()] reads, the failures the store is about to
    report (one flag per statement to come, [true] = this statement fails
    and changes nothing) and the statements issued so far. *)
Record World : Type := mkWorld
  { db : Pg.Store;
    clock : Z;
    faults : list bool;
    issued : list Tag }.

Section Server.
Context {P : Platform}.

(** The meaning of one statement on the store.  The two timestamps of the
    overlap statement arrive as text and are read by the store; the
    [Date] objects of the INSERT are sent by the driver as the timestamps
    of their time values, and the Invalid Date is refused. *)
Definition statement {R} (q : Query R) (d : Pg.Store) (now : Z)
  : option (list R * Pg.Store) :=
  match q in Query R return option (list R * Pg.Store) with
  | ServiceDetailsQuery professionalId serviceId =>
      match pg_key professionalId, pg_key serviceId with
      | Some pid, Some sid => Some (Pg.select_service_details d pid sid, d)
      | _, _ => None
      end
  | OverlapQuery professionalId startTime endTime =>
      match pg_key professionalId, Pg.timestamptz_in startTime,
            Pg.timestamptz_in endTime with
      | Some pid, Some lo, Some hi =>
          match Pg.tstzrange lo hi with
          | Some r =>
              match Pg.select_overlapping (Pg.appointments d) pid r with
              | Some rows => Some (rows, d)
              | None => None
              end
          | None => None
          end
      | _, _, _ => None
      end
  | InsertQuery clientId professionalId serviceId start end_ priceCents notes =>
      match pg_key clientId, pg_key professionalId, pg_key serviceId,
            start, end_ with
      | Some cid, Some pid, Some sid, Some t, Some e =>
          Some (Pg.insert_appointment d now cid pid sid t e priceCents notes)
      | _, _, _, _, _ => None
      end
  | CancelQuery id =>
      match pg_key id with
      | Some k => Some (Pg.update_cancel d now k)
      | None => None
      end
  | ClientAppointmentsQuery clientId =>
      match pg_key clientId with
      | Some cid => Some (Pg.select_client_appointments d cid, d)
      | None => None
      end
  | TodayAppointmentsQuery professionalId =>
      match pg_key professionalId with
      | Some pid => Some (Pg.select_today_appointments pg_date d now pid, d)
      | None => None
      end
  end.

(** One [dbQuery]: the statement is recorded, consumes the next fault flag
    and either fails or takes effect. *)
Definition exec {R} (q : Query R) (w : World) : option (list R) * World :=
  let fs := tl (faults w) in
  let tr := issued w ++ [tag q] in
  if hd false (faults w) then (None, mkWorld (db w) (clock w) fs tr)
  else match statement q (db w) (clock w) with
       | Some (rows, d') => (Some rows, mkWorld d' (clock w) fs tr)
       | None => (None, mkWorld (db w) (clock w) fs tr)
       end.

(** A handler run to completion with no other request in between; [None]
    is an exception that escapes the handler. *)
Fixpoint run {A} (p : Prog A) (w : World) : option A * World :=
  match p with
  | Ret a => (Some a, w)
  | Throw => (None, w)
  | Await q k => let (r, w') := exec q w in run (k r) w'
  end.

(** One turn of the event loop for a request: up to its next [await]. *)
Definition step {A} (p : Prog A) (w : World) : Prog A * World :=
  match p with
  | Await q k => let (r, w') := exec q w in (k r, w')
  | _ => (p, w)
  end.

Inductive Turn : Type := First | Second.

(** Two requests in flight: the schedule says whose pending statement the
    store executes next; when the schedule is used up both are run to
    completion, the first one first. *)
Fixpoint interleave {A B} (sched : list Turn) (p1 : Prog A) (p2 : Prog B)
    (w : World) : option A * option B * World :=
  match sched with
  | [] =>
      let (r1, w1) := run p1 w in
      let (r2, w2) := run p2 w1 in
      (r1, r2, w2)
  | First :: s => let (p1', w') := step p1 w in interleave s p1' p2 w'
  | Second :: s => let (p2', w') := step p2 w in interleave s p1 p2' w'
  end.

(* ================================================================== *)
(** ** The helpers and the routes *)
(* ================================================================== *)

(** [new Date(v)] *)
Definition new_Date (v : value) : Date :=
  match v with
  | JUndefined | JNaN => None
  | JNull => Some 0
  | JBool b => Some (if b then 1 else 0)
  | JNum n => TimeClip n
  | JStr s | JObj s =>
      match Date_parse s with
      | Some t => TimeClip t
      | None => None
      end
  end.

(** [d.toISOString()]: throws on the Invalid Date. *)
Definition toISOString (d : Date) : Prog string :=
  match d with
  | Some t => Ret (ISO_text t)
  | None => Throw
  end.

(** [Number(s)] *)
Definition Number (s : string) : value :=
  match Number_parse s with
  | Some n => JNum n
  | None => JNaN
  end.

Definition hasOverlappingAppointment (professionalId : value)
    (startTime endTime : string) : Prog bool :=
  rows <- dbQuery (OverlapQuery professionalId startTime endTime) ;;
  Ret (0 <? List.length rows)%nat.

Record ServiceDetails : Type := mkServiceDetails
  { durationMin : Z; priceCents : Z }.

Definition getServiceDetails (professionalId serviceId : value)
  : Prog (option ServiceDetails) :=
  rows <- dbQuery (ServiceDetailsQuery professionalId serviceId) ;;
  match rows with
  | [] => Ret None
  | s :: _ =>
      Ret (Some (mkServiceDetails
                   (nullish (Pg.custom_duration_min s) (Pg.duration_min s))
                   (nullish (Pg.custom_price_cents s) (Pg.price_cents s))))
  end.

Inductive Payload : Type :=
| ErrorBody (error : string)
| AppointmentBody (appointment : option Pg.Appointment)
| ClientAppointmentsBody (appointments : list Pg.ClientSummary)
| TodayAppointmentsBody (appointments : list Pg.TodaySummary)
| CancelBody (success : bool) (appointment : option Pg.Appointment).

Record Reply : Type := mkReply
  { statusCode : Z; payload : Payload }.

(** [request.body || {}] destructured: an absent field is [JUndefined]. *)
Record CreateBody : Type := mkCreateBody
  { clientId : value;
    professionalId : value;
    serviceId : value;
    startTime : value;
    notes : value }.

(** [app.post('/appointments', ...)] *)
Definition createAppointment (body : CreateBody) : Prog Reply :=
  try_catch
    (if negb (truthy (clientId body)) || negb (truthy (professionalId body))
        || negb (truthy (serviceId body)) || negb (truthy (startTime body))
     then Ret (mkReply 400 (ErrorBody "Dados obrigatórios faltando."))
     else
       details <- getServiceDetails (professionalId body) (serviceId body) ;;
       match details with
       | None => Ret (mkReply 400 (ErrorBody "Serviço inválido."))
       | Some d =>
           let start := new_Date (startTime body) in
           let end_ :=
             match start with
             | Some t => TimeClip (t + durationMin d * 60000)
             | None => None
             end in
           startISO <- toISOString start ;;
           endISO <- toISOString end_ ;;
           conflict <- hasOverlappingAppointment (professionalId body)
                                                 startISO endISO ;;
           if conflict
           then Ret (mkReply 409 (ErrorBody "Horário indisponível."))
           else
             rows <- dbQuery (InsertQuery (clientId body) (professionalId body)
                                          (serviceId body) start end_
                                          (priceCents d)
                                          (nullish_null (notes body))) ;;
             Ret (mkReply 201 (AppointmentBody (hd_error rows)))
       end)
    (Ret (mkReply 500 (ErrorBody "Erro ao criar agendamento."))).

(** [app.patch("/appointments/:id/cancel", ...)] *)
Definition cancelAppointment (id : string) : Prog Reply :=
  try_catch
    (result <- dbQuery (CancelQuery (JStr id)) ;;
     if (List.length result =? 0)%nat
     then Ret (mkReply 404 (ErrorBody "Agendamento não encontrado."))
     else Ret (mkReply 200 (CancelBody true (hd_error result))))
    (Ret (mkReply 500 (ErrorBody "Erro ao cancelar agendamento."))).

(** [app.get('/clients/:id/appointments', ...)] *)
Definition listClientAppointments (id : string) : Prog Reply :=
  try_catch
    (let clientId := Number id in
     rows <- dbQuery (ClientAppointmentsQuery clientId) ;;
     Ret (mkReply 200 (ClientAppointmentsBody rows)))
    (Ret (mkReply 500 (ErrorBody "Erro ao buscar agendamentos do cliente."))).

(** [app.get('/professionals/:id/appointments/today', ...)] *)
Definition listTodayAppointments (id : string) : Prog Reply :=
  try_catch
    (let professionalId := Number id in
     if negb (truthy professionalId)
     then Ret (mkReply 400 (ErrorBody "ID do profissional inválido."))
     else
       rows <- dbQuery (TodayAppointmentsQuery professionalId) ;;
       Ret (mkReply 200 (TodayAppointmentsBody rows)))
    (Ret (mkReply 500
            (ErrorBody "Erro ao buscar agendamentos do profissional."))).

End Server.

(* ================================================================== *)
(** ** Sequences of requests and the properties of the store *)
(* ================================================================== *)

Section Histories.
Context {P : Platform}.

(** What reaches the server, one after the other: a request handled to
    completion, or time passing. *)
Inductive Event : Type :=
| PostAppointment (body : CreateBody)
| PatchCancel (id : string)
| GetClientAppointments (id : string)
| GetTodayAppointments (id : string)
| Elapse (dt : Z).

Definition handle (e : Event) (w : World) : World :=
  match e with
  | PostAppointment body => snd (run (createAppointment body) w)
  | PatchCancel id => snd (run (cancelAppointment id) w)
  | GetClientAppointments id => snd (run (listClientAppointments id) w)
  | GetTodayAppointments id => snd (run (listTodayAppointments id) w)
  | Elapse dt => mkWorld (db w) (clock w + dt) (faults w) (issued w)
  end.

Definition handle_all (es : list Event) (w : World) : World :=
  fold_left (fun w e => handle e w) es w.

End Histories.

(** The half-open interval of an appointment contains [t]. *)
Definition covers (a : Pg.Appointment) (t : Z) : Prop :=
  Pg.start_time a <= t < Pg.end_time a.

Definition intersecting (a b : Pg.Appointment) : Prop :=
  exists t, covers a t /\ covers b t.

(** Two rows that may coexist: they are not both live bookings of one
    professional with a common instant. *)
Definition compatible (a b : Pg.Appointment) : Prop :=
  Pg.professional_id a = Pg.professional_id b ->
  Pg.not_in_cancelled_no_show (Pg.status a) = true ->
  Pg.not_in_cancelled_no_show (Pg.status b) = true ->
  ~ intersecting a b.

(** The central invariant: every pair of rows is compatible. *)
Definition no_overlap (d : Pg.Store) : Prop :=
  ForallOrdPairs compatible (Pg.appointments d).

(** The condition the spec gives for two intervals to overlap. *)
Definition overlap_formula (s1 e1 s2 e2 : Z) : Prop :=
  s1 < e2 /\ s2 < e1.

(** A row of professional [pid] whose status is neither CANCELLED nor
    NO_SHOW and whose interval overlaps [[s, e)]. *)
Definition blocks (pid s e : Z) (a : Pg.Appointment) : Prop :=
  Pg.professional_id a = pid /\
  (Pg.status a <> Pg.CANCELLED /\ Pg.status a <> Pg.NO_SHOW) /\
  overlap_formula (Pg.start_time a) (Pg.end_time a) s e.

(** Every row spans a positive amount of time. *)
Definition well_timed (rows : list Pg.Appointment) : Prop :=
  Forall (fun a => Pg.start_time a < Pg.end_time a) rows.

(** The override row of a (professional, service) pair, if any. *)
Definition override_of (d : Pg.Store) (pid sid : Z)
  : option Pg.ProfessionalService :=
  find (fun ps => (Pg.ps_service_id ps =? sid) && (Pg.ps_professional_id ps =? pid))
       (Pg.professional_services d).

(** The resolution rule in the words of the spec: each field is taken from
    the override when the override has it and from the service otherwise,
    the duration and the price each on its own. *)
Definition resolution_rule (sv : Pg.Service) (ov : option Pg.ProfessionalService)
  : ServiceDetails :=
  mkServiceDetails
    (match ov with
     | Some ps => match Pg.ps_custom_duration_min ps with
                  | Some m => m
                  | None => Pg.s_duration_min sv
                  end
     | None => Pg.s_duration_min sv
     end)
    (match ov with
     | Some ps => match Pg.ps_custom_price_cents ps with
                  | Some c => c
                  | None => Pg.s_price_cents sv
                  end
     | None => Pg.s_price_cents sv
     end).

(** The replies of the create and cancel routes, by the outcome they
    stand for. *)
Definition ValidationError : Reply :=
  mkReply 400 (ErrorBody "Dados obrigatórios faltando.").
Definition InvalidServiceError : Reply :=
  mkReply 400 (ErrorBody "Serviço inválido.").
Definition ConflictError : Reply :=
  mkReply 409 (ErrorBody "Horário indisponível.").
Definition InternalError : Reply :=
  mkReply 500 (ErrorBody "Erro ao criar agendamento.").
Definition NotFoundError : Reply :=
  mkReply 404 (ErrorBody "Agendamento não encontrado.").
Definition Created (a : Pg.Appointment) : Reply :=
  mkReply 201 (AppointmentBody (Some a)).

Definition required_fields (body : CreateBody) : list value :=
  [clientId body; professionalId body; serviceId body; startTime body].

(** The store reports no failure for the next [n] statements. *)
Definition answers (n : nat) (w : World) : bool :=
  forallb negb (firstn n (faults w)).

(* ================================================================== *)
(** ** A concrete platform and sample data *)
(* ================================================================== *)

Module Sample.

Definition digit (c : Ascii.ascii) : option Z :=
  let n := Z.of_nat (Ascii.nat_of_ascii c) in
  if (48 <=? n) && (n <=? 57) then Some (n - 48) else None.

Fixpoint digits (s : string) (acc : Z) : option Z :=
  match s with
  | EmptyString => Some acc
  | String c s' =>
      match digit c with
      | Some d => digits s' (10 * acc + d)
      | None => None
      end
  end.

Definition decimal (s : string) : option Z :=
  match s with
  | EmptyString => None
  | _ => digits s 0
  end.

(** Keys are taken from numbers and from strings of decimal digits, route
    parameters are decimal, no date string is understood (instants are
    given as numbers) and days are counted in UTC. *)
Definition platform : Platform :=
  mkPlatform
    (fun _ => None)
    decimal
    (fun v => match v with
              | JNum n => Some n
              | JStr s => decimal s
              | _ => None
              end)
    (fun t => t / 86400000).

(** One shop: client Ana (user 1), barbers Bob (user 2, professional 7)
    and Caio (user 3, professional 8), service 3 "Corte" of 30 minutes for
    5000, for which Bob overrides the duration only (45 minutes). *)
Definition catalog (rows : list Pg.Appointment) (next : Z) : Pg.Store :=
  Pg.mkStore
    [Pg.mkUser 1 "Ana"; Pg.mkUser 2 "Bob"; Pg.mkUser 3 "Caio"]
    [Pg.mkProfessional 7 2; Pg.mkProfessional 8 3]
    [Pg.mkService 3 "Corte" 30 5000]
    [Pg.mkProfessionalService 7 3 (Some 45) None]
    rows next.

Definition world (rows : list Pg.Appointment) (next : Z) (fs : list bool)
  : World :=
  mkWorld (catalog rows next) 1000 fs [].

(** 10:00 UTC on 15 November 2023, in milliseconds. *)
Definition ten : Z := 1700042400000.
Definition minutes (m : Z) : Z := m * 60000.

Definition booking_of (pid k : Z) (start_ end_ : Z) (st : Pg.Status)
  : Pg.Appointment :=
  Pg.mkAppointment k 1 pid 3 start_ end_ st 5000 JNull 1000 1000.

Definition booking := booking_of 7.

Definition request_of (pid : Z) (start_ : Z) : CreateBody :=
  mkCreateBody (JNum 1) (JNum pid) (JNum 3) (JNum start_) JUndefined.

Definition request := request_of 7.

End Sample.

(* ================================================================== *)
(** ** What a history may do to a row *)
(* ================================================================== *)

(** [a'] is the row [a] some requests later: every column but [status]
    and [updated_at] is the same, and the status is the old one or
    CANCELLED. *)
Definition kept (a a' : Pg.Appointment) : Prop :=
  Pg.id a' = Pg.id a
  /\ Pg.client_id a' = Pg.client_id a
  /\ Pg.professional_id a' = Pg.professional_id a
  /\ Pg.service_id a' = Pg.service_id a
  /\ Pg.start_time a' = Pg.start_time a
  /\ Pg.end_time a' = Pg.end_time a
  /\ Pg.total_price_cents a' = Pg.total_price_cents a
  /\ Pg.notes a' = Pg.notes a
  /\ Pg.created_at a' = Pg.created_at a
  /\ (Pg.status a' = Pg.status a \/ Pg.status a' = Pg.CANCELLED).

(** [rows'] is [rows] some requests later: the old rows, kept, in their
    order, followed by rows created since, each PENDING or CANCELLED. *)
Definition grown_from (rows rows' : list Pg.Appointment) : Prop :=
  exists old new,
    rows' = old ++ new
    /\ Forall2 kept rows old
    /\ Forall (fun a => Pg.status a = Pg.PENDING
                        \/ Pg.status a = Pg.CANCELLED) new.

(** The catalog side of the store: everything but the appointments. *)
Definition same_catalog (d d' : Pg.Store) : Prop :=
  Pg.users d' = Pg.users d
  /\ Pg.professionals d' = Pg.professionals d
  /\ Pg.services d' = Pg.services d
  /\ Pg.professional_services d' = Pg.professional_services d.

(** *** Requests in flight together with a create *)

(** A condition on the table that no cancellation can undo. *)
Definition stable (C : Pg.Store -> Prop) : Prop :=
  forall d now k, C d -> C (snd (Pg.update_cancel d now k)).

(** The statements that add no row. *)
Definition adds_no_row {R} (q : Query R) : bool :=
  match q with
  | InsertQuery _ _ _ _ _ _ _ => false
  | _ => true
  end.

(** A program none of whose statements adds a row. *)
Fixpoint harmless {A} (p : Prog A) : Prop :=
  match p with
  | Ret _ | Throw => True
  | Await q k => adds_no_row q = true /\ forall r, harmless (k r)
  end.

Section Guarded.
Context {P : Platform}.

(** [guarded p C]: started on a table that satisfies [C] and has no
    overlap, every statement of [p] leaves a table without overlap, and
    the rest of [p] is guarded by a condition that holds then and is
    stable. *)
Fixpoint guarded {A} (p : Prog A) (C : Pg.Store -> Prop) : Prop :=
  match p with
  | Ret _ | Throw => True
  | Await q k =>
      forall w, C (db w) -> no_overlap (db w) ->
                no_overlap (db (snd (exec q w)))
                /\ exists C', C' (db (snd (exec q w))) /\ stable C'
                              /\ guarded (k (fst (exec q w))) C'
  end.

End Guarded.

(** *** Two creates in flight together *)

(** A program that issues at most [n] statements. *)
Fixpoint within {A} (n : nat) (prog : Prog A) {struct prog} : Prop :=
  match prog with
  | Ret _ | Throw => True
  | Await q k =>
      match n with
      | O => False
      | S n' => forall r, within n' (k r)
      end
  end.

(** The row of a request that has been answered 201. *)
Definition created_rows (prog : Prog Reply) : list Pg.Appointment :=
  match prog with
  | Ret r =>
      match payload r with
      | AppointmentBody (Some a) => [a]
      | _ => []
      end
  | _ => []
  end.

Section Race.
Context {P : Platform}.

(** The store the race starts from and the professional of the two
    requests. *)
Variable d0 : Pg.Store.
Variable p : Z.

(** What the two requests leave as it is or establish: the catalog is
    that of [d0] and every row spans positive time. *)
Definition race_env (d : Pg.Store) : Prop :=
  same_catalog d0 d /\ well_timed (Pg.appointments d).

(** A request one statement from its reply: if the store answers, the
    statement appends one row of positive length and the reply is 201
    with that row. *)
Definition inserting (prog : Prog Reply) : Prop :=
  match prog with
  | Await q k =>
      forall w, hd false (faults w) = false ->
        exists row,
          Pg.appointments (db (snd (exec q w)))
          = Pg.appointments (db w) ++ [row]
          /\ same_catalog (db w) (db (snd (exec q w)))
          /\ Pg.start_time row < Pg.end_time row
          /\ k (fst (exec q w)) = Ret (Created row)
  | _ => False
  end.

(** A request for [[t, e)] that has not passed its overlap check: if the
    store answers, its next statement writes nothing and leaves it
    [racing], [inserting] or answered 409 -- and not answered 409 when no
    row blocks [[t, e)]. *)
Fixpoint racing (t e : Z) (prog : Prog Reply) {struct prog} : Prop :=
  match prog with
  | Await q k =>
      forall w, race_env (db w) -> hd false (faults w) = false ->
        db (snd (exec q w)) = db w
        /\ (racing t e (k (fst (exec q w)))
            \/ inserting (k (fst (exec q w)))
            \/ k (fst (exec q w)) = Ret ConflictError)
        /\ (~ Exists (blocks p t e) (Pg.appointments (db w)) ->
            k (fst (exec q w)) <> Ret ConflictError)
  | _ => False
  end.

(** On its way to 201 or 409, or there. *)
Definition decided (t e : Z) (prog : Prog Reply) : Prop :=
  racing t e prog \/ inserting prog \/ prog = Ret ConflictError
  \/ exists row, prog = Ret (Created row).

(** Past its overlap check: about to insert, or answered 201. *)
Definition committed (prog : Prog Reply) : Prop :=
  inserting prog \/ exists row, prog = Ret (Created row).

(** A request for [[t, e)] that will not be answered 409 as long as the
    other request [other] does not insert: it has not passed its check,
    its slot is free, and the other has not passed its check either or
    has been answered 409. *)
Definition ahead (t e : Z) (prog other : Prog Reply) (d : Pg.Store) : Prop :=
  racing t e prog
  /\ ~ Exists (blocks p t e) (Pg.appointments d)
  /\ ((exists t' e', racing t' e' other) \/ other = Ret ConflictError).

(** Two requests, for [[t1, e1)] and [[t2, e2)], with at most [n1] and
    [n2] statements to go, on a store that answers them: each is on its
    way to 201 or 409; one of them has passed its check or is [ahead];
    and the table has gained the rows of the requests answered 201,
    nothing else. *)
Definition race_state (t1 e1 t2 e2 : Z) (n1 n2 : nat)
    (p1 p2 : Prog Reply) (w : World) : Prop :=
  within n1 p1 /\ within n2 p2
  /\ answers (n1 + n2) w = true
  /\ race_env (db w)
  /\ decided t1 e1 p1 /\ decided t2 e2 p2
  /\ (committed p1 \/ committed p2
      \/ ahead t1 e1 p1 p2 (db w) \/ ahead t2 e2 p2 p1 (db w))
  /\ exists new,
       Pg.appointments (db w) = Pg.appointments d0 ++ new
       /\ Permutation new (created_rows p1 ++ created_rows p2).

End Race.

(** The outcomes of two requests on a table that held [rows]: one is
    answered 201 and the other 409 and the table has gained the row of
    the reply, or both are answered 201 and the table has gained both
    rows. *)
Definition one_or_both (rows : list Pg.Appointment)
    (o : option Reply * option Reply * World) : Prop :=
  exists new,
    Pg.appointments (db (snd o)) = rows ++ new
    /\ ((exists row,
           fst (fst o) = Some (Created row)
           /\ snd (fst o) = Some ConflictError /\ new = [row])
        \/ (exists row,
              fst (fst o) = Some ConflictError
              /\ snd (fst o) = Some (Created row) /\ new = [row])
        \/ (exists row row',
              fst (fst o) = Some (Created row)
              /\ snd (fst o) = Some (Created row')
              /\ (new = [row; row'] \/ new = [row'; row]))).

(** A catalog with a service of no length (4) and one of negative length
    (5), beside "Corte"; no overrides. *)
Definition odd_catalog (rows : list Pg.Appointment) (next : Z) : Pg.Store :=
  Pg.mkStore
    [Pg.mkUser 1 "Ana"; Pg.mkUser 2 "Bob"]
    [Pg.mkProfessional 7 2]
    [Pg.mkService 3 "Corte" 30 5000; Pg.mkService 4 "Brinde" 0 0;
     Pg.mkService 5 "Estorno" (-10) 0]
    []
    rows next.

Definition odd_request (service start_ : Z) : CreateBody :=
  mkCreateBody (JNum 1) (JNum 7) (JNum service) (JNum start_) JUndefined.

(* ================================================================== *)
(** ** The account routes *)
(* ================================================================== *)

Module Auth.

(** [\d] without the unicode flag: one of the code units 0 to 9. *)
Definition is_digit (c : Ascii.ascii) : bool :=
  let n := Ascii.nat_of_ascii c in ((48 <=? n) && (n <=? 57))%nat.

(** [s.replace(/\D/g, '')].  Strings are sequences of bytes (UTF-8); every
    byte of a character outside ASCII is above 127, so dropping the bytes
    that are not digits drops exactly the characters that are not. *)
Fixpoint strip_non_digits (s : string) : string :=
  match s with
  | EmptyString => EmptyString
  | String c s' =>
      if is_digit c then String c (strip_non_digits s')
      else strip_non_digits s'
  end.

(** [normalizePhone(phone)], that is [phone?.replace(/\D/g, '') || null];
    [None] is the TypeError raised when [phone] is neither nullish nor a
    string, since it has no [replace] to call. *)
Definition normalizePhone (phone : value) : option value :=
  match phone with
  | JUndefined | JNull => Some JNull
  | JStr s =>
      let digits := strip_non_digits s in
      Some (if String.eqb digits "" then JNull else JStr digits)
  | _ => None
  end.

(** [role ?? "CLIENTE"] *)
Definition role_or_default (role : value) : value :=
  match role with
  | JUndefined | JNull => JStr "CLIENTE"
  | _ => role
  end.

(** The tables of the account routes, with the columns their statements
    name; the declarations are not part of the source file.  Keys are
    integers, [phone] may be null, [id] comes from a sequence and
    [created_at] from the clock. *)
Record UserRow : Type := mkUserRow
  { u_id : Z;
    u_full_name : string;
    u_email : string;
    u_phone : option string;
    u_password_hash : string;
    u_role : string;
    u_created_at : Z }.

Record ProfessionalRow : Type := mkProfessionalRow
  { p_id : Z;
    p_user_id : Z;
    p_barbershop_id : Z;
    p_bio : option string;
    p_is_active : bool;
    p_is_master : bool }.

Record Store : Type := mkStore
  { users : list UserRow;
    professionals : list ProfessionalRow;
    next_user_id : Z }.

(** Result rows and reply objects. *)
Record RegisteredUser : Type := mkRegisteredUser
  { r_id : Z;
    r_full_name : string;
    r_email : string;
    r_phone : option string;
    r_role : string;
    r_created_at : Z }.

Record ProfessionalInfo : Type := mkProfessionalInfo
  { id : Z;
    barbershop_id : Z;
    bio : option string;
    is_active : bool;
    is_master : bool }.

(** The [user] object of the login route: the selected row, from which
    [password_hash] is deleted and to which [professional] may be added. *)
Record Account : Type := mkAccount
  { a_id : Z;
    a_full_name : string;
    a_email : string;
    a_phone : option string;
    a_role : string;
    a_password_hash : option string;
    a_professional : option ProfessionalInfo }.

Inductive Payload : Type :=
| ErrorBody (error : string)
| RegisteredBody (user : option RegisteredUser)
| LoggedBody (user : Account).

Record Reply : Type := mkReply
  { statusCode : Z; payload : Payload }.

(** [request.body || {}] destructured; the login route reads [phone] and
    [password] only. *)
Record Body : Type := mkBody
  { fullName : value;
    email : value;
    phone : value;
    password : value;
    role : value }.

(** The fields each route insists on. *)
Definition register_required (body : Body) : bool :=
  truthy (fullName body) && truthy (email body) && truthy (phone body)
  && truthy (password body).

Definition login_required (body : Body) : bool :=
  truthy (phone body) && truthy (password body).

(** *** The statements, on values already bound *)

Definition phone_is (x : string) (u : UserRow) : bool :=
  match u_phone u with
  | Some y => String.eqb y x
  | None => false
  end.

(** [SELECT id FROM users WHERE email = $1 OR phone = $2]; a null [$2]
    matches no phone. *)
Definition select_existing (d : Store) (e : string) (ph : option string)
  : list Z :=
  map u_id
      (filter (fun u => String.eqb (u_email u) e
                        || match ph with
                           | Some x => phone_is x u
                           | None => false
                           end)
              (users d)).

(** [INSERT INTO users (full_name, email, phone, password_hash, role)
    VALUES ($1, $2, $3, $4, $5) RETURNING id, full_name, email, phone,
    role, created_at] *)
Definition insert_user (d : Store) (now : Z) (n e : string)
    (ph : option string) (h r : string) : list RegisteredUser * Store :=
  ([mkRegisteredUser (next_user_id d) n e ph r now],
   mkStore (users d ++ [mkUserRow (next_user_id d) n e ph h r now])
           (professionals d) (next_user_id d + 1)).

(** [SELECT id, full_name, email, phone, role, password_hash FROM users
    WHERE phone = $1 LIMIT 1] *)
Definition select_by_phone (d : Store) (ph : option string) : list Account :=
  match ph with
  | None => []
  | Some x =>
      firstn 1
        (map (fun u => mkAccount (u_id u) (u_full_name u) (u_email u)
                                 (u_phone u) (u_role u)
                                 (Some (u_password_hash u)) None)
             (filter (phone_is x) (users d)))
  end.

(** [SELECT id, barbershop_id, bio, is_active, is_master FROM
    professionals WHERE user_id = $1 LIMIT 1] *)
Definition select_professional (d : Store) (uid : Z) : list ProfessionalInfo :=
  firstn 1
    (map (fun p => mkProfessionalInfo (p_id p) (p_barbershop_id p) (p_bio p)
                                      (p_is_active p) (p_is_master p))
         (filter (fun p => p_user_id p =? uid) (professionals d))).

(** *** The world and the effects *)

(** The store, the clock, what the pool and the store are about to do (one
    flag per [pool.connect()] and one per [client.query()] to come, [true]
    = it fails), the salts [bcrypt] is about to draw, and the clients taken
    from and given back to the pool so far. *)
Record World : Type := mkWorld
  { store : Store;
    clock : Z;
    connects : list bool;
    faults : list bool;
    entropy : list Z;
    connected : nat;
    released : nat }.

(** What the runtime decides: [bcrypt.hash] with the salt it drew and
    [bcrypt.compare] ([None] when they reject), and the text the store
    reads from a bound value that is not null, for a text column and for
    the role column ([None] when the store rejects it). *)
Class Runtime : Type := mkRuntime
  { bcrypt_hash : Z -> value -> option string;
    bcrypt_compare : value -> string -> option bool;
    pg_text : value -> option string;
    pg_role : value -> option string }.

(** An async function body over the world; [None] is a thrown error. *)
Definition M (A : Type) : Type := World -> option A * World.

Definition ret {A} (a : A) : M A := fun w => (Some a, w).

Definition throw {A} : M A := fun w => (None, w).

Definition bind {A B} (m : M A) (f : A -> M B) : M B :=
  fun w => match m w with
           | (Some a, w') => f a w'
           | (None, w') => (None, w')
           end.

(** [try { m } catch (err) { h }] *)
Definition try_catch {A} (m h : M A) : M A :=
  fun w => match m w with
           | (Some a, w') => (Some a, w')
           | (None, w') => h w'
           end.

(** [try { m } finally { f }] *)
Definition try_finally {A} (m : M A) (f : M unit) : M A :=
  fun w => match m w with
           | (r, w') => match f w' with
                        | (Some _, w'') => (r, w'')
                        | (None, w'') => (None, w'')
                        end
           end.

Definition lift {A} (o : option A) : M A :=
  match o with
  | Some a => ret a
  | None => throw
  end.

Notation "x <~ m ;; k" := (bind m (fun x => k))
  (at level 61, m at next level, right associativity).

(** [await pool.connect()] *)
Definition pool_connect : M unit :=
  fun w =>
    let w' := mkWorld (store w) (clock w) (tl (connects w)) (faults w)
                      (entropy w) in
    if hd false (connects w) then (None, w' (connected w) (released w))
    else (Some tt, w' (S (connected w)) (released w)).

(** [await client.query(text, params)], the statement given by its
    meaning on the store at the time of the clock. *)
Definition client_query {A} (stmt : Store -> Z -> option (A * Store)) : M A :=
  fun w =>
    let w' d := mkWorld d (clock w) (connects w) (tl (faults w)) (entropy w)
                        (connected w) (released w) in
    if hd false (faults w) then (None, w' (store w))
    else match stmt (store w) (clock w) with
         | Some (a, d') => (Some a, w' d')
         | None => (None, w' (store w))
         end.

(** [client.release()] *)
Definition client_release : M unit :=
  fun w => (Some tt, mkWorld (store w) (clock w) (connects w) (faults w)
                             (entropy w) (connected w) (S (released w))).

(** [dbQuery(text, params)] *)
Definition dbQuery {A} (stmt : Store -> Z -> option (A * Store)) : M A :=
  _ <~ pool_connect ;;
  try_finally (client_query stmt) client_release.

Section Routes.
Context {R : Runtime}.

(** A bound parameter: null stays null, anything else is read as text. *)
Definition bind_text (v : value) : option (option string) :=
  match v with
  | JUndefined | JNull => Some None
  | _ => option_map Some (pg_text v)
  end.

(** [await bcrypt.hash(password, SALT_ROUNDS)] *)
Definition hash (pw : value) : M string :=
  fun w =>
    match bcrypt_hash (hd 0 (entropy w)) pw with
    | Some h => (Some h, mkWorld (store w) (clock w) (connects w) (faults w)
                                 (tl (entropy w)) (connected w) (released w))
    | None => (None, w)
    end.

(** [await bcrypt.compare(password, hash)] *)
Definition compare (pw : value) (h : option string) : M bool :=
  match h with
  | Some h' => lift (bcrypt_compare pw h')
  | None => throw
  end.

Definition existing_statement (e ph : value) (d : Store) (now : Z)
  : option (list Z * Store) :=
  match pg_text e, bind_text ph with
  | Some e', Some ph' => Some (select_existing d e' ph', d)
  | _, _ => None
  end.

Definition insert_statement (n e ph : value) (h : string) (r : value)
    (d : Store) (now : Z) : option (list RegisteredUser * Store) :=
  match pg_text n, pg_text e, bind_text ph, pg_role r with
  | Some n', Some e', Some ph', Some r' =>
      Some (insert_user d now n' e' ph' h r')
  | _, _, _, _ => None
  end.

Definition by_phone_statement (ph : value) (d : Store) (now : Z)
  : option (list Account * Store) :=
  match bind_text ph with
  | Some ph' => Some (select_by_phone d ph', d)
  | None => None
  end.

Definition professional_statement (uid : Z) (d : Store) (now : Z)
  : option (list ProfessionalInfo * Store) :=
  Some (select_professional d uid, d).

(** [app.post('/auth/register', ...)] *)
Definition register (body : Body) : M Reply :=
  try_catch
    (if negb (truthy (fullName body)) || negb (truthy (email body))
        || negb (truthy (phone body)) || negb (truthy (password body))
     then ret (mkReply 400 (ErrorBody "Campos obrigatórios não enviados."))
     else
       normalizedPhone <~ lift (normalizePhone (phone body)) ;;
       exists_ <~ dbQuery (existing_statement (email body) normalizedPhone) ;;
       if (0 <? List.length exists_)%nat
       then ret (mkReply 409 (ErrorBody "E-mail ou telefone já cadastrados."))
       else
         passwordHash <~ hash (password body) ;;
         rows <~ dbQuery (insert_statement (fullName body) (email body)
                            normalizedPhone passwordHash
                            (role_or_default (role body))) ;;
         ret (mkReply 201 (RegisteredBody (hd_error rows))))
    (ret (mkReply 500 (ErrorBody "Erro ao registrar usuário."))).

(** [app.post('/auth/login', ...)] *)
Definition login (body : Body) : M Reply :=
  try_catch
    (if negb (truthy (phone body)) || negb (truthy (password body))
     then ret (mkReply 400 (ErrorBody "Telefone e senha são obrigatórios."))
     else
       normalizedPhone <~ lift (normalizePhone (phone body)) ;;
       rows <~ dbQuery (by_phone_statement normalizedPhone) ;;
       match rows with
       | [] => ret (mkReply 401 (ErrorBody "Telefone ou senha inválidos."))
       | user :: _ =>
           ok <~ compare (password body) (a_password_hash user) ;;
           if negb ok
           then ret (mkReply 401 (ErrorBody "Telefone ou senha inválidos."))
           else
             let user := mkAccount (a_id user) (a_full_name user)
                                   (a_email user) (a_phone user) (a_role user)
                                   None (a_professional user) in
             if String.eqb (a_role user) "BARBER"
             then
               profRows <~ dbQuery (professional_statement (a_id user)) ;;
               match profRows with
               | prof :: _ =>
                   ret (mkReply 200
                          (LoggedBody
                             (mkAccount (a_id user) (a_full_name user)
                                        (a_email user) (a_phone user)
                                        (a_role user) (a_password_hash user)
                                        (Some prof))))
               | [] => ret (mkReply 200 (LoggedBody user))
               end
             else ret (mkReply 200 (LoggedBody user))
       end)
    (ret (mkReply 500 (ErrorBody "Erro ao realizar login."))).

(** Requests to the account routes, handled one after the other. *)
Inductive Event : Type :=
| PostRegister (body : Body)
| PostLogin (body : Body).

Definition handle (e : Event) (w : World) : World :=
  match e with
  | PostRegister body => snd (register body w)
  | PostLogin body => snd (login body w)
  end.

Definition handle_all (es : list Event) (w : World) : World :=
  fold_left (fun w e => handle e w) es w.

End Routes.

(** The error replies of the two routes. *)
Definition MissingFields : Reply :=
  mkReply 400 (ErrorBody "Campos obrigatórios não enviados.").
Definition AlreadyRegistered : Reply :=
  mkReply 409 (ErrorBody "E-mail ou telefone já cadastrados.").
Definition RegisterFailed : Reply :=
  mkReply 500 (ErrorBody "Erro ao registrar usuário.").
Definition MissingCredentials : Reply :=
  mkReply 400 (ErrorBody "Telefone e senha são obrigatórios.").
Definition InvalidCredentials : Reply :=
  mkReply 401 (ErrorBody "Telefone ou senha inválidos.").
Definition LoginFailed : Reply :=
  mkReply 500 (ErrorBody "Erro ao realizar login.").

(** The row the login route selects for a user. *)
Definition account_of (u : UserRow) : Account :=
  mkAccount (u_id u) (u_full_name u) (u_email u) (u_phone u) (u_role u)
            (Some (u_password_hash u)) None.

(** No two accounts share an e-mail or a phone. *)
Definition distinct_accounts (d : Store) : Prop :=
  ForallOrdPairs
    (fun u v => u_email u <> u_email v
                /\ forall x, u_phone u = Some x -> u_phone v <> Some x)
    (users d).

(** The store answers the next [n] connects and queries. *)
Definition serves (n : nat) (w : World) : Prop :=
  forallb negb (firstn n (connects w)) = true
  /\ forallb negb (firstn n (faults w)) = true.

(** *** A runtime and sample data *)

(** A stand-in for bcrypt: the hash is the salt digit, a dollar sign
    (code 36) and the password; passwords that are not strings are
    rejected.  The store reads strings as they are. *)
Definition toy_hash (salt : Z) (pw : value) : option string :=
  match pw with
  | JStr s => Some (String (Ascii.ascii_of_nat (48 + Z.to_nat (salt mod 10)))
                           (String (Ascii.ascii_of_nat 36) s))
  | _ => None
  end.

Definition toy_compare (pw : value) (h : string) : option bool :=
  match pw with
  | JStr s =>
      Some (match h with
            | String _ (String c rest) =>
                Ascii.eqb c (Ascii.ascii_of_nat 36) && String.eqb rest s
            | _ => false
            end)
  | _ => None
  end.

Definition text_of_string (v : value) : option string :=
  match v with
  | JStr s => Some s
  | _ => None
  end.

Definition runtime : Runtime :=
  mkRuntime toy_hash toy_compare text_of_string text_of_string.

Definition ana : UserRow :=
  mkUserRow 1 "Ana" "ana@example.com" (Some "11999990000") "3$segredo"
            "CLIENTE" 500.

Definition bob : UserRow :=
  mkUserRow 2 "Bob" "bob@example.com" (Some "11888880000") "7$navalha"
            "BARBER" 600.

Definition shop : Store :=
  mkStore [ana; bob] [mkProfessionalRow 7 2 1 (Some "Barbeiro") true false] 3.

Definition world (d : Store) : World := mkWorld d 1000 [] [] [4] 0 0.

Definition caio : Body :=
  mkBody (JStr "Caio") (JStr "caio@example.com") (JStr "(11) 97777-0000")
         (JStr "tesoura") JUndefined.

Definition credentials (phone_ password_ : string) : Body :=
  mkBody JUndefined JUndefined (JStr phone_) (JStr password_) JUndefined.

End Auth.

(* ================================================================== *)
(** ** Timestamps as text *)
(* ================================================================== *)

Lemma digit_digit_char (x : Z) :
  0 <= x <= 9 -> Pg.digit (JS.digit_char x) = Some x.
Proof.
  intros H.
  assert (C : x = 0 \/ x = 1 \/ x = 2 \/ x = 3 \/ x = 4 \/ x = 5 \/ x = 6
              \/ x = 7 \/ x = 8 \/ x = 9) by lia.
  repeat (destruct C as [->|C]; [reflexivity|]). subst x. reflexivity.
Qed.

Lemma read_pad (n : nat) (v acc : Z) (rest : string) :
  0 <= v ->
  Pg.read_digits n (String.append (JS.pad n v) rest) acc
  = Some (acc * 10 ^ Z.of_nat n + v mod 10 ^ Z.of_nat n, rest).
Proof.
  intros Hv. revert acc. induction n as [|n IH]; intros acc.
  - simpl. rewrite Z.mod_1_r. f_equal. f_equal. lia.
  - cbn [JS.pad String.append Pg.read_digits].
    assert (P : 0 < 10 ^ Z.of_nat n) by (apply Z.pow_pos_nonneg; lia).
    rewrite digit_digit_char
      by (pose proof (Z.mod_pos_bound (v / 10 ^ Z.of_nat n) 10); lia).
    rewrite IH. f_equal. f_equal.
    rewrite Nat2Z.inj_succ, Z.pow_succ_r by lia.
    rewrite (Z.mul_comm 10 (10 ^ Z.of_nat n)).
    rewrite (Z.rem_mul_r v (10 ^ Z.of_nat n) 10) by lia. ring.
Qed.

Lemma read_pad_small (n : nat) (v : Z) (rest : string) :
  0 <= v < 10 ^ Z.of_nat n ->
  Pg.read_digits n (String.append (JS.pad n v) rest) 0 = Some (v, rest).
Proof.
  intros H. rewrite read_pad by lia. rewrite Z.mod_small by lia. reflexivity.
Qed.

(** The day number of the civil date of a day is that day, and the month
    and the day of the month are in their ranges. *)
Lemma days_from_civil_from_days (z : Z) :
  let '(y, m, d) := JS.civil_from_days z in
  Pg.days_from_civil y m d = z /\ 1 <= m <= 12 /\ 1 <= d <= 31.
Proof.
  unfold JS.civil_from_days, Pg.days_from_civil. cbv zeta.
  set (z' := z + 719468).
  set (era := z' / 146097). set (doe := z' mod 146097).
  assert (R : 0 <= doe < 146097) by (apply Z.mod_pos_bound; lia).
  assert (E : z' = 146097 * era + doe) by (apply Z.div_mod; lia).
  set (yoe := (doe - doe / 1460 + doe / 36524 - doe / 146096) / 365).
  assert (Y : 0 <= yoe <= 399)
    by (subst yoe; Z.div_mod_to_equations; lia).
  set (doy := doe - (365 * yoe + yoe / 4 - yoe / 100)).
  assert (D : 0 <= doy <= 365)
    by (subst doy yoe; Z.div_mod_to_equations; lia).
  set (mp := (5 * doy + 2) / 153).
  assert (M : 0 <= mp <= 11) by (subst mp; Z.div_mod_to_equations; lia).
  set (d := doy - (153 * mp + 2) / 5 + 1).
  assert (Dd : 1 <= d <= 31) by (subst d mp; Z.div_mod_to_equations; lia).
  destruct (mp <? 10) eqn:C; [apply Z.ltb_lt in C|apply Z.ltb_ge in C].
  - replace (mp + 3 <=? 2) with false by (symmetry; apply Z.leb_gt; lia).
    replace (2 <? mp + 3) with true by (symmetry; apply Z.ltb_lt; lia).
    replace (yoe + era * 400 + 0) with (yoe + era * 400) by ring.
    rewrite Z.div_add, Z.mod_add by lia.
    rewrite Z.div_small, Z.mod_small by lia.
    replace (mp + 3 - 3) with mp by ring.
    subst d doy z'. lia.
  - replace (mp - 9 <=? 2) with true by (symmetry; apply Z.leb_le; lia).
    replace (2 <? mp - 9) with false by (symmetry; apply Z.ltb_ge; lia).
    replace (yoe + era * 400 + 1 - 1) with (yoe + era * 400) by ring.
    rewrite Z.div_add, Z.mod_add by lia.
    rewrite Z.div_small, Z.mod_small by lia.
    replace (mp - 9 + 9) with mp by ring.
    subst d doy z'. lia.
Qed.

Lemma expect_here (c : Ascii.ascii) (rest : string) :
  Pg.expect (String c EmptyString) (String c rest) = Some rest.
Proof. simpl. rewrite Ascii.eqb_refl. reflexivity. Qed.

(** What the store reads from the text of an instant: the instant itself
    when its year is between 1 and 9999, nothing otherwise. *)
Lemma timestamptz_in_ISO_text (t : Z) :
  Pg.timestamptz_in (JS.ISO_text t)
  = if (1 <=? JS.YearFromTime t) && (JS.YearFromTime t <=? 9999)
    then Some t else None.
Proof.
  unfold JS.ISO_text, JS.YearFromTime.
  pose proof (days_from_civil_from_days (t / JS.msPerDay)) as C.
  assert (V : forall y m d, JS.civil_from_days (t / JS.msPerDay) = (y, m, d) ->
                            Pg.valid_date y m d = true).
  { intros y m d E. unfold Pg.valid_date. rewrite E in C.
    destruct C as [C _]. rewrite C, E. rewrite !Z.eqb_refl. reflexivity. }
  destruct (JS.civil_from_days (t / JS.msPerDay)) as [[y m] d].
  specialize (V y m d eq_refl). destruct C as [C [Hm Hd]]. cbv zeta.
  cbn [fst]. unfold JS.msPerDay in *.
  set (w := t mod 86400000).
  assert (W : 0 <= w < 86400000) by (apply Z.mod_pos_bound; lia).
  unfold JS.year_text.
  destruct ((0 <=? y) && (y <=? 9999)) eqn:Y.
  - apply andb_true_iff in Y. destruct Y as [Y1 Y2].
    apply Z.leb_le in Y1, Y2.
    unfold Pg.timestamptz_in.
    rewrite read_pad_small by (simpl; lia).
    cbn [String.append]. rewrite expect_here.
    rewrite read_pad_small by (simpl; lia).
    cbn [String.append]. rewrite expect_here.
    rewrite read_pad_small by (simpl; lia).
    cbn [String.append]. rewrite expect_here.
    rewrite read_pad_small
      by (simpl; Z.div_mod_to_equations; lia).
    cbn [String.append]. rewrite expect_here.
    rewrite read_pad_small
      by (simpl; Z.div_mod_to_equations; lia).
    cbn [String.append]. rewrite expect_here.
    rewrite read_pad_small
      by (simpl; Z.div_mod_to_equations; lia).
    cbn [String.append]. rewrite expect_here.
    rewrite read_pad_small
      by (simpl; Z.div_mod_to_equations; lia).
    rewrite expect_here. rewrite V, C.
    replace (w / 3600000 <=? 23) with true
      by (symmetry; apply Z.leb_le; Z.div_mod_to_equations; lia).
    replace (w / 60000 mod 60 <=? 59) with true
      by (symmetry; apply Z.leb_le; Z.div_mod_to_equations; lia).
    replace (w / 1000 mod 60 <=? 59) with true
      by (symmetry; apply Z.leb_le; Z.div_mod_to_equations; lia).
    rewrite !andb_true_r.
    replace (y <=? 9999) with true by (symmetry; apply Z.leb_le; lia).
    rewrite andb_true_r.
    destruct (1 <=? y); [|reflexivity]. f_equal.
    subst w. Z.div_mod_to_equations. lia.
  - replace ((1 <=? y) && (y <=? 9999)) with false.
    2:{ symmetry. apply andb_false_iff in Y. apply andb_false_iff.
        destruct Y as [Y|Y]; [left|right; exact Y].
        apply Z.leb_gt in Y. apply Z.leb_gt. lia. }
    destruct (y <? 0); reflexivity.
Qed.

(** The epoch, the sample instant, a leap day, the millisecond before the
    epoch, and the two ends of the years the store reads. *)
Example ISO_text_samples :
  JS.ISO_text 0 = "1970-01-01T00:00:00.000Z"
  /\ JS.ISO_text 1700042400000 = "2023-11-15T10:00:00.000Z"
  /\ JS.ISO_text 1709208000123 = "2024-02-29T12:00:00.123Z"
  /\ JS.ISO_text (-1) = "1969-12-31T23:59:59.999Z"
  /\ JS.ISO_text (-62135596800000) = "0001-01-01T00:00:00.000Z"
  /\ JS.ISO_text (-62135596800001) = "0000-12-31T23:59:59.999Z"
  /\ JS.ISO_text 253402300799999 = "9999-12-31T23:59:59.999Z"
  /\ JS.ISO_text 253402300800000 = "+010000-01-01T00:00:00.000Z"
  /\ JS.ISO_text JS.maxTime = "+275760-09-13T00:00:00.000Z"
  /\ JS.ISO_text (- JS.maxTime) = "-271821-04-20T00:00:00.000Z".
Proof. repeat split. Qed.

Example timestamptz_in_samples :
  Pg.timestamptz_in "2023-11-15T10:00:00.000Z" = Some 1700042400000
  /\ Pg.timestamptz_in "2024-02-29T12:00:00.123Z" = Some 1709208000123
  /\ Pg.timestamptz_in "2023-02-29T12:00:00.000Z" = None
  /\ Pg.timestamptz_in "0001-01-01T00:00:00.000Z" = Some (-62135596800000)
  /\ Pg.timestamptz_in "0000-12-31T23:59:59.999Z" = None
  /\ Pg.timestamptz_in "+010000-01-01T00:00:00.000Z" = None.
Proof. repeat split. Qed.

(** The store never reads the text of an instant as another instant. *)
Lemma timestamptz_in_exact (t z : Z) :
  Pg.timestamptz_in (JS.ISO_text t) = Some z -> z = t.
Proof.
  rewrite timestamptz_in_ISO_text.
  destruct ((1 <=? JS.YearFromTime t) && (JS.YearFromTime t <=? 9999));
    [|discriminate].
  intros H. inversion H. reflexivity.
Qed.

(* ================================================================== *)
(** ** Ranges and the overlap scan *)
(* ================================================================== *)

Lemma not_in_cancelled_no_show_iff (s : Pg.Status) :
  Pg.not_in_cancelled_no_show s = true <->
  s <> Pg.CANCELLED /\ s <> Pg.NO_SHOW.
Proof.
  destruct s; simpl; split; intros H; try reflexivity; try discriminate;
    try (split; discriminate); destruct H as [H1 H2]; congruence.
Qed.

Lemma tstzrange_proper (s e : Z) :
  s < e -> Pg.tstzrange s e = Some (Pg.Bounds s e).
Proof.
  intros H. unfold Pg.tstzrange.
  destruct (e <? s) eqn:E1; [apply Z.ltb_lt in E1; lia|].
  destruct (s =? e) eqn:E2; [apply Z.eqb_eq in E2; lia|reflexivity].
Qed.

Lemma tstzrange_inv (s e : Z) (r : Pg.range) :
  Pg.tstzrange s e = Some r ->
  (s = e /\ r = Pg.Empty) \/ (s < e /\ r = Pg.Bounds s e).
Proof.
  unfold Pg.tstzrange. intros H.
  destruct (e <? s) eqn:E1; [discriminate|]. apply Z.ltb_ge in E1.
  destruct (s =? e) eqn:E2; inversion H; subst.
  - apply Z.eqb_eq in E2. auto.
  - apply Z.eqb_neq in E2. right. split; [lia|reflexivity].
Qed.

(** On proper bounds the store's [&&] is the two-sided strict comparison. *)
Lemma range_overlaps_half_open (s1 e1 s2 e2 : Z) :
  s1 < e1 -> s2 < e2 ->
  (Pg.range_overlaps (Pg.Bounds s1 e1) (Pg.Bounds s2 e2) = true
   <-> overlap_formula s1 e1 s2 e2).
Proof.
  intros H1 H2. unfold overlap_formula. simpl.
  rewrite orb_true_iff, !andb_true_iff, !Z.leb_le, !Z.ltb_lt. lia.
Qed.

Lemma range_overlaps_false_half_open (s1 e1 s2 e2 : Z) :
  s1 < e1 -> s2 < e2 ->
  (Pg.range_overlaps (Pg.Bounds s1 e1) (Pg.Bounds s2 e2) = false
   <-> ~ overlap_formula s1 e1 s2 e2).
Proof.
  intros H1 H2. rewrite <- (range_overlaps_half_open H1 H2).
  destruct (Pg.range_overlaps _ _); split; intros H; congruence.
Qed.

(** Whatever the bounds, the store's [&&] on two ranges it could build
    holds exactly when the half-open intervals have an instant in common. *)
Lemma range_overlaps_is_intersection (s1 e1 s2 e2 : Z) (r1 r2 : Pg.range) :
  Pg.tstzrange s1 e1 = Some r1 -> Pg.tstzrange s2 e2 = Some r2 ->
  (Pg.range_overlaps r1 r2 = true
   <-> exists t, s1 <= t < e1 /\ s2 <= t < e2).
Proof.
  intros H1 H2. apply tstzrange_inv in H1, H2.
  destruct H1 as [[E1 ->]|[L1 ->]], H2 as [[E2 ->]|[L2 ->]]; simpl;
    try (split; [discriminate|intros [t Ht]; lia]).
  rewrite orb_true_iff, !andb_true_iff, !Z.leb_le, !Z.ltb_lt. split.
  - intros [[A B]|[A B]]; [exists s1|exists s2]; lia.
  - intros [t Ht]. lia.
Qed.

(** Two rows whose ranges the store finds apart share no instant. *)
Lemma ranges_apart_not_intersecting (a b : Pg.Appointment) (ra : Pg.range)
    (rb : Pg.range) :
  Pg.tstzrange (Pg.start_time a) (Pg.end_time a) = Some ra ->
  Pg.tstzrange (Pg.start_time b) (Pg.end_time b) = Some rb ->
  Pg.range_overlaps ra rb = false ->
  ~ intersecting a b.
Proof.
  intros Ha Hb Hov [t [[A1 A2] [B1 B2]]].
  apply tstzrange_inv in Ha. apply tstzrange_inv in Hb.
  destruct Ha as [[Ea _]|[La Ra]]; [lia|].
  destruct Hb as [[Eb _]|[Lb Rb]]; [lia|].
  subst ra rb. apply (range_overlaps_false_half_open La Lb) in Hov.
  apply Hov. unfold overlap_formula. lia.
Qed.

(** A scan that ends without a hit has compared every live row of the
    professional and found its range apart from the parameter. *)
Lemma select_overlapping_clear (rows : list Pg.Appointment) (pid : Z)
    (r : Pg.range) :
  Pg.select_overlapping rows pid r = Some [] ->
  Forall (fun a =>
            Pg.professional_id a = pid ->
            Pg.not_in_cancelled_no_show (Pg.status a) = true ->
            exists ra, Pg.tstzrange (Pg.start_time a) (Pg.end_time a) = Some ra
                       /\ Pg.range_overlaps ra r = false) rows.
Proof.
  induction rows as [|a rest IH]; simpl; intros H; [constructor|].
  destruct ((Pg.professional_id a =? pid)
            && Pg.not_in_cancelled_no_show (Pg.status a)) eqn:G.
  - destruct (Pg.tstzrange (Pg.start_time a) (Pg.end_time a)) as [ra|] eqn:T;
      [|discriminate].
    destruct (Pg.range_overlaps ra r) eqn:O; [discriminate|].
    constructor; [|auto]. intros _ _. eauto.
  - constructor; [|auto]. intros E A. apply Z.eqb_eq in E.
    rewrite E, A in G. discriminate.
Qed.

(** The scan returns at most one row. *)
Lemma select_overlapping_rows (rows : list Pg.Appointment) (pid : Z)
    (r : Pg.range) (l : list unit) :
  Pg.select_overlapping rows pid r = Some l -> l = [] \/ l = [tt].
Proof.
  induction rows as [|a rest IH]; simpl; intros H.
  - inversion H. auto.
  - destruct ((Pg.professional_id a =? pid)
              && Pg.not_in_cancelled_no_show (Pg.status a)); auto.
    destruct (Pg.tstzrange _ _); [|discriminate].
    destruct (Pg.range_overlaps _ _); auto. inversion H. auto.
Qed.

(** On rows of positive length and a proper parameter range the scan never
    raises and hits exactly when some live row of the professional
    satisfies the two strict comparisons. *)
Lemma select_overlapping_half_open (rows : list Pg.Appointment) (pid s e : Z) :
  well_timed rows -> s < e ->
  exists l, Pg.select_overlapping rows pid (Pg.Bounds s e) = Some l /\
            (l = [tt] <-> Exists (blocks pid s e) rows) /\
            (l = [] <-> ~ Exists (blocks pid s e) rows).
Proof.
  intros W L. induction rows as [|a rest IH]; simpl.
  - exists []. split; [reflexivity|]. split; split; intros H.
    + discriminate.
    + inversion H.
    + intros X. inversion X.
    + reflexivity.
  - inversion W as [|? ? Wa Wrest]; subst.
    destruct (IH Wrest) as [l [Hl [Hhit Hclear]]].
    destruct ((Pg.professional_id a =? pid)
              && Pg.not_in_cancelled_no_show (Pg.status a)) eqn:G.
    + rewrite (tstzrange_proper Wa).
      apply andb_true_iff in G. destruct G as [G1 G2]. apply Z.eqb_eq in G1.
      destruct (Pg.range_overlaps (Pg.Bounds (Pg.start_time a) (Pg.end_time a))
                                  (Pg.Bounds s e)) eqn:O.
      * apply (range_overlaps_half_open Wa L) in O.
        exists [tt]. split; [reflexivity|].
        assert (B : Exists (blocks pid s e) (a :: rest))
          by (left; unfold blocks; apply not_in_cancelled_no_show_iff in G2;
              auto).
        split; split; intros H; auto; try discriminate. contradiction.
      * apply (range_overlaps_false_half_open Wa L) in O.
        exists l. split; [exact Hl|].
        split; split; intros H.
        -- right. now apply Hhit.
        -- apply Hhit. inversion H as [? ? B|]; subst; auto.
           destruct B as [_ [_ B]]. contradiction.
        -- intros X. apply Hclear in H. inversion X as [? ? B|]; subst; auto.
           destruct B as [_ [_ B]]. contradiction.
        -- apply Hclear. intros X. apply H. now right.
    + exists l. split; [exact Hl|].
      assert (NB : ~ blocks pid s e a).
      { intros [B1 [B2 _]]. apply Z.eqb_eq in B1.
        apply not_in_cancelled_no_show_iff in B2. rewrite B1, B2 in G.
        discriminate. }
      split; split; intros H.
      * right. now apply Hhit.
      * apply Hhit. inversion H; subst; auto. contradiction.
      * intros X. apply Hclear in H. inversion X; subst; auto.
      * apply Hclear. intros X. apply H. now right.
Qed.

(* ================================================================== *)
(** ** Running programs *)
(* ================================================================== *)

Section Running.
Context {P : Platform}.

Lemma run_bind {A B} (p : Prog A) (f : A -> Prog B) (w : World) :
  run (bind p f) w =
  match run p w with
  | (Some a, w') => run (f a) w'
  | (None, w') => (None, w')
  end.
Proof.
  revert w. induction p as [a| |R q k IH]; simpl; intros w; auto.
  destruct (exec q w) as [r w']. apply IH.
Qed.

Lemma run_try_catch {A} (p h : Prog A) (w : World) :
  run (try_catch p h) w =
  match run p w with
  | (Some a, w') => (Some a, w')
  | (None, w') => run h w'
  end.
Proof.
  revert w. induction p as [a| |R q k IH]; simpl; intros w; auto.
  destruct (exec q w) as [r w']. apply IH.
Qed.

Lemma run_dbQuery {R} (q : Query R) (w : World) :
  run (dbQuery q) w = exec q w.
Proof.
  unfold dbQuery. simpl. destruct (exec q w) as [[rows|] w']; reflexivity.
Qed.

(** What every statement does to the bookkeeping of the world. *)
Lemma exec_bookkeeping {R} (q : Query R) (w : World) :
  let w' := snd (exec q w) in
  clock w' = clock w /\ faults w' = tl (faults w)
  /\ issued w' = issued w ++ [tag q].
Proof.
  unfold exec. destruct (hd false (faults w)); simpl; auto.
  destruct (statement q (db w) (clock w)) as [[rows d']|]; simpl; auto.
Qed.

(** A statement the store fails has no effect and no rows. *)
Lemma exec_fault {R} (q : Query R) (w : World) :
  hd false (faults w) = true ->
  exec q w = (None, mkWorld (db w) (clock w) (tl (faults w))
                            (issued w ++ [tag q])).
Proof. intros H. unfold exec. rewrite H. reflexivity. Qed.

Lemma exec_ok {R} (q : Query R) (w : World) :
  hd false (faults w) = false ->
  exec q w =
  match statement q (db w) (clock w) with
  | Some (rows, d') =>
      (Some rows, mkWorld d' (clock w) (tl (faults w)) (issued w ++ [tag q]))
  | None =>
      (None, mkWorld (db w) (clock w) (tl (faults w)) (issued w ++ [tag q]))
  end.
Proof. intros H. unfold exec. rewrite H. reflexivity. Qed.

(** A statement that raises leaves the store as it was. *)
Lemma exec_none_db {R} (q : Query R) (w w' : World) :
  exec q w = (None, w') -> db w' = db w.
Proof.
  unfold exec. destruct (hd false (faults w)).
  - intros H. inversion H. reflexivity.
  - destruct (statement q (db w) (clock w)) as [[rows d']|]; intros H;
      inversion H. reflexivity.
Qed.

(** The two reads of the create route never write. *)
Lemma exec_details_db (pid sid : value) (w : World) :
  db (snd (exec (ServiceDetailsQuery pid sid) w)) = db w.
Proof.
  unfold exec. destruct (hd false (faults w)); [reflexivity|]. simpl.
  destruct (pg_key pid); [|reflexivity]. destruct (pg_key sid); reflexivity.
Qed.

Lemma exec_overlap_db (pid : value) (s e : string) (w : World) :
  db (snd (exec (OverlapQuery pid s e) w)) = db w.
Proof.
  unfold exec. destruct (hd false (faults w)); [reflexivity|]. simpl.
  destruct (pg_key pid); [|reflexivity].
  destruct (Pg.timestamptz_in s); [|reflexivity].
  destruct (Pg.timestamptz_in e); [|reflexivity].
  destruct (Pg.tstzrange _ _); [|reflexivity].
  destruct (Pg.select_overlapping _ _ _); reflexivity.
Qed.

(** The create route, one [await] after the other. *)
Lemma run_createAppointment (body : CreateBody) (w : World) :
  run (createAppointment body) w =
  if forallb truthy (required_fields body) then
    match exec (ServiceDetailsQuery (professionalId body) (serviceId body)) w with
    | (None, w1) => (Some InternalError, w1)
    | (Some [], w1) => (Some InvalidServiceError, w1)
    | (Some (s :: _), w1) =>
        match new_Date (startTime body) with
        | None => (Some InternalError, w1)
        | Some t =>
            let d := nullish (Pg.custom_duration_min s) (Pg.duration_min s) in
            match TimeClip (t + d * 60000) with
            | None => (Some InternalError, w1)
            | Some e =>
                match exec (OverlapQuery (professionalId body)
                              (ISO_text t) (ISO_text e)) w1 with
                | (None, w2) => (Some InternalError, w2)
                | (Some (_ :: _), w2) => (Some ConflictError, w2)
                | (Some [], w2) =>
                    match exec (InsertQuery (clientId body) (professionalId body)
                                  (serviceId body) (Some t) (Some e)
                                  (nullish (Pg.custom_price_cents s)
                                           (Pg.price_cents s))
                                  (nullish_null (notes body))) w2 with
                    | (None, w3) => (Some InternalError, w3)
                    | (Some rows, w3) =>
                        (Some (mkReply 201 (AppointmentBody (hd_error rows))), w3)
                    end
                end
            end
        end
    end
  else (Some ValidationError, w).
Proof.
  unfold createAppointment, required_fields. simpl forallb.
  rewrite run_try_catch.
  destruct (truthy (clientId body)); simpl; [|reflexivity].
  destruct (truthy (professionalId body)); simpl; [|reflexivity].
  destruct (truthy (serviceId body)); simpl; [|reflexivity].
  destruct (truthy (startTime body)); simpl; [|reflexivity].
  destruct (exec (ServiceDetailsQuery (professionalId body) (serviceId body)) w)
    as [[[|s rows]|] w1]; simpl; try reflexivity.
  destruct (new_Date (startTime body)) as [t|]; simpl; [|reflexivity].
  destruct (TimeClip (t + _ * 60000)) as [e|]; simpl; [|reflexivity].
  destruct (exec (OverlapQuery (professionalId body) _ _) w1)
    as [[[|u us]|] w2]; simpl; try reflexivity.
  destruct (exec (InsertQuery _ _ _ _ _ _ _) w2) as [[rows'|] w3]; reflexivity.
Qed.

End Running.

(* ================================================================== *)
(** ** Validation and failed requests *)
(* ================================================================== *)

Section CreateErrors.
Context {P : Platform}.

(** C10.  The presence check of the create route is a truthiness check: a
    request in which a required field ([clientId], [professionalId],
    [serviceId], [startTime]) carries a falsy value -- the number 0 and
    the empty string in particular -- is answered 400 "Dados obrigatorios
    faltando." (ValidationError) although the field is there, and nothing
    is sent to the store. *)
Theorem falsy_required_field_is_rejected (body : CreateBody) (w : World)
    (v : value) :
  In v (required_fields body) ->
  v = JNum 0 \/ v = JStr "" \/ truthy v = false ->
  run (createAppointment body) w = (Some ValidationError, w).
Proof.
  intros Hin Hv.
  assert (F : truthy v = false)
    by (destruct Hv as [->|[->|Hv]]; [reflexivity|reflexivity|exact Hv]).
  rewrite run_createAppointment.
  destruct (forallb truthy (required_fields body)) eqn:A; [|reflexivity].
  rewrite forallb_forall in A. rewrite (A v Hin) in F. discriminate.
Qed.


(** Shape of the world after each of the three statements of the route. *)
Lemma exec_details_inv (pid sid : value) (w w1 : World)
    (r : option (list Pg.DetailsRow)) :
  exec (ServiceDetailsQuery pid sid) w = (r, w1) ->
  db w1 = db w /\ clock w1 = clock w /\ faults w1 = tl (faults w)
  /\ issued w1 = issued w ++ [TServiceDetails].
Proof.
  intros E.
  pose proof (exec_bookkeeping (ServiceDetailsQuery pid sid) w) as B.
  pose proof (exec_details_db pid sid w) as D.
  rewrite E in B, D. simpl in B, D. tauto.
Qed.

Lemma exec_overlap_inv (pid : value) (s e : string) (w w1 : World)
    (r : option (list unit)) :
  exec (OverlapQuery pid s e) w = (r, w1) ->
  db w1 = db w /\ clock w1 = clock w /\ faults w1 = tl (faults w)
  /\ issued w1 = issued w ++ [TOverlap].
Proof.
  intros E.
  pose proof (exec_bookkeeping (OverlapQuery pid s e) w) as B.
  pose proof (exec_overlap_db pid s e w) as D.
  rewrite E in B, D. simpl in B, D. tauto.
Qed.

(** C8.  A create request answered with ValidationError,
    InvalidServiceError or ConflictError leaves the store exactly as it
    was, and the INSERT statement was never issued: the validation error
    comes before any statement, the service error after the catalog read
    only, the conflict after the catalog read and the overlap check
    only. *)
Theorem rejected_create_writes_nothing (body : CreateBody) (w w' : World)
    (r : Reply) :
  run (createAppointment body) w = (Some r, w') ->
  r = ValidationError \/ r = InvalidServiceError \/ r = ConflictError ->
  db w' = db w /\
  ((r = ValidationError /\ issued w' = issued w)
   \/ (r = InvalidServiceError /\ issued w' = issued w ++ [TServiceDetails])
   \/ (r = ConflictError
       /\ issued w' = issued w ++ [TServiceDetails; TOverlap])).
Proof.
  rewrite run_createAppointment. intros H Hr.
  assert (K : forall x, (Some x, w') = (Some r, w') -> x = r)
    by (intros x X; congruence).
  destruct (forallb truthy (required_fields body)).
  2:{ inversion H; subst. auto. }
  destruct (exec (ServiceDetailsQuery _ _) w) as [[[|s rows]|] w1] eqn:E1;
    apply exec_details_inv in E1; destruct E1 as [D1 [_ [_ I1]]].
  - inversion H; subst. split; [exact D1|]. right. left. auto.
  - destruct (new_Date (startTime body)) as [t|].
    2:{ inversion H; subst. destruct Hr as [X|[X|X]]; discriminate X. }
    cbv zeta in H.
    destruct (TimeClip _) as [e|].
    2:{ inversion H; subst. destruct Hr as [X|[X|X]]; discriminate X. }
    destruct (exec (OverlapQuery _ _ _) w1) as [[[|u us]|] w2] eqn:E2;
      apply exec_overlap_inv in E2; destruct E2 as [D2 [_ [_ I2]]].
    + destruct (exec (InsertQuery _ _ _ _ _ _ _) w2) as [[rows'|] w3];
        inversion H; subst; destruct Hr as [X|[X|X]]; discriminate X.
    + inversion H; subst. split; [congruence|]. right. right.
      split; [reflexivity|]. rewrite I2, I1, <- app_assoc. reflexivity.
    + inversion H; subst. destruct Hr as [X|[X|X]]; discriminate X.
  - inversion H; subst. destruct Hr as [X|[X|X]]; discriminate X.
Qed.

End CreateErrors.

Section CreateErrorsExamples.
#[local] Existing Instance Sample.platform.

Lemma falsy_required_field_is_rejected_witness :
  let body := mkCreateBody (JNum 0) (JNum 7) (JNum 3) (JStr "") JUndefined in
  let w := Sample.world [] 1 [] in
  In (JNum 0) (required_fields body)
  /\ run (createAppointment body) w = (Some ValidationError, w).
Proof.
  split.
  - simpl. auto.
  - apply (@falsy_required_field_is_rejected Sample.platform _ _ (JNum 0)).
    + simpl. auto.
    + left. reflexivity.
Defined.

Lemma rejected_create_writes_nothing_witness :
  let w := Sample.world [Sample.booking 1 Sample.ten
                           (Sample.ten + Sample.minutes 45) Pg.PENDING] 2 [] in
  exists w',
    run (createAppointment (Sample.request Sample.ten)) w
    = (Some ConflictError, w')
    /\ db w' = db w.
Proof.
  intros w.
  exists (snd (run (createAppointment (Sample.request Sample.ten)) w)).
  assert (E : run (createAppointment (Sample.request Sample.ten)) w
              = (Some ConflictError,
                 snd (run (createAppointment (Sample.request Sample.ten)) w)))
    by (vm_compute; reflexivity).
  split; [exact E|].
  apply (proj1 (rejected_create_writes_nothing _ _ E
                  (or_intror (or_intror eq_refl)))).
Defined.

End CreateErrorsExamples.

(* ================================================================== *)
(** ** Resolution of the effective service details *)
(* ================================================================== *)

Lemma hd_error_filter {A} (f : A -> bool) (l : list A) :
  hd_error (filter f l) = find f l.
Proof.
  induction l as [|x l IH]; simpl; [reflexivity|].
  destruct (f x); simpl; auto.
Qed.

(** The join yields no row exactly when no service carries the key. *)
Lemma select_service_details_nil (d : Pg.Store) (pid sid : Z) :
  Pg.select_service_details d pid sid = [] <->
  (forall sv, In sv (Pg.services d) -> Pg.s_id sv <> sid).
Proof.
  unfold Pg.select_service_details.
  induction (Pg.services d) as [|sv l IH]; simpl.
  - split; [intros _ sv []|reflexivity].
  - destruct (Pg.s_id sv =? sid) eqn:E.
    + split.
      * intros H. apply app_eq_nil in H. destruct H as [H _].
        destruct (filter _ (Pg.professional_services d)); discriminate H.
      * intros H. apply Z.eqb_eq in E. exfalso. apply (H sv); auto.
    + apply Z.eqb_neq in E. simpl. rewrite IH. split.
      * intros H x [<-|Hx]; auto.
      * intros H x Hx. apply H. auto.
Qed.

(** The first row of the join: the first service with the key, joined with
    the first override of the pair, or padded with nulls. *)
Lemma select_service_details_hd (d : Pg.Store) (pid sid : Z) (sv : Pg.Service) :
  find (fun x => Pg.s_id x =? sid) (Pg.services d) = Some sv ->
  hd_error (Pg.select_service_details d pid sid) =
  Some (match override_of d pid sid with
        | Some ps => Pg.mkDetailsRow (Pg.s_duration_min sv) (Pg.s_price_cents sv)
                                     (Pg.ps_custom_duration_min ps)
                                     (Pg.ps_custom_price_cents ps)
        | None => Pg.mkDetailsRow (Pg.s_duration_min sv) (Pg.s_price_cents sv)
                                  None None
        end).
Proof.
  unfold Pg.select_service_details, override_of.
  induction (Pg.services d) as [|x l IH]; simpl; [discriminate|].
  destruct (Pg.s_id x =? sid) eqn:E.
  - intros H. inversion H; subst x. apply Z.eqb_eq in E. rewrite E.
    rewrite <- hd_error_filter.
    destruct (filter _ (Pg.professional_services d)) as [|ps pss];
      reflexivity.
  - intros H. simpl. auto.
Qed.

Section Resolver.
Context {P : Platform}.

Lemma run_getServiceDetails (pid sid : value) (w : World) :
  run (getServiceDetails pid sid) w =
  match exec (ServiceDetailsQuery pid sid) w with
  | (None, w1) => (None, w1)
  | (Some [], w1) => (Some None, w1)
  | (Some (s :: _), w1) =>
      (Some (Some (mkServiceDetails
                     (nullish (Pg.custom_duration_min s) (Pg.duration_min s))
                     (nullish (Pg.custom_price_cents s) (Pg.price_cents s)))),
       w1)
  end.
Proof.
  unfold getServiceDetails. rewrite run_bind, run_dbQuery.
  destruct (exec _ w) as [[[|s rows]|] w1]; reflexivity.
Qed.

Lemma exec_details_ok (pid sid : value) (p s : Z) (w : World) :
  pg_key pid = Some p -> pg_key sid = Some s ->
  hd false (faults w) = false ->
  exec (ServiceDetailsQuery pid sid) w =
  (Some (Pg.select_service_details (db w) p s),
   mkWorld (db w) (clock w) (tl (faults w)) (issued w ++ [TServiceDetails])).
Proof.
  intros Hp Hs F. rewrite (exec_ok _ _ F). simpl. rewrite Hp, Hs. reflexivity.
Qed.

(** C5.  For a pair of keys whose service row exists, [getServiceDetails]
    returns the duration of the provider's override when the override has
    one and the service's own duration otherwise, and, independently, the
    price of the override when it has one and the service's own price
    otherwise ([resolution_rule] is that rule); an override that sets one field
    leaves the other at the service's value. *)
Theorem details_resolve_field_by_field (pid sid : value) (p s : Z)
    (sv : Pg.Service) (w : World) :
  pg_key pid = Some p -> pg_key sid = Some s ->
  hd false (faults w) = false ->
  find (fun x => Pg.s_id x =? s) (Pg.services (db w)) = Some sv ->
  fst (run (getServiceDetails pid sid) w)
  = Some (Some (resolution_rule sv (override_of (db w) p s)))
  /\ (forall ps, override_of (db w) p s = Some ps ->
                 Pg.ps_custom_price_cents ps = None ->
                 priceCents (resolution_rule sv (Some ps)) = Pg.s_price_cents sv)
  /\ (forall ps, override_of (db w) p s = Some ps ->
                 Pg.ps_custom_duration_min ps = None ->
                 durationMin (resolution_rule sv (Some ps)) = Pg.s_duration_min sv).
Proof.
  intros Hp Hs F Hsv. split.
  - rewrite run_getServiceDetails, (@exec_details_ok pid sid p s w Hp Hs F).
    pose proof (@select_service_details_hd (db w) p s sv Hsv) as H.
    destruct (Pg.select_service_details (db w) p s) as [|row rows];
      [discriminate H|].
    simpl in H. inversion H as [H1]. simpl. unfold resolution_rule.
    destruct (override_of (db w) p s) as [ps|]; simpl; [|reflexivity].
    destruct (Pg.ps_custom_duration_min ps), (Pg.ps_custom_price_cents ps);
      reflexivity.
  - split; intros ps _ E; simpl; rewrite E; reflexivity.
Qed.

(** C6.  With the keys bound and the store answering, the resolver returns
    [null] (NotFound) exactly when no service row carries the service key,
    whoever the professional is; when a service row exists it returns
    details whether or not the professional has an override; and a create
    request that passed validation is answered 400 "Servico invalido."
    (InvalidServiceError) exactly in the NotFound case. *)
Theorem unknown_service_is_not_found (body : CreateBody) (w : World)
    (p s : Z) :
  pg_key (professionalId body) = Some p ->
  pg_key (serviceId body) = Some s ->
  hd false (faults w) = false ->
  let missing := forall sv, In sv (Pg.services (db w)) -> Pg.s_id sv <> s in
  let resolved :=
    fst (run (getServiceDetails (professionalId body) (serviceId body)) w) in
  (resolved = Some None <-> missing)
  /\ (~ missing -> exists d, resolved = Some (Some d))
  /\ (forallb truthy (required_fields body) = true ->
      (fst (run (createAppointment body) w) = Some InvalidServiceError
       <-> missing)).
Proof.
  intros Hp Hs F missing resolved. subst resolved.
  rewrite run_getServiceDetails, run_createAppointment.
  rewrite (@exec_details_ok _ _ p s w Hp Hs F).
  pose proof (select_service_details_nil (db w) p s) as N. fold missing in N.
  destruct (Pg.select_service_details (db w) p s) as [|row rows].
  - assert (M : missing) by (apply N; reflexivity).
    split; [tauto|]. split; [tauto|]. intros ->. simpl. tauto.
  - assert (M : ~ missing) by (intros M; apply N in M; discriminate M).
    split; [simpl; split; [discriminate|tauto]|].
    split; [intros _; simpl; eauto|].
    intros ->. split; [|tauto]. intros H. exfalso.
    destruct (new_Date (startTime body)) as [t|]; [|discriminate H].
    cbv zeta in H.
    destruct (TimeClip _) as [e|]; [|discriminate H].
    destruct (exec (OverlapQuery _ _ _) _) as [[[|u us]|] w2];
      try discriminate H.
    destruct (exec (InsertQuery _ _ _ _ _ _ _) w2) as [[rows'|] w3];
      discriminate H.
Qed.

End Resolver.

Section ResolverExamples.
#[local] Existing Instance Sample.platform.

(** The example of the spec: defaults 30 / 5000, override of the duration
    only (45): the resolver yields 45 / 5000. *)
Lemma details_resolve_field_by_field_witness :
  fst (run (getServiceDetails (JNum 7) (JNum 3)) (Sample.world [] 1 []))
  = Some (Some (mkServiceDetails 45 5000)).
Proof.
  exact (proj1 (@details_resolve_field_by_field Sample.platform
                  (JNum 7) (JNum 3) 7 3 (Pg.mkService 3 "Corte" 30 5000)
                  (Sample.world [] 1 [])
                  eq_refl eq_refl eq_refl eq_refl)).
Defined.

(** Service 9 is not in the catalog: InvalidServiceError. *)
Lemma unknown_service_is_not_found_witness :
  fst (run (createAppointment
              (mkCreateBody (JNum 1) (JNum 7) (JNum 9) (JNum Sample.ten)
                            JUndefined))
           (Sample.world [] 1 []))
  = Some InvalidServiceError.
Proof.
  apply (proj2 (proj2 (@unknown_service_is_not_found Sample.platform
                         (mkCreateBody (JNum 1) (JNum 7) (JNum 9)
                                       (JNum Sample.ten) JUndefined)
                         (Sample.world [] 1 []) 7 9
                         eq_refl eq_refl eq_refl))).
  - reflexivity.
  - intros sv [<-|[]]. simpl. lia.
Defined.

End ResolverExamples.

(* ================================================================== *)
(** ** The overlap check of the create route *)
(* ================================================================== *)

Lemma answers_S (n : nat) (w : World) :
  answers (S n) w = true ->
  hd false (faults w) = false
  /\ forall d c tr, answers n (mkWorld d c (tl (faults w)) tr) = true.
Proof.
  unfold answers. destruct (faults w) as [|f fs]; simpl.
  - intros _. split; [reflexivity|]. intros. destruct n; reflexivity.
  - intros H. apply andb_true_iff in H. destruct H as [H1 H2].
    split; [now destruct f|auto].
Qed.

Section OverlapCheck.
Context {P : Platform}.

Lemma exec_insert_ok (cv pv sv : value) (c p s t e price : Z) (n : value)
    (w : World) :
  pg_key cv = Some c -> pg_key pv = Some p -> pg_key sv = Some s ->
  hd false (faults w) = false ->
  exec (InsertQuery cv pv sv (Some t) (Some e) price n) w =
  (Some (fst (Pg.insert_appointment (db w) (clock w) c p s t e price n)),
   mkWorld (snd (Pg.insert_appointment (db w) (clock w) c p s t e price n))
           (clock w) (tl (faults w)) (issued w ++ [TInsert])).
Proof.
  intros Hc Hp Hs F. rewrite (exec_ok _ _ F). simpl. rewrite Hc, Hp, Hs.
  reflexivity.
Qed.

(** The create route on a request that passed validation, whose keys
    bind, whose service resolves and whose interval [[t, e)] is proper and
    valid, on a store that answers the two reads: the outcome is decided
    by the scan and, for the insert, by the store. *)
Lemma run_create_resolved (body : CreateBody) (w : World)
    (c p s t : Z) (sv : Pg.Service) :
  forallb truthy (required_fields body) = true ->
  pg_key (clientId body) = Some c ->
  pg_key (professionalId body) = Some p ->
  pg_key (serviceId body) = Some s ->
  answers 2 w = true ->
  find (fun x => Pg.s_id x =? s) (Pg.services (db w)) = Some sv ->
  new_Date (startTime body) = Some t ->
  let details := resolution_rule sv (override_of (db w) p s) in
  let e := t + durationMin details * 60000 in
  0 < durationMin details ->
  Z.abs e <= maxTime ->
  Pg.timestamptz_in (ISO_text t) = Some t ->
  Pg.timestamptz_in (ISO_text e) = Some e ->
  let fs2 := tl (tl (faults w)) in
  let tr2 := (issued w ++ [TServiceDetails]) ++ [TOverlap] in
  let row := Pg.mkAppointment (Pg.next_id (db w)) c p s t e Pg.PENDING
                              (priceCents details)
                              (nullish_null (notes body))
                              (clock w) (clock w) in
  run (createAppointment body) w =
  match Pg.select_overlapping (Pg.appointments (db w)) p (Pg.Bounds t e) with
  | None => (Some InternalError, mkWorld (db w) (clock w) fs2 tr2)
  | Some (_ :: _) => (Some ConflictError, mkWorld (db w) (clock w) fs2 tr2)
  | Some [] =>
      if hd false fs2
      then (Some InternalError,
            mkWorld (db w) (clock w) (tl fs2) (tr2 ++ [TInsert]))
      else (Some (Created row),
            mkWorld (Pg.mkStore (Pg.users (db w)) (Pg.professionals (db w))
                                (Pg.services (db w))
                                (Pg.professional_services (db w))
                                (Pg.appointments (db w) ++ [row])
                                (Pg.next_id (db w) + 1))
                    (clock w) (tl fs2) (tr2 ++ [TInsert]))
  end.
Proof.
  intros V Hc Hp Hs A Hsv Ht details e Hd He Rt Re fs2 tr2 row.
  rewrite run_createAppointment, V.
  apply answers_S in A. destruct A as [F1 A].
  rewrite (@exec_details_ok _ _ _ p s w Hp Hs F1).
  pose proof (@select_service_details_hd (db w) p s sv Hsv) as H.
  destruct (Pg.select_service_details (db w) p s) as [|r rows];
    [discriminate H|].
  simpl in H. injection H as Hr.
  assert (Hdur : nullish (Pg.custom_duration_min r) (Pg.duration_min r)
                 = durationMin details).
  { subst r details. unfold resolution_rule.
    destruct (override_of (db w) p s) as [ps|]; simpl; [|reflexivity].
    destruct (Pg.ps_custom_duration_min ps); reflexivity. }
  assert (Hprice : nullish (Pg.custom_price_cents r) (Pg.price_cents r)
                   = priceCents details).
  { subst r details. unfold resolution_rule.
    destruct (override_of (db w) p s) as [ps|]; simpl; [|reflexivity].
    destruct (Pg.ps_custom_price_cents ps); reflexivity. }
  clear Hr. rewrite Ht. cbv zeta. rewrite Hdur, Hprice. fold e.
  unfold TimeClip. destruct (Z.abs e <=? maxTime) eqn:C;
    [|apply Z.leb_gt in C; lia].
  set (w1 := mkWorld (db w) (clock w) (tl (faults w))
                     (issued w ++ [TServiceDetails])).
  specialize (A (db w) (clock w) (issued w ++ [TServiceDetails])). fold w1 in A.
  apply answers_S in A. destruct A as [F2 _].
  assert (L : t < e) by (subst e; lia).
  rewrite (exec_ok _ _ F2). simpl statement.
  rewrite Hp, Rt, Re, (tstzrange_proper L). simpl db.
  destruct (Pg.select_overlapping (Pg.appointments (db w)) p (Pg.Bounds t e))
    as [[|u us]|]; try reflexivity.
  set (w2 := mkWorld (db w) (clock w1) (tl (faults w1))
                     (issued w1 ++ [TOverlap])).
  change fs2 with (faults w2).
  destruct (hd false (faults w2)) eqn:F3.
  - rewrite (exec_fault _ _ F3). reflexivity.
  - rewrite (@exec_insert_ok _ _ _ c p s t e _ _ w2 Hc Hp Hs F3).
    reflexivity.
Qed.

Lemma answers_3 (w : World) :
  answers 3 w = true ->
  answers 2 w = true /\ hd false (tl (tl (faults w))) = false.
Proof.
  unfold answers. destruct (faults w) as [|[] [|[] [|[] fs]]]; simpl;
    intros H; try discriminate H; auto.
Qed.

Lemma run_hasOverlappingAppointment (pv : value) (t e : string) (w : World) :
  run (hasOverlappingAppointment pv t e) w =
  match exec (OverlapQuery pv t e) w with
  | (Some rows, w1) => (Some (0 <? List.length rows)%nat, w1)
  | (None, w1) => (None, w1)
  end.
Proof.
  unfold hasOverlappingAppointment. rewrite run_bind, run_dbQuery.
  destruct (exec _ w) as [[rows|] w1]; reflexivity.
Qed.

(** C3.  For a create request that passed validation, whose keys bind,
    whose service resolves to a positive duration [d] and whose start [t]
    and end [t + d min] are valid instants that the store reads from
    their ISO text (the years 1 to 9999), on a store whose rows span
    positive time and which answers: [hasOverlappingAppointment] returns
    true exactly when some appointment [a] of the professional whose
    status is neither CANCELLED nor NO_SHOW has [a.start < end] and
    [start < a.end]; the reply is 409 "Horario indisponivel."
    (ConflictError) exactly in that case; otherwise the request succeeds
    with the row [[t, t + d min)] appended (whatever the store keeps of
    the notes); and an appointment that ends exactly at the request's
    start, or starts exactly at its end, does not block it. *)
Theorem overlap_check_is_half_open (body : CreateBody) (w : World)
    (c p s t : Z) (sv : Pg.Service) :
  forallb truthy (required_fields body) = true ->
  pg_key (clientId body) = Some c ->
  pg_key (professionalId body) = Some p ->
  pg_key (serviceId body) = Some s ->
  answers 3 w = true ->
  find (fun x => Pg.s_id x =? s) (Pg.services (db w)) = Some sv ->
  new_Date (startTime body) = Some t ->
  let details := resolution_rule sv (override_of (db w) p s) in
  let e := t + durationMin details * 60000 in
  0 < durationMin details ->
  Z.abs e <= maxTime ->
  Pg.timestamptz_in (ISO_text t) = Some t ->
  Pg.timestamptz_in (ISO_text e) = Some e ->
  well_timed (Pg.appointments (db w)) ->
  let blocked := Exists (blocks p t e) (Pg.appointments (db w)) in
  let outcome := run (createAppointment body) w in
  (fst (run (hasOverlappingAppointment (professionalId body)
              (ISO_text t) (ISO_text e)) w)
   = Some true <-> blocked)
  /\ (fst outcome = Some ConflictError <-> blocked)
  /\ (~ blocked ->
      exists n,
        let row := Pg.mkAppointment (Pg.next_id (db w)) c p s t e Pg.PENDING
                                    (priceCents details) n
                                    (clock w) (clock w) in
        fst outcome = Some (Created row)
        /\ Pg.appointments (db (snd outcome))
           = Pg.appointments (db w) ++ [row])
  /\ (forall a, Pg.end_time a = t \/ Pg.start_time a = e -> ~ blocks p t e a).
Proof.
  intros V Hc Hp Hs A Hsv Ht details e Hd He Rt Re W blocked outcome.
  assert (T : forall a, Pg.end_time a = t \/ Pg.start_time a = e ->
                        ~ blocks p t e a).
  { intros a Ha [_ [_ [B1 B2]]]. lia. }
  subst outcome. apply answers_3 in A. destruct A as [A F3].
  rewrite (@run_create_resolved body w c p s t sv V Hc Hp Hs A Hsv Ht Hd He
             Rt Re).
  fold details. fold e. rewrite F3.
  assert (L : t < e) by (subst e; lia).
  apply answers_S in A. destruct A as [F1 _].
  rewrite run_hasOverlappingAppointment, (exec_ok _ _ F1). simpl statement.
  rewrite Hp, Rt, Re, (tstzrange_proper L).
  destruct (select_overlapping_half_open p W L) as [l [Hl [Hhit Hclear]]].
  rewrite Hl. fold blocked in Hhit, Hclear.
  destruct l as [|u us]; simpl.
  - assert (NB : ~ blocked) by (apply Hclear; reflexivity).
    split; [split; [discriminate|tauto]|].
    split; [split; [discriminate|tauto]|].
    split; [intros _; eexists; split; reflexivity|exact T].
  - assert (B : blocked).
    { apply Hhit. destruct (select_overlapping_rows _ _ _ Hl) as [X|X];
        [discriminate X|exact X]. }
    split; [tauto|]. split; [tauto|].
    split; [intros NB; contradiction|exact T].
Qed.

End OverlapCheck.

Section OverlapCheckExamples.
#[local] Existing Instance Sample.platform.

(** The boundary example of the spec: Caio is booked 10:00-10:30; a
    request for 10:30 (30 minutes) is created as 10:30-11:00. *)
Lemma overlap_check_is_half_open_witness :
  let w := Sample.world
             [Sample.booking_of 8 1 Sample.ten
                (Sample.ten + Sample.minutes 30) Pg.PENDING] 2 [] in
  let body := Sample.request_of 8 (Sample.ten + Sample.minutes 30) in
  exists n,
    fst (run (createAppointment body) w)
    = Some (Created (Pg.mkAppointment 2 1 8 3
                       (Sample.ten + Sample.minutes 30)
                       (Sample.ten + Sample.minutes 60)
                       Pg.PENDING 5000 n 1000 1000)).
Proof.
  intros w body.
  destruct (@overlap_check_is_half_open Sample.platform body w
              1 8 3 (Sample.ten + Sample.minutes 30)
              (Pg.mkService 3 "Corte" 30 5000)
              eq_refl eq_refl eq_refl eq_refl eq_refl eq_refl eq_refl)
    as (_ & _ & Free & _).
  - reflexivity.
  - vm_compute. discriminate.
  - reflexivity.
  - reflexivity.
  - repeat constructor.
  - destruct Free as (n & H & _).
    + intros X. inversion X as [? ? B|? ? B]; subst.
      * destruct B as [_ [_ [B1 B2]]]. vm_compute in B2. discriminate B2.
      * inversion B.
    + exists n. exact H.
Defined.

(** The other boundary: a request that ends exactly when the existing
    appointment starts (09:30-10:00 against 10:00-10:30). *)
Example request_ending_at_start_is_created :
  let w := Sample.world
             [Sample.booking_of 8 1 Sample.ten
                (Sample.ten + Sample.minutes 30) Pg.PENDING] 2 [] in
  option_map statusCode
    (fst (run (createAppointment
                 (Sample.request_of 8 (Sample.ten - Sample.minutes 30))) w))
  = Some 201.
Proof. reflexivity. Qed.

(** One minute of overlap is a conflict. *)
Example request_overlapping_by_a_minute_is_refused :
  let w := Sample.world
             [Sample.booking_of 8 1 Sample.ten
                (Sample.ten + Sample.minutes 30) Pg.PENDING] 2 [] in
  fst (run (createAppointment
              (Sample.request_of 8 (Sample.ten + Sample.minutes 29))) w)
  = Some ConflictError.
Proof. reflexivity. Qed.

End OverlapCheckExamples.

(* ================================================================== *)
(** ** Cancellation *)
(* ================================================================== *)

Lemma filter_id_nil (k : Z) (rows : list Pg.Appointment) :
  filter (fun a => Pg.id a =? k) rows = [] <->
  (forall a, In a rows -> Pg.id a <> k).
Proof.
  induction rows as [|a rows IH]; simpl.
  - split; [intros _ a []|reflexivity].
  - destruct (Pg.id a =? k) eqn:E.
    + apply Z.eqb_eq in E. split; [discriminate|].
      intros H. exfalso. apply (H a); auto.
    + apply Z.eqb_neq in E. rewrite IH. split.
      * intros H x [<-|Hx]; auto.
      * intros H x Hx. apply H. auto.
Qed.

Lemma update_cancel_absent (now k : Z) (rows : list Pg.Appointment) :
  (forall a, In a rows -> Pg.id a <> k) ->
  map (fun a => if Pg.id a =? k then Pg.set_cancelled now a else a) rows = rows.
Proof.
  induction rows as [|a rows IH]; simpl; intros H; [reflexivity|].
  destruct (Pg.id a =? k) eqn:E.
  - apply Z.eqb_eq in E. exfalso. apply (H a); auto.
  - rewrite IH; auto.
Qed.

Lemma update_cancel_rows (now k : Z) (rows : list Pg.Appointment) :
  Forall2
    (fun a a' =>
       Pg.id a' = Pg.id a /\ Pg.client_id a' = Pg.client_id a
       /\ Pg.professional_id a' = Pg.professional_id a
       /\ Pg.service_id a' = Pg.service_id a
       /\ Pg.start_time a' = Pg.start_time a
       /\ Pg.end_time a' = Pg.end_time a
       /\ Pg.total_price_cents a' = Pg.total_price_cents a
       /\ Pg.notes a' = Pg.notes a
       /\ Pg.created_at a' = Pg.created_at a
       /\ (Pg.id a = k -> Pg.status a' = Pg.CANCELLED /\ Pg.updated_at a' = now)
       /\ (Pg.id a <> k -> a' = a))
    rows
    (map (fun a => if Pg.id a =? k then Pg.set_cancelled now a else a) rows).
Proof.
  induction rows as [|a rows IH]; simpl; constructor; [|exact IH].
  destruct (Pg.id a =? k) eqn:E.
  - apply Z.eqb_eq in E. simpl. repeat split; try reflexivity. contradiction.
  - apply Z.eqb_neq in E. repeat split; try reflexivity; contradiction.
Qed.

Section Cancel.
Context {P : Platform}.

Lemma run_cancelAppointment (id : string) (w : World) :
  run (cancelAppointment id) w =
  match exec (CancelQuery (JStr id)) w with
  | (None, w1) =>
      (Some (mkReply 500 (ErrorBody "Erro ao cancelar agendamento.")), w1)
  | (Some [], w1) => (Some NotFoundError, w1)
  | (Some (a :: rest), w1) =>
      (Some (mkReply 200 (CancelBody true (Some a))), w1)
  end.
Proof.
  unfold cancelAppointment. rewrite run_try_catch, run_bind, run_dbQuery.
  destruct (exec _ w) as [[[|a rest]|] w1]; reflexivity.
Qed.

(** C7.  For a route parameter the store reads as key [k], on a store
    that answers: the cancel route replies 404 (NotFoundError) exactly
    when no appointment has id [k], and then the store is unchanged;
    otherwise it replies 200 with an updated row.  In every case each row
    with id [k] gets status CANCELLED and [updated_at] set to the clock,
    whatever its status was, and keeps all its other fields; every other
    row and every other table is unchanged. *)
Theorem cancel_sets_cancelled (id : string) (k : Z) (w : World) :
  pg_key (JStr id) = Some k ->
  hd false (faults w) = false ->
  let outcome := run (cancelAppointment id) w in
  let rows := Pg.appointments (db w) in
  let rows' := Pg.appointments (db (snd outcome)) in
  let absent := forall a, In a rows -> Pg.id a <> k in
  (fst outcome = Some NotFoundError <-> absent)
  /\ (absent -> db (snd outcome) = db w)
  /\ (~ absent ->
      exists a a', In a rows /\ Pg.id a = k
                   /\ a' = Pg.set_cancelled (clock w) a
                   /\ fst outcome = Some (mkReply 200 (CancelBody true (Some a'))))
  /\ Forall2
       (fun a a' =>
          Pg.id a' = Pg.id a /\ Pg.client_id a' = Pg.client_id a
          /\ Pg.professional_id a' = Pg.professional_id a
          /\ Pg.service_id a' = Pg.service_id a
          /\ Pg.start_time a' = Pg.start_time a
          /\ Pg.end_time a' = Pg.end_time a
          /\ Pg.total_price_cents a' = Pg.total_price_cents a
          /\ Pg.notes a' = Pg.notes a
          /\ Pg.created_at a' = Pg.created_at a
          /\ (Pg.id a = k ->
              Pg.status a' = Pg.CANCELLED /\ Pg.updated_at a' = clock w)
          /\ (Pg.id a <> k -> a' = a))
       rows rows'
  /\ Pg.users (db (snd outcome)) = Pg.users (db w)
  /\ Pg.professionals (db (snd outcome)) = Pg.professionals (db w)
  /\ Pg.services (db (snd outcome)) = Pg.services (db w)
  /\ Pg.professional_services (db (snd outcome))
     = Pg.professional_services (db w)
  /\ Pg.next_id (db (snd outcome)) = Pg.next_id (db w).
Proof.
  intros Hk F outcome rows rows' absent. subst outcome rows'.
  rewrite run_cancelAppointment, (exec_ok _ _ F). simpl statement.
  rewrite Hk. unfold Pg.update_cancel. fold rows.
  pose proof (filter_id_nil k rows) as N. fold absent in N.
  destruct (filter (fun a => Pg.id a =? k) rows) as [|a rest] eqn:Fl; simpl.
  - assert (A : absent) by (apply N; reflexivity).
    split; [tauto|]. split.
    + intros _. rewrite (@update_cancel_absent (clock w) k rows A).
      subst rows. destruct (db w); reflexivity.
    + split; [tauto|]. split; [apply update_cancel_rows|]. tauto.
  - assert (A : ~ absent) by (intros A; apply N in A; discriminate A).
    split; [split; [discriminate|tauto]|]. split; [tauto|]. split.
    + intros _. exists a, (Pg.set_cancelled (clock w) a).
      assert (I : In a (filter (fun a => Pg.id a =? k) rows))
        by (rewrite Fl; left; reflexivity).
      apply filter_In in I. destruct I as [I1 I2]. apply Z.eqb_eq in I2.
      auto.
    + split; [apply update_cancel_rows|]. tauto.
Qed.

End Cancel.

Section CancelExamples.
#[local] Existing Instance Sample.platform.

(** Cancelling appointment 1, already COMPLETED, overwrites its status. *)
Lemma cancel_sets_cancelled_witness :
  let w := Sample.world
             [Sample.booking 1 Sample.ten (Sample.ten + Sample.minutes 45)
                Pg.COMPLETED] 2 [] in
  Pg.appointments (db (snd (run (cancelAppointment "1") w)))
  = [Pg.mkAppointment 1 1 7 3 Sample.ten (Sample.ten + Sample.minutes 45)
       Pg.CANCELLED 5000 JNull 1000 1000]
  /\ exists a', fst (run (cancelAppointment "1") w)
                = Some (mkReply 200 (CancelBody true (Some a'))).
Proof.
  intros w. split; [reflexivity|].
  destruct (@cancel_sets_cancelled Sample.platform "1" 1 w eq_refl eq_refl)
    as [_ [_ [H _]]].
  destruct H as [a [a' [_ [_ [_ H]]]]].
  - intros A. apply (A (Sample.booking 1 Sample.ten
                          (Sample.ten + Sample.minutes 45) Pg.COMPLETED)).
    + left. reflexivity.
    + reflexivity.
  - exists a'. exact H.
Defined.

(** There is no appointment 5. *)
Example cancel_unknown_id :
  run (cancelAppointment "5") (Sample.world [] 1 [])
  = (Some NotFoundError,
     mkWorld (Sample.catalog [] 1) 1000 [] [TCancel]).
Proof. reflexivity. Qed.

End CancelExamples.

(* ================================================================== *)
(** ** The listings *)
(* ================================================================== *)

Section OrderByFacts.
Variable A : Type.
Variable key : A -> Z.
Variable before : Z -> Z -> bool.
Variable R : Z -> Z -> Prop.
Hypothesis before_true : forall x y, before x y = true -> R x y.
Hypothesis before_false : forall x y, before x y = false -> R y x.
Hypothesis R_trans : forall x y z, R x y -> R y z -> R x z.

Lemma insert_by_perm (x : A) (l : list A) :
  Permutation (x :: l) (Pg.insert_by key before x l).
Proof.
  induction l as [|y l IH]; simpl; [reflexivity|].
  destruct (before (key x) (key y)); [reflexivity|].
  rewrite perm_swap. constructor. exact IH.
Qed.

Lemma order_by_perm (l : list A) : Permutation l (Pg.order_by key before l).
Proof.
  induction l as [|x l IH]; simpl; [constructor|].
  rewrite <- insert_by_perm. constructor. exact IH.
Qed.

Lemma insert_by_sorted (x : A) (l : list A) :
  StronglySorted (fun a b => R (key a) (key b)) l ->
  StronglySorted (fun a b => R (key a) (key b)) (Pg.insert_by key before x l).
Proof.
  induction l as [|y l IH]; simpl; intros S.
  - repeat constructor.
  - inversion S as [|? ? Sl Fy]; subst.
    destruct (before (key x) (key y)) eqn:B.
    + constructor; [exact S|]. constructor; [auto|].
      eapply Forall_impl; [|exact Fy]. simpl. intros z Hz.
      eapply R_trans; eauto.
    + constructor; [auto|].
      eapply Permutation_Forall; [apply insert_by_perm|].
      constructor; auto.
Qed.

Lemma order_by_sorted (l : list A) :
  StronglySorted (fun a b => R (key a) (key b)) (Pg.order_by key before l).
Proof.
  induction l as [|x l IH]; simpl; [constructor|].
  now apply insert_by_sorted.
Qed.

End OrderByFacts.

Lemma order_by_asc_sorted {A} (key : A -> Z) (l : list A) :
  StronglySorted (fun a b => key a <= key b) (Pg.order_by_asc key l).
Proof.
  apply order_by_sorted with (R := Z.le).
  - intros x y H. now apply Z.leb_le.
  - intros x y H. apply Z.leb_gt in H. lia.
  - intros x y z. lia.
Qed.

Lemma order_by_desc_sorted {A} (key : A -> Z) (l : list A) :
  StronglySorted (fun a b => key a >= key b) (Pg.order_by_desc key l).
Proof.
  apply order_by_sorted with (R := Z.ge).
  - intros x y H. rewrite Z.geb_leb in H. apply Z.leb_le in H. lia.
  - intros x y H. rewrite Z.geb_leb in H. apply Z.leb_gt in H. lia.
  - intros x y z. lia.
Qed.

(** The rows of the client listing before ordering: one per appointment of
    the client and matching service, professional and user. *)
Lemma in_client_rows (d : Pg.Store) (cid : Z) (r : Pg.ClientSummary) :
  In r (Pg.client_rows d cid) <->
  exists a s p u,
    In a (Pg.appointments d) /\ Pg.client_id a = cid
    /\ In s (Pg.services d) /\ Pg.s_id s = Pg.service_id a
    /\ In p (Pg.professionals d) /\ Pg.p_id p = Pg.professional_id a
    /\ In u (Pg.users d) /\ Pg.u_id u = Pg.p_user_id p
    /\ r = Pg.mkClientSummary (Pg.id a) (Pg.start_time a) (Pg.end_time a)
                              (Pg.status a) (Pg.total_price_cents a)
                              (Pg.s_name s) (Pg.u_full_name u).
Proof.
  unfold Pg.client_rows. rewrite in_flat_map. split.
  - intros [a [Ha H]].
    destruct (Pg.client_id a =? cid) eqn:E; [|destruct H].
    apply Z.eqb_eq in E.
    apply in_flat_map in H. destruct H as [s [Hs H]].
    apply filter_In in Hs. destruct Hs as [Hs Es]. apply Z.eqb_eq in Es.
    apply in_flat_map in H. destruct H as [p [Hp H]].
    apply filter_In in Hp. destruct Hp as [Hp Ep]. apply Z.eqb_eq in Ep.
    apply in_map_iff in H. destruct H as [u [Hr Hu]].
    apply filter_In in Hu. destruct Hu as [Hu Eu]. apply Z.eqb_eq in Eu.
    exists a, s, p, u. repeat split; auto.
  - intros [a [s [p [u [Ha [Ec [Hs [Es [Hp [Ep [Hu [Eu Hr]]]]]]]]]]]].
    exists a. split; [exact Ha|].
    apply Z.eqb_eq in Ec. rewrite Ec.
    apply in_flat_map. exists s. split;
      [apply filter_In; split; [exact Hs|now apply Z.eqb_eq]|].
    apply in_flat_map. exists p. split;
      [apply filter_In; split; [exact Hp|now apply Z.eqb_eq]|].
    apply in_map_iff. exists u. split; [auto|].
    apply filter_In; split; [exact Hu|now apply Z.eqb_eq].
Qed.

(** The rows of the day listing before ordering. *)
Lemma in_today_rows (date_of : Z -> Z) (d : Pg.Store) (now pid : Z)
    (r : Pg.TodaySummary) :
  In r (Pg.today_rows date_of d now pid) <->
  exists a s u,
    In a (Pg.appointments d) /\ Pg.professional_id a = pid
    /\ Pg.status a <> Pg.CANCELLED /\ Pg.status a <> Pg.NO_SHOW
    /\ date_of (Pg.start_time a) = date_of now
    /\ In s (Pg.services d) /\ Pg.s_id s = Pg.service_id a
    /\ In u (Pg.users d) /\ Pg.u_id u = Pg.client_id a
    /\ r = Pg.mkTodaySummary (Pg.id a) (Pg.start_time a) (Pg.end_time a)
                             (Pg.status a) (Pg.total_price_cents a)
                             (Pg.s_name s) (Pg.u_full_name u).
Proof.
  unfold Pg.today_rows. rewrite in_flat_map. split.
  - intros [a [Ha H]].
    destruct ((Pg.professional_id a =? pid)
              && Pg.not_in_cancelled_no_show (Pg.status a)
              && (date_of (Pg.start_time a) =? date_of now)) eqn:E;
      [|destruct H].
    apply andb_true_iff in E. destruct E as [E E3].
    apply andb_true_iff in E. destruct E as [E1 E2].
    apply Z.eqb_eq in E1, E3. apply not_in_cancelled_no_show_iff in E2.
    apply in_flat_map in H. destruct H as [s [Hs H]].
    apply filter_In in Hs. destruct Hs as [Hs Es]. apply Z.eqb_eq in Es.
    apply in_map_iff in H. destruct H as [u [Hr Hu]].
    apply filter_In in Hu. destruct Hu as [Hu Eu]. apply Z.eqb_eq in Eu.
    exists a, s, u. repeat split; auto; tauto.
  - intros [a [s [u [Ha [Ep [N1 [N2 [Ed [Hs [Es [Hu [Eu Hr]]]]]]]]]]]].
    exists a. split; [exact Ha|].
    assert (L : Pg.not_in_cancelled_no_show (Pg.status a) = true)
      by (apply not_in_cancelled_no_show_iff; auto).
    apply Z.eqb_eq in Ep, Ed. rewrite Ep, L, Ed. simpl.
    apply in_flat_map. exists s. split;
      [apply filter_In; split; [exact Hs|now apply Z.eqb_eq]|].
    apply in_map_iff. exists u. split; [auto|].
    apply filter_In; split; [exact Hu|now apply Z.eqb_eq].
Qed.

Section Listings.
Context {P : Platform}.

(** C9.  For a route parameter whose number the store reads as key [k],
    on a store that answers.  The client listing replies 200 with the
    summaries of the appointments of client [k] (one per appointment
    joined with its service, professional and the professional's user),
    ordered by start time, latest first.  The professional's listing, when
    the number is truthy, replies 200 with the summaries of the
    appointments of professional [k] that are neither CANCELLED nor
    NO_SHOW and start on the store's current date, ordered by start time,
    earliest first.  Neither changes the store. *)
Theorem listings_are_ordered (id : string) (k : Z) (w : World) :
  pg_key (Number id) = Some k ->
  hd false (faults w) = false ->
  (exists rows,
      fst (run (listClientAppointments id) w)
      = Some (mkReply 200 (ClientAppointmentsBody rows))
      /\ db (snd (run (listClientAppointments id) w)) = db w
      /\ StronglySorted
           (fun x y => Pg.cs_start_time x >= Pg.cs_start_time y) rows
      /\ Permutation (Pg.client_rows (db w) k) rows
      /\ forall r,
          In r rows <->
          exists a s p u,
            In a (Pg.appointments (db w)) /\ Pg.client_id a = k
            /\ In s (Pg.services (db w)) /\ Pg.s_id s = Pg.service_id a
            /\ In p (Pg.professionals (db w))
            /\ Pg.p_id p = Pg.professional_id a
            /\ In u (Pg.users (db w)) /\ Pg.u_id u = Pg.p_user_id p
            /\ r = Pg.mkClientSummary (Pg.id a) (Pg.start_time a)
                     (Pg.end_time a) (Pg.status a) (Pg.total_price_cents a)
                     (Pg.s_name s) (Pg.u_full_name u))
  /\ (truthy (Number id) = true ->
      exists rows,
        fst (run (listTodayAppointments id) w)
        = Some (mkReply 200 (TodayAppointmentsBody rows))
        /\ db (snd (run (listTodayAppointments id) w)) = db w
        /\ StronglySorted
             (fun x y => Pg.ts_start_time x <= Pg.ts_start_time y) rows
        /\ Permutation (Pg.today_rows pg_date (db w) (clock w) k) rows
        /\ forall r,
            In r rows <->
            exists a s u,
              In a (Pg.appointments (db w)) /\ Pg.professional_id a = k
              /\ Pg.status a <> Pg.CANCELLED /\ Pg.status a <> Pg.NO_SHOW
              /\ pg_date (Pg.start_time a) = pg_date (clock w)
              /\ In s (Pg.services (db w)) /\ Pg.s_id s = Pg.service_id a
              /\ In u (Pg.users (db w)) /\ Pg.u_id u = Pg.client_id a
              /\ r = Pg.mkTodaySummary (Pg.id a) (Pg.start_time a)
                       (Pg.end_time a) (Pg.status a) (Pg.total_price_cents a)
                       (Pg.s_name s) (Pg.u_full_name u)).
Proof.
  intros Hk F. split.
  - exists (Pg.select_client_appointments (db w) k).
    unfold listClientAppointments.
    rewrite run_try_catch, run_bind, run_dbQuery, (exec_ok _ _ F).
    simpl statement. rewrite Hk. simpl.
    split; [reflexivity|]. split; [reflexivity|].
    split; [apply order_by_desc_sorted|].
    assert (Pm : Permutation (Pg.client_rows (db w) k)
                             (Pg.select_client_appointments (db w) k))
      by apply order_by_perm.
    split; [exact Pm|]. intros r. rewrite <- in_client_rows. split.
    + apply Permutation_in. now apply Permutation_sym.
    + now apply Permutation_in.
  - intros T. exists (Pg.select_today_appointments pg_date (db w) (clock w) k).
    unfold listTodayAppointments. rewrite run_try_catch, T. simpl negb. cbv iota.
    rewrite run_bind, run_dbQuery, (exec_ok _ _ F).
    simpl statement. rewrite Hk. simpl.
    split; [reflexivity|]. split; [reflexivity|].
    split; [apply order_by_asc_sorted|].
    assert (Pm : Permutation (Pg.today_rows pg_date (db w) (clock w) k)
                   (Pg.select_today_appointments pg_date (db w) (clock w) k))
      by apply order_by_perm.
    split; [exact Pm|]. intros r. rewrite <- in_today_rows. split.
    + apply Permutation_in. now apply Permutation_sym.
    + now apply Permutation_in.
Qed.

End Listings.

Section ListingsExamples.
#[local] Existing Instance Sample.platform.

(** Three appointments of Ana with Bob on one day (one cancelled), stored
    out of order. *)
Lemma listings_are_ordered_witness :
  let w := Sample.world
             [Sample.booking 1 (Sample.ten + Sample.minutes 60)
                (Sample.ten + Sample.minutes 105) Pg.PENDING;
              Sample.booking 2 Sample.ten (Sample.ten + Sample.minutes 45)
                Pg.CANCELLED;
              Sample.booking 3 (Sample.ten - Sample.minutes 60)
                (Sample.ten - Sample.minutes 15) Pg.CONFIRMED] 4 [] in
  (exists rows,
      fst (run (listClientAppointments "1") w)
      = Some (mkReply 200 (ClientAppointmentsBody rows))
      /\ map Pg.cs_id rows = [1; 2; 3])
  /\ StronglySorted (fun x y => Pg.cs_start_time x >= Pg.cs_start_time y)
       (Pg.select_client_appointments (db w) 1).
Proof.
  intros w. split.
  - eexists. split; reflexivity.
  - destruct (@listings_are_ordered Sample.platform "1" 1 w eq_refl eq_refl)
      as [[rows [H1 [_ [H3 _]]]] _].
    vm_compute in H1. injection H1 as <-. exact H3.
Defined.

Example today_listing_skips_cancelled :
  let w := mkWorld
             (Sample.catalog
                [Sample.booking 1 (Sample.ten + Sample.minutes 60)
                   (Sample.ten + Sample.minutes 105) Pg.PENDING;
                 Sample.booking 2 Sample.ten (Sample.ten + Sample.minutes 45)
                   Pg.CANCELLED;
                 Sample.booking 3 (Sample.ten - Sample.minutes 60)
                   (Sample.ten - Sample.minutes 15) Pg.CONFIRMED] 4)
             (Sample.ten + Sample.minutes 5) [] [] in
  exists rows,
    fst (run (listTodayAppointments "7") w)
    = Some (mkReply 200 (TodayAppointmentsBody rows))
    /\ map Pg.ts_id rows = [3; 1].
Proof. eexists. split; reflexivity. Qed.

End ListingsExamples.

(* ================================================================== *)
(** ** The no-overlap invariant along a history *)
(* ================================================================== *)

Lemma ForallOrdPairs_snoc {A} (R : A -> A -> Prop) (l : list A) (x : A) :
  ForallOrdPairs R l -> Forall (fun a => R a x) l ->
  ForallOrdPairs R (l ++ [x]).
Proof.
  induction 1 as [|a l Ha Hl IH]; simpl; intros F.
  - repeat constructor.
  - inversion F; subst. constructor; [|auto].
    apply Forall_app. split; [exact Ha|]. constructor; auto.
Qed.

Lemma ForallOrdPairs_map {A} (R : A -> A -> Prop) (f : A -> A) (l : list A) :
  (forall a b, R a b -> R (f a) (f b)) ->
  ForallOrdPairs R l -> ForallOrdPairs R (map f l).
Proof.
  intros Hf. induction 1 as [|a l Ha Hl IH]; simpl; constructor; auto.
  apply Forall_map. eapply Forall_impl; [|exact Ha]. auto.
Qed.

Lemma ForallOrdPairs_nth {A} (R : A -> A -> Prop) (l : list A) :
  ForallOrdPairs R l ->
  forall i j x y, (i < j)%nat ->
    nth_error l i = Some x -> nth_error l j = Some y -> R x y.
Proof.
  induction 1 as [|a l Ha Hl IH]; intros i j x y Lt Hi Hj.
  - destruct i; discriminate Hi.
  - destruct j as [|j]; [lia|]. simpl in Hj. destruct i as [|i]; simpl in Hi.
    + inversion Hi; subst. rewrite Forall_forall in Ha. apply Ha.
      eapply nth_error_In; eauto.
    + apply (IH i j); auto. lia.
Qed.

(** The row a cleared scan lets in is compatible with every row scanned. *)
Lemma cleared_row_compatible (rows : list Pg.Appointment) (p t e : Z)
    (r : Pg.range) (row : Pg.Appointment) :
  Pg.tstzrange t e = Some r ->
  Pg.select_overlapping rows p r = Some [] ->
  Pg.professional_id row = p ->
  Pg.start_time row = t -> Pg.end_time row = e ->
  Forall (fun a => compatible a row) rows.
Proof.
  intros Hr Hs Hp Ht He. apply select_overlapping_clear in Hs.
  eapply Forall_impl; [|exact Hs]. simpl.
  intros a Ha Epid La _. destruct (Ha (eq_trans Epid Hp) La) as [ra [Ta Oa]].
  apply (@ranges_apart_not_intersecting a row ra r Ta); [|exact Oa].
  rewrite Ht, He. exact Hr.
Qed.

(** Cancelling rows keeps every pair compatible. *)
Lemma set_cancelled_compatible (now k : Z) (a b : Pg.Appointment) :
  compatible a b ->
  compatible (if Pg.id a =? k then Pg.set_cancelled now a else a)
             (if Pg.id b =? k then Pg.set_cancelled now b else b).
Proof.
  unfold compatible, intersecting, covers.
  destruct (Pg.id a =? k), (Pg.id b =? k); simpl; intros H E A B;
    try discriminate; auto.
Qed.

Section Invariant.
Context {P : Platform}.

Lemma exec_overlap_clear_inv (pv : value) (t e : Z) (w w' : World) :
  exec (OverlapQuery pv (ISO_text t) (ISO_text e)) w = (Some [], w') ->
  exists p r, pg_key pv = Some p /\ Pg.tstzrange t e = Some r
              /\ Pg.select_overlapping (Pg.appointments (db w)) p r = Some [].
Proof.
  unfold exec. destruct (hd false (faults w)); [discriminate|]. simpl.
  destruct (pg_key pv) as [p|]; [|discriminate].
  destruct (Pg.timestamptz_in (ISO_text t)) as [t'|] eqn:Rt; [|discriminate].
  destruct (Pg.timestamptz_in (ISO_text e)) as [e'|] eqn:Re; [|discriminate].
  apply timestamptz_in_exact in Rt, Re. subst t' e'.
  destruct (Pg.tstzrange t e) as [r|]; [|discriminate].
  destruct (Pg.select_overlapping _ p r) as [l|] eqn:S; [|discriminate].
  intros H. inversion H; subst. eauto.
Qed.

Lemma exec_insert_inv (cv pv sv : value) (t e price : Z) (n : value)
    (w w' : World) (rows : list Pg.Appointment) :
  exec (InsertQuery cv pv sv (Some t) (Some e) price n) w = (Some rows, w') ->
  exists c p s,
    pg_key pv = Some p
    /\ db w' = snd (Pg.insert_appointment (db w) (clock w) c p s t e price n).
Proof.
  unfold exec. destruct (hd false (faults w)); [discriminate|]. simpl.
  destruct (pg_key cv) as [c|]; [|discriminate].
  destruct (pg_key pv) as [p|]; [|discriminate].
  destruct (pg_key sv) as [s|]; [|discriminate].
  intros H. inversion H; subst. exists c, p, s. auto.
Qed.

Lemma create_preserves_no_overlap (body : CreateBody) (w : World) :
  no_overlap (db w) ->
  no_overlap (db (snd (run (createAppointment body) w))).
Proof.
  intros I. rewrite run_createAppointment.
  destruct (forallb truthy (required_fields body)); [|exact I].
  destruct (exec (ServiceDetailsQuery _ _) w) as [[[|s rows]|] w1] eqn:E1;
    apply exec_details_inv in E1; destruct E1 as [D1 _]; simpl;
    try (rewrite D1; exact I).
  destruct (new_Date (startTime body)) as [t|]; [|simpl; rewrite D1; exact I].
  cbv zeta.
  destruct (TimeClip _) as [e|]; [|simpl; rewrite D1; exact I].
  destruct (exec (OverlapQuery _ _ _) w1) as [[[|u us]|] w2] eqn:E2;
    pose proof (exec_overlap_inv _ _ _ _ E2) as [D2 _]; simpl;
    try (rewrite D2, D1; exact I).
  apply exec_overlap_clear_inv in E2. destruct E2 as [p [r [Hp [Hr Hs]]]].
  destruct (exec (InsertQuery _ _ _ _ _ _ _) w2) as [[rows'|] w3] eqn:E3; simpl.
  - apply exec_insert_inv in E3. destruct E3 as [c [p' [s' [Hp' D3]]]].
    rewrite D3. unfold no_overlap. simpl.
    assert (p' = p) by congruence. subst p'.
    rewrite D2. apply ForallOrdPairs_snoc.
    + rewrite D1. exact I.
    + eapply cleared_row_compatible; eauto.
  - apply exec_none_db in E3. rewrite E3, D2, D1. exact I.
Qed.

Lemma cancel_preserves_no_overlap (id : string) (w : World) :
  no_overlap (db w) ->
  no_overlap (db (snd (run (cancelAppointment id) w))).
Proof.
  intros I. rewrite run_cancelAppointment.
  assert (K : no_overlap (db (snd (exec (CancelQuery (JStr id)) w)))).
  { unfold exec. destruct (hd false (faults w)); [exact I|]. simpl.
    destruct (pg_key (JStr id)) as [k|]; [|exact I].
    unfold no_overlap. simpl. apply ForallOrdPairs_map; [|exact I].
    intros a b. apply set_cancelled_compatible. }
  destruct (exec (CancelQuery (JStr id)) w) as [[[|a rest]|] w1]; exact K.
Qed.

Lemma listings_keep_store (id : string) (w : World) :
  db (snd (run (listClientAppointments id) w)) = db w
  /\ db (snd (run (listTodayAppointments id) w)) = db w.
Proof.
  split.
  - unfold listClientAppointments.
    rewrite run_try_catch, run_bind, run_dbQuery. unfold exec.
    destruct (hd false (faults w)); [reflexivity|]. simpl.
    destruct (pg_key (Number id)); reflexivity.
  - unfold listTodayAppointments. rewrite run_try_catch.
    destruct (truthy (Number id)); [|reflexivity]. simpl negb. cbv iota.
    rewrite run_bind, run_dbQuery. unfold exec.
    destruct (hd false (faults w)); [reflexivity|]. simpl.
    destruct (pg_key (Number id)); reflexivity.
Qed.

Lemma handle_preserves_no_overlap (e : Event) (w : World) :
  no_overlap (db w) -> no_overlap (db (handle e w)).
Proof.
  intros I. destruct e as [body|id|id|id|dt]; unfold handle.
  - now apply create_preserves_no_overlap.
  - now apply cancel_preserves_no_overlap.
  - rewrite (proj1 (listings_keep_store id w)). exact I.
  - rewrite (proj2 (listings_keep_store id w)). exact I.
  - exact I.
Qed.

Lemma handle_all_preserves_no_overlap (es : list Event) (w : World) :
  no_overlap (db w) -> no_overlap (db (handle_all es w)).
Proof.
  revert w. induction es as [|e es IH]; simpl; intros w I; [exact I|].
  apply IH. now apply handle_preserves_no_overlap.
Qed.

(** C2, as amended.  Starting from a store in which no two live
    appointments of one professional intersect (the empty table, for
    one), after any sequence of requests each handled to completion
    before the next arrives -- creates, cancels, listings, with time
    passing and the store failing statements at will -- any two distinct
    rows of one professional whose status is neither CANCELLED nor NO_SHOW
    have no instant in common. *)
Theorem no_overlap_after_any_history (es : list Event) (w : World) :
  no_overlap (db w) ->
  forall i j a b,
    i <> j ->
    nth_error (Pg.appointments (db (handle_all es w))) i = Some a ->
    nth_error (Pg.appointments (db (handle_all es w))) j = Some b ->
    Pg.professional_id a = Pg.professional_id b ->
    Pg.status a <> Pg.CANCELLED /\ Pg.status a <> Pg.NO_SHOW ->
    Pg.status b <> Pg.CANCELLED /\ Pg.status b <> Pg.NO_SHOW ->
    ~ exists t, Pg.start_time a <= t < Pg.end_time a
                /\ Pg.start_time b <= t < Pg.end_time b.
Proof.
  intros I i j a b N Hi Hj Ep La Lb.
  apply (handle_all_preserves_no_overlap es) in I.
  apply not_in_cancelled_no_show_iff in La, Lb.
  destruct (Nat.lt_trichotomy i j) as [L|[L|L]]; [|contradiction|].
  - exact (ForallOrdPairs_nth I L Hi Hj Ep La Lb).
  - intros [t [Ha Hb]].
    apply (ForallOrdPairs_nth I L Hj Hi (eq_sym Ep) Lb La).
    exists t. split; assumption.
Qed.

End Invariant.

Section InvariantExamples.
#[local] Existing Instance Sample.platform.

(** A history: a booking, a refused overlapping one, a cancellation, and
    the slot booked again. *)
Lemma no_overlap_after_any_history_witness :
  let w := Sample.world [] 1 [] in
  let es := [PostAppointment (Sample.request Sample.ten);
             PostAppointment (Sample.request (Sample.ten + Sample.minutes 15));
             Elapse 5000;
             PatchCancel "1";
             PostAppointment (Sample.request (Sample.ten + Sample.minutes 15))]
  in
  no_overlap (db w)
  /\ map Pg.status (Pg.appointments (db (handle_all es w)))
     = [Pg.CANCELLED; Pg.PENDING]
  /\ forall i j a b,
      i <> j ->
      nth_error (Pg.appointments (db (handle_all es w))) i = Some a ->
      nth_error (Pg.appointments (db (handle_all es w))) j = Some b ->
      Pg.professional_id a = Pg.professional_id b ->
      Pg.status a <> Pg.CANCELLED /\ Pg.status a <> Pg.NO_SHOW ->
      Pg.status b <> Pg.CANCELLED /\ Pg.status b <> Pg.NO_SHOW ->
      ~ exists t, Pg.start_time a <= t < Pg.end_time a
                  /\ Pg.start_time b <= t < Pg.end_time b.
Proof.
  intros w es.
  assert (I : no_overlap (db w)) by constructor.
  split; [exact I|]. split; [reflexivity|].
  exact (@no_overlap_after_any_history Sample.platform es w I).
Defined.

(** Two requests for the same professional and the same interval in
    flight together: each reads the catalog, each runs its overlap check
    on the still empty table, then each inserts.  The table ends with two
    live rows of professional 7 on the same interval. *)
Lemma interleaved_creates_break_no_overlap :
  let w := Sample.world [] 1 [] in
  let w' := snd (interleave [First; Second; First; Second]
                   (createAppointment (Sample.request Sample.ten))
                   (createAppointment (Sample.request Sample.ten)) w) in
  no_overlap (db w) /\ ~ no_overlap (db w').
Proof.
  intros w w'. split; [constructor|].
  assert (E : Pg.appointments (db w')
              = [Sample.booking 1 Sample.ten (Sample.ten + Sample.minutes 45)
                   Pg.PENDING;
                 Sample.booking 2 Sample.ten (Sample.ten + Sample.minutes 45)
                   Pg.PENDING]) by reflexivity.
  unfold no_overlap. rewrite E. intros H.
  inversion H as [|a l Ha _]; subst.
  inversion Ha as [|b l' Hab _]; subst.
  apply Hab; try reflexivity.
  exists Sample.ten. unfold covers. simpl. unfold Sample.ten, Sample.minutes.
  lia.
Qed.

(** The same schedule, seen from the callers: both requests are answered
    201 and the table holds both rows. *)
Lemma interleaved_creates_both_succeed :
  let w := Sample.world [] 1 [] in
  let outcome := interleave [First; Second; First; Second]
                   (createAppointment (Sample.request Sample.ten))
                   (createAppointment (Sample.request Sample.ten)) w in
  let row1 := Sample.booking 1 Sample.ten (Sample.ten + Sample.minutes 45)
                Pg.PENDING in
  let row2 := Sample.booking 2 Sample.ten (Sample.ten + Sample.minutes 45)
                Pg.PENDING in
  fst (fst outcome) = Some (Created row1)
  /\ snd (fst outcome) = Some (Created row2)
  /\ Pg.appointments (db (snd outcome)) = [row1; row2]
  /\ issued (snd outcome)
     = [TServiceDetails; TServiceDetails; TOverlap; TOverlap; TInsert; TInsert].
Proof. repeat split. Qed.

End InvariantExamples.

(* ================================================================== *)
(** ** Two overlapping requests, one after the other *)
(* ================================================================== *)

Lemma answers_5 (w : World) (d : Pg.Store) (c : Z) (tr : list Tag) :
  answers 5 w = true ->
  answers 3 w = true
  /\ answers 2 (mkWorld d c (tl (tl (tl (faults w)))) tr) = true.
Proof.
  unfold answers.
  destruct (faults w) as [|[] [|[] [|[] [|[] [|[] fs]]]]]; simpl;
    intros H; try discriminate H; auto.
Qed.

Section Sequential.
Context {P : Platform}.

(** Two valid create requests for the same professional whose intervals
    overlap, the slot of the first being free, handled one after the
    other on a store that answers: the first is created, the second is
    answered 409, and the table has gained exactly the row of the
    first. *)
Lemma first_then_second (body1 body2 : CreateBody) (w : World)
    (c1 c2 p s1 s2 t1 t2 : Z) (sv1 sv2 : Pg.Service) :
  forallb truthy (required_fields body1) = true ->
  forallb truthy (required_fields body2) = true ->
  pg_key (clientId body1) = Some c1 ->
  pg_key (clientId body2) = Some c2 ->
  pg_key (professionalId body1) = Some p ->
  pg_key (professionalId body2) = Some p ->
  pg_key (serviceId body1) = Some s1 ->
  pg_key (serviceId body2) = Some s2 ->
  answers 5 w = true ->
  find (fun x => Pg.s_id x =? s1) (Pg.services (db w)) = Some sv1 ->
  find (fun x => Pg.s_id x =? s2) (Pg.services (db w)) = Some sv2 ->
  new_Date (startTime body1) = Some t1 ->
  new_Date (startTime body2) = Some t2 ->
  let d1 := resolution_rule sv1 (override_of (db w) p s1) in
  let d2 := resolution_rule sv2 (override_of (db w) p s2) in
  let e1 := t1 + durationMin d1 * 60000 in
  let e2 := t2 + durationMin d2 * 60000 in
  0 < durationMin d1 -> 0 < durationMin d2 ->
  Z.abs e1 <= maxTime -> Z.abs e2 <= maxTime ->
  Pg.timestamptz_in (ISO_text t1) = Some t1 ->
  Pg.timestamptz_in (ISO_text e1) = Some e1 ->
  Pg.timestamptz_in (ISO_text t2) = Some t2 ->
  Pg.timestamptz_in (ISO_text e2) = Some e2 ->
  overlap_formula t1 e1 t2 e2 ->
  well_timed (Pg.appointments (db w)) ->
  ~ Exists (blocks p t1 e1) (Pg.appointments (db w)) ->
  let row := Pg.mkAppointment (Pg.next_id (db w)) c1 p s1 t1 e1 Pg.PENDING
                              (priceCents d1) (nullish_null (notes body1))
                              (clock w) (clock w) in
  let outcome := interleave [] (createAppointment body1)
                            (createAppointment body2) w in
  fst (fst outcome) = Some (Created row)
  /\ snd (fst outcome) = Some ConflictError
  /\ Pg.appointments (db (snd outcome)) = Pg.appointments (db w) ++ [row].
Proof.
  intros V1 V2 Hc1 Hc2 Hp1 Hp2 Hs1 Hs2 A Hsv1 Hsv2 Ht1 Ht2 d1 d2 e1 e2
         Hd1 Hd2 He1 He2 Rt1 Re1 Rt2 Re2 Ov W Free row outcome.
  subst outcome. unfold interleave.
  assert (L1 : t1 < e1) by (subst e1; lia).
  assert (L2 : t2 < e2) by (subst e2; lia).
  (* the first request *)
  set (db1 := Pg.mkStore (Pg.users (db w)) (Pg.professionals (db w))
                         (Pg.services (db w))
                         (Pg.professional_services (db w))
                         (Pg.appointments (db w) ++ [row])
                         (Pg.next_id (db w) + 1)).
  set (w1 := mkWorld db1 (clock w) (tl (tl (tl (faults w))))
                     (((issued w ++ [TServiceDetails]) ++ [TOverlap])
                        ++ [TInsert])).
  destruct (@answers_5 w db1 (clock w) (issued w1) A) as [A3 A2].
  fold w1 in A2.
  apply answers_3 in A3. destruct A3 as [A3 F3].
  rewrite (@run_create_resolved _ body1 w c1 p s1 t1 sv1 V1 Hc1 Hp1 Hs1 A3 Hsv1
             Ht1 Hd1 He1 Rt1 Re1).
  fold d1. fold e1. fold row.
  destruct (select_overlapping_half_open p W L1) as [l1 [Hl1 [_ Hclear1]]].
  rewrite Hl1. assert (l1 = []) by (apply Hclear1; exact Free). subst l1.
  rewrite F3. fold db1. fold w1.
  (* the second request, on the table with the new row *)
  assert (W1 : well_timed (Pg.appointments (db w1))).
  { simpl. apply Forall_app. split; [exact W|]. constructor; [exact L1|].
    constructor. }
  assert (B : Exists (blocks p t2 e2) (Pg.appointments (db w1))).
  { simpl. apply Exists_app. right. left. unfold blocks. simpl.
    repeat split; auto; try discriminate; apply Ov. }
  rewrite (@run_create_resolved _ body2 w1 c2 p s2 t2 sv2 V2 Hc2 Hp2 Hs2 A2 Hsv2
             Ht2 Hd2 He2 Rt2 Re2).
  change (resolution_rule sv2 (override_of (db w1) p s2)) with d2. fold e2.
  destruct (select_overlapping_half_open p W1 L2) as [l2 [Hl2 [Hhit2 _]]].
  rewrite Hl2. assert (l2 = [tt]) by (apply Hhit2; exact B). subst l2.
  simpl. repeat split.
Qed.

End Sequential.

(* ================================================================== *)
(** ** Two overlapping requests in flight together *)
(* ================================================================== *)

Lemma select_service_details_catalog (d d' : Pg.Store) (pid sid : Z) :
  same_catalog d d' ->
  Pg.select_service_details d' pid sid = Pg.select_service_details d pid sid.
Proof.
  intros (_ & _ & S1 & S2). unfold Pg.select_service_details.
  rewrite S1, S2. reflexivity.
Qed.

Lemma answers_faults (n : nat) (w w' : World) :
  faults w' = faults w -> answers n w' = answers n w.
Proof. unfold answers. intros ->. reflexivity. Qed.

Section RaceFacts.
Context {P : Platform}.

Lemma within_create (body : CreateBody) : within 3 (createAppointment body).
Proof.
  unfold createAppointment.
  destruct (negb (truthy (clientId body)) || negb (truthy (professionalId body))
            || negb (truthy (serviceId body)) || negb (truthy (startTime body)));
    [exact I|].
  simpl. intros [[|s rows]|]; simpl; try exact I.
  destruct (new_Date (startTime body)) as [t|]; simpl; [|exact I].
  destruct (TimeClip _) as [e|]; simpl; [|exact I].
  intros [[|u us]|]; simpl; try exact I.
  intros [rows'|]; simpl; exact I.
Qed.

Lemma racing_create (d0 : Pg.Store) (body : CreateBody)
    (c p s t : Z) (sv : Pg.Service) :
  forallb truthy (required_fields body) = true ->
  pg_key (clientId body) = Some c ->
  pg_key (professionalId body) = Some p ->
  pg_key (serviceId body) = Some s ->
  find (fun x => Pg.s_id x =? s) (Pg.services d0) = Some sv ->
  new_Date (startTime body) = Some t ->
  let details := resolution_rule sv (override_of d0 p s) in
  let e := t + durationMin details * 60000 in
  0 < durationMin details ->
  Z.abs e <= maxTime ->
  Pg.timestamptz_in (ISO_text t) = Some t ->
  Pg.timestamptz_in (ISO_text e) = Some e ->
  racing d0 p t e (createAppointment body).
Proof.
  intros V Hc Hp Hs Hsv Ht details e Hd He Rt Re.
  assert (L : t < e) by (subst e; lia).
  unfold createAppointment. unfold required_fields in V. simpl in V.
  destruct (truthy (clientId body)); [|discriminate V].
  destruct (truthy (professionalId body)); [|discriminate V].
  destruct (truthy (serviceId body)); [|discriminate V].
  destruct (truthy (startTime body)); [|discriminate V].
  simpl. intros w [Cat W] F.
  split; [apply exec_details_db|].
  rewrite (@exec_details_ok _ _ _ p s w Hp Hs F). simpl fst.
  rewrite (select_service_details_catalog p s Cat).
  pose proof (@select_service_details_hd d0 p s sv Hsv) as H.
  destruct (Pg.select_service_details d0 p s) as [|r rows];
    [discriminate H|].
  simpl in H. injection H as Hr.
  assert (Hdur : nullish (Pg.custom_duration_min r) (Pg.duration_min r)
                 = durationMin details).
  { subst r details. unfold resolution_rule.
    destruct (override_of d0 p s) as [ps|]; simpl; [|reflexivity].
    destruct (Pg.ps_custom_duration_min ps); reflexivity. }
  clear Hr. simpl. rewrite Ht. simpl. rewrite Hdur. fold e.
  unfold TimeClip. destruct (Z.abs e <=? maxTime) eqn:C;
    [|apply Z.leb_gt in C; lia].
  simpl. split; [|intros _; discriminate]. left.
  intros w2 [Cat2 W2] F2.
  split; [apply exec_overlap_db|].
  rewrite (exec_ok _ _ F2). simpl statement.
  rewrite Hp, Rt, Re, (tstzrange_proper L).
  destruct (select_overlapping_half_open p W2 L) as [l [Hl [Hhit Hclear]]].
  rewrite Hl. simpl fst.
  destruct (select_overlapping_rows _ _ _ Hl) as [->| ->]; simpl.
  - split; [|intros _; discriminate]. right. left.
    intros w3 F3.
    rewrite (@exec_insert_ok _ _ _ _ c p s t e _ _ w3 Hc Hp Hs F3).
    eexists. simpl. repeat split. exact L.
  - split; [right; right; reflexivity|].
    intros Free. exfalso. apply Free. apply Hhit. reflexivity.
Qed.

Lemma race_state_swap (d0 : Pg.Store) (p t1 e1 t2 e2 : Z) (n1 n2 : nat)
    (p1 p2 : Prog Reply) (w : World) :
  race_state d0 p t1 e1 t2 e2 n1 n2 p1 p2 w ->
  race_state d0 p t2 e2 t1 e1 n2 n1 p2 p1 w.
Proof.
  intros (W1 & W2 & A & Env & D1 & D2 & Pr & new & Hn & Pm).
  unfold race_state. rewrite Nat.add_comm.
  split; [exact W2|]. split; [exact W1|]. split; [exact A|].
  split; [exact Env|]. split; [exact D2|]. split; [exact D1|]. split.
  - destruct Pr as [C|[C|[C|C]]]; auto.
  - exists new. split; [exact Hn|].
    eapply Permutation_trans; [exact Pm|apply Permutation_app_comm].
Qed.

Lemma racing_await_rows (d0 : Pg.Store) (p t e : Z) (prog : Prog Reply) :
  racing d0 p t e prog \/ inserting prog -> created_rows prog = [].
Proof.
  destruct prog as [r| |R q k]; simpl; [intros [[]|[]]|reflexivity|reflexivity].
Qed.

(** The first request takes its next statement. *)
Lemma race_step (d0 : Pg.Store) (p t1 e1 t2 e2 : Z) (n1 n2 : nat) (R : Type)
    (q : Query R) (k : option (list R) -> Prog Reply) (p2 : Prog Reply)
    (w : World) :
  race_state d0 p t1 e1 t2 e2 n1 n2 (Await q k) p2 w ->
  exists n1',
    n1 = S n1'
    /\ race_state d0 p t1 e1 t2 e2 n1' n2 (k (fst (exec q w))) p2
                  (snd (exec q w)).
Proof.
  intros (W1 & W2 & A & Env & D1 & D2 & Pr & new & Hn & Pm).
  destruct n1 as [|n1]; [contradiction W1|]. exists n1. split; [reflexivity|].
  simpl in W1. simpl plus in A. apply answers_S in A. destruct A as [F A].
  pose proof (exec_bookkeeping q w) as B. simpl in B.
  destruct B as (_ & Bf & _).
  assert (A' : answers (n1 + n2) (snd (exec q w)) = true).
  { rewrite <- (A (db w) (clock w) (issued w)). apply answers_faults.
    exact Bf. }
  assert (Ins : inserting (Await q k) ->
                race_state d0 p t1 e1 t2 e2 n1 n2 (k (fst (exec q w))) p2
                           (snd (exec q w))).
  { intros I. destruct (I w F) as (row & Hrows & Cat & Lrow & Hk).
    rewrite Hk. unfold race_state.
    split; [exact Logic.I|]. split; [exact W2|]. split; [exact A'|].
    split.
    { destruct Env as [C0 Wt]. split.
      - unfold same_catalog in *.
        destruct C0 as (X1 & X2 & X3 & X4), Cat as (Y1 & Y2 & Y3 & Y4).
        repeat split; congruence.
      - rewrite Hrows. apply Forall_app. split; [exact Wt|].
        constructor; [exact Lrow|constructor]. }
    split; [right; right; right; eauto|]. split; [exact D2|].
    split; [left; right; eauto|].
    exists (new ++ [row]). split; [rewrite Hrows, Hn, app_assoc; reflexivity|].
    simpl. simpl in Pm. apply Permutation_sym. apply Permutation_cons_app.
    rewrite app_nil_r. apply Permutation_sym. exact Pm. }
  assert (NotIns : ~ inserting (Await q k) -> racing d0 p t1 e1 (Await q k)).
  { intros N. destruct D1 as [X|[X|[X|[row X]]]]; auto; try contradiction;
      discriminate X. }
  assert (Rac : racing d0 p t1 e1 (Await q k) ->
                (committed p2
                 \/ ahead d0 p t1 e1 (Await q k) p2 (db w)
                 \/ ahead d0 p t2 e2 p2 (Await q k) (db w)) ->
                race_state d0 p t1 e1 t2 e2 n1 n2 (k (fst (exec q w))) p2
                           (snd (exec q w))).
  { intros Rc Pr'. pose proof Rc as Rc'. simpl in Rc'.
    destruct (Rc' w Env F) as (Db & Next & Free). clear Rc'.
    unfold race_state.
    split; [apply W1|]. split; [exact W2|]. split; [exact A'|].
    rewrite Db. split; [exact Env|].
    split; [unfold decided; tauto|]. split; [exact D2|].
    assert (Rows : created_rows (k (fst (exec q w))) = []).
    { destruct Next as [X|[X|X]];
        [apply (@racing_await_rows d0 p t1 e1); auto
        |apply (@racing_await_rows d0 p t1 e1); auto|rewrite X; reflexivity]. }
    split.
    - destruct Pr' as [C|[(_ & F1 & O2)|(R2 & F2 & _)]]; [auto| |].
      + destruct Next as [X|[X|X]].
        * right. right. left. repeat split; assumption.
        * left. left. exact X.
        * exfalso. exact (Free F1 X).
      + destruct Next as [X|[X|X]].
        * right. right. right. repeat split; eauto.
        * left. left. exact X.
        * right. right. right. repeat split; auto.
    - exists new. split; [exact Hn|]. rewrite Rows. exact Pm. }
  destruct Pr as [[I|[row X]]|[C|[Ah|Ah]]].
  - exact (Ins I).
  - discriminate X.
  - destruct D1 as [X|[X|[X|[row X]]]]; try discriminate X.
    + apply Rac; auto.
    + exact (Ins X).
  - apply Rac; [exact (proj1 Ah)|auto].
  - destruct D1 as [X|[X|[X|[row X]]]]; try discriminate X.
    + apply Rac; auto.
    + exact (Ins X).
Qed.

(** The second request takes its next statement. *)
Lemma race_step_second (d0 : Pg.Store) (p t1 e1 t2 e2 : Z) (n1 n2 : nat)
    (R : Type) (q : Query R) (k : option (list R) -> Prog Reply)
    (p1 : Prog Reply) (w : World) :
  race_state d0 p t1 e1 t2 e2 n1 n2 p1 (Await q k) w ->
  exists n2',
    n2 = S n2'
    /\ race_state d0 p t1 e1 t2 e2 n1 n2' p1 (k (fst (exec q w)))
                  (snd (exec q w)).
Proof.
  intros H. apply race_state_swap in H. apply race_step in H.
  destruct H as (n2' & E & H). exists n2'. split; [exact E|].
  now apply race_state_swap.
Qed.

Lemma decided_not_thrown (d0 : Pg.Store) (p t e : Z) :
  ~ decided d0 p t e (Throw : Prog Reply).
Proof. intros [X|[X|[X|[row X]]]]; try contradiction; discriminate X. Qed.

Lemma decided_reply (d0 : Pg.Store) (p t e : Z) (r : Reply) :
  decided d0 p t e (Ret r) ->
  r = ConflictError \/ exists row, r = Created row.
Proof.
  intros [X|[X|[X|[row X]]]]; try contradiction.
  - left. inversion X. reflexivity.
  - right. exists row. inversion X. reflexivity.
Qed.

(** Both requests have replied. *)
Lemma race_finished (d0 : Pg.Store) (p t1 e1 t2 e2 : Z) (n1 n2 : nat)
    (r1 r2 : Reply) (w : World) :
  race_state d0 p t1 e1 t2 e2 n1 n2 (Ret r1) (Ret r2) w ->
  one_or_both (Pg.appointments d0) (Some r1, Some r2, w).
Proof.
  intros (W1 & W2 & A & Env & D1 & D2 & Pr & new & Hn & Pm).
  exists new. split; [exact Hn|]. simpl fst. simpl snd.
  apply decided_reply in D1, D2.
  destruct D1 as [->|(row1 & ->)], D2 as [->|(row2 & ->)]; simpl in Pm.
  - exfalso.
    destruct Pr as [[X|[row X]]|[[X|[row X]]|[(X & _)|(X & _)]]];
      try contradiction; discriminate X.
  - right. left. exists row2. apply Permutation_sym in Pm.
    apply Permutation_length_1_inv in Pm. auto.
  - left. exists row1. apply Permutation_sym in Pm.
    apply Permutation_length_1_inv in Pm. auto.
  - right. right. exists row1, row2. apply Permutation_sym in Pm.
    apply Permutation_length_2_inv in Pm. auto.
Qed.

Lemma race_run_second (d0 : Pg.Store) (p t1 e1 t2 e2 : Z) (n1 : nat)
    (r1 : Reply) (p2 : Prog Reply) :
  forall (n2 : nat) (w : World),
  race_state d0 p t1 e1 t2 e2 n1 n2 (Ret r1) p2 w ->
  one_or_both (Pg.appointments d0)
              (let (r2, w2) := run p2 w in (Some r1, r2, w2)).
Proof.
  induction p2 as [r2| |R q k IH]; intros n2 w H.
  - simpl. eapply race_finished; eauto.
  - exfalso. destruct H as (_ & _ & _ & _ & _ & D2 & _).
    exact (decided_not_thrown D2).
  - apply race_step_second in H. destruct H as (n2' & _ & H).
    simpl. destruct (exec q w) as [r w']. simpl in H. eapply IH; eauto.
Qed.

Lemma race_run (d0 : Pg.Store) (p t1 e1 t2 e2 : Z) (p1 : Prog Reply) :
  forall (n1 n2 : nat) (p2 : Prog Reply) (w : World),
  race_state d0 p t1 e1 t2 e2 n1 n2 p1 p2 w ->
  one_or_both (Pg.appointments d0) (interleave [] p1 p2 w).
Proof.
  induction p1 as [r1| |R q k IH]; intros n1 n2 p2 w H.
  - simpl. eapply race_run_second; eauto.
  - exfalso. destruct H as (_ & _ & _ & _ & D1 & _).
    exact (decided_not_thrown D1).
  - apply race_step in H. destruct H as (n1' & _ & H).
    simpl. destruct (exec q w) as [r w']. simpl in H.
    apply (IH r) in H. simpl in H. exact H.
Qed.

(** Whatever the schedule, the race ends with one or both requests
    created. *)
Lemma race_outcome (d0 : Pg.Store) (p t1 e1 t2 e2 : Z) (sched : list Turn) :
  forall (n1 n2 : nat) (p1 p2 : Prog Reply) (w : World),
  race_state d0 p t1 e1 t2 e2 n1 n2 p1 p2 w ->
  one_or_both (Pg.appointments d0) (interleave sched p1 p2 w).
Proof.
  induction sched as [|turn sched IH]; intros n1 n2 p1 p2 w H.
  - eapply race_run; eauto.
  - destruct turn; simpl.
    + destruct p1 as [r1| |R q k]; simpl; try (eapply IH; eauto; fail).
      apply race_step in H. destruct H as (n1' & _ & H).
      destruct (exec q w) as [r w']. simpl in H. eapply IH; eauto.
    + destruct p2 as [r2| |R q k]; simpl; try (eapply IH; eauto; fail).
      apply race_step_second in H. destruct H as (n2' & _ & H).
      destruct (exec q w) as [r w']. simpl in H. eapply IH; eauto.
Qed.

End RaceFacts.

Section OverlappingCreates.
Context {P : Platform}.

(** C1, as amended.  Two valid create requests for the same professional
    whose intervals overlap, the slot of the first being free, with
    instants the store reads from their ISO text (the years 1 to 9999),
    on a store that answers.  Handled one after the other (the second
    starts when the first has replied): the first is created, the second
    is answered 409 (ConflictError) and the table has gained exactly the
    row of the first (whatever the store keeps of the notes).  In flight
    together, whatever the schedule of their statements: never zero --
    one request is answered 201 and the other 409 and the table has
    gained the row of the reply, or both are answered 201 and the table
    has gained both rows. *)
Theorem overlapping_creates (body1 body2 : CreateBody) (w : World)
    (c1 c2 p s1 s2 t1 t2 : Z) (sv1 sv2 : Pg.Service) :
  forallb truthy (required_fields body1) = true ->
  forallb truthy (required_fields body2) = true ->
  pg_key (clientId body1) = Some c1 ->
  pg_key (clientId body2) = Some c2 ->
  pg_key (professionalId body1) = Some p ->
  pg_key (professionalId body2) = Some p ->
  pg_key (serviceId body1) = Some s1 ->
  pg_key (serviceId body2) = Some s2 ->
  answers 5 w = true ->
  find (fun x => Pg.s_id x =? s1) (Pg.services (db w)) = Some sv1 ->
  find (fun x => Pg.s_id x =? s2) (Pg.services (db w)) = Some sv2 ->
  new_Date (startTime body1) = Some t1 ->
  new_Date (startTime body2) = Some t2 ->
  let d1 := resolution_rule sv1 (override_of (db w) p s1) in
  let d2 := resolution_rule sv2 (override_of (db w) p s2) in
  let e1 := t1 + durationMin d1 * 60000 in
  let e2 := t2 + durationMin d2 * 60000 in
  0 < durationMin d1 -> 0 < durationMin d2 ->
  Z.abs e1 <= maxTime -> Z.abs e2 <= maxTime ->
  Pg.timestamptz_in (ISO_text t1) = Some t1 ->
  Pg.timestamptz_in (ISO_text e1) = Some e1 ->
  Pg.timestamptz_in (ISO_text t2) = Some t2 ->
  Pg.timestamptz_in (ISO_text e2) = Some e2 ->
  overlap_formula t1 e1 t2 e2 ->
  well_timed (Pg.appointments (db w)) ->
  ~ Exists (blocks p t1 e1) (Pg.appointments (db w)) ->
  let outcome := interleave [] (createAppointment body1)
                            (createAppointment body2) w in
  (exists n,
     let row := Pg.mkAppointment (Pg.next_id (db w)) c1 p s1 t1 e1 Pg.PENDING
                                 (priceCents d1) n (clock w) (clock w) in
     fst (fst outcome) = Some (Created row)
     /\ snd (fst outcome) = Some ConflictError
     /\ Pg.appointments (db (snd outcome)) = Pg.appointments (db w) ++ [row])
  /\ (answers 6 w = true ->
      forall sched : list Turn,
        one_or_both (Pg.appointments (db w))
                    (interleave sched (createAppointment body1)
                                (createAppointment body2) w)).
Proof.
  intros V1 V2 Hc1 Hc2 Hp1 Hp2 Hs1 Hs2 A Hsv1 Hsv2 Ht1 Ht2 d1 d2 e1 e2
         Hd1 Hd2 He1 He2 Rt1 Re1 Rt2 Re2 Ov W Free1 outcome.
  split.
  - exists (nullish_null (notes body1)).
    exact (@first_then_second _ body1 body2 w c1 c2 p s1 s2 t1 t2 sv1 sv2
             V1 V2 Hc1 Hc2 Hp1 Hp2 Hs1 Hs2 A Hsv1 Hsv2 Ht1 Ht2 Hd1 Hd2
             He1 He2 Rt1 Re1 Rt2 Re2 Ov W Free1).
  - intros A6 sched.
    pose proof (@racing_create _ (db w) body1 c1 p s1 t1 sv1 V1 Hc1 Hp1 Hs1
                  Hsv1 Ht1 Hd1 He1 Rt1 Re1) as R1.
    pose proof (@racing_create _ (db w) body2 c2 p s2 t2 sv2 V2 Hc2 Hp2 Hs2
                  Hsv2 Ht2 Hd2 He2 Rt2 Re2) as R2.
    fold d1 in R1. fold e1 in R1. fold d2 in R2. fold e2 in R2.
    apply (@race_outcome _ (db w) p t1 e1 t2 e2 sched 3 3).
    unfold race_state.
    split; [apply within_create|]. split; [apply within_create|].
    split; [exact A6|].
    split; [split; [repeat split|exact W]|].
    split; [left; exact R1|]. split; [left; exact R2|].
    split; [right; right; left; repeat split; eauto|].
    exists []. rewrite app_nil_r. split; [reflexivity|].
    rewrite (@racing_await_rows _ (db w) p t1 e1 _ (or_introl R1)).
    rewrite (@racing_await_rows _ (db w) p t2 e2 _ (or_introl R2)).
    constructor.
Qed.

End OverlappingCreates.

Section SequentialExamples.
#[local] Existing Instance Sample.platform.

(** Two requests for Bob at 10:00: one after the other, and in flight
    together under any schedule. *)
Lemma overlapping_creates_witness :
  let w := Sample.world [] 1 [] in
  let create := createAppointment (Sample.request Sample.ten) in
  let outcome := interleave [] create create w in
  (exists n,
     let row := Pg.mkAppointment 1 1 7 3 Sample.ten
                  (Sample.ten + Sample.minutes 45) Pg.PENDING 5000 n
                  1000 1000 in
     fst (fst outcome) = Some (Created row)
     /\ snd (fst outcome) = Some ConflictError
     /\ Pg.appointments (db (snd outcome)) = [row])
  /\ forall sched : list Turn,
       one_or_both [] (interleave sched create create w).
Proof.
  intros w create outcome.
  destruct (@overlapping_creates Sample.platform
              (Sample.request Sample.ten) (Sample.request Sample.ten) w
              1 1 7 3 3 Sample.ten Sample.ten
              (Pg.mkService 3 "Corte" 30 5000) (Pg.mkService 3 "Corte" 30 5000)
              eq_refl eq_refl eq_refl eq_refl eq_refl eq_refl eq_refl eq_refl
              eq_refl eq_refl eq_refl eq_refl eq_refl)
    as [Seq Flight].
  - reflexivity.
  - reflexivity.
  - vm_compute. discriminate.
  - vm_compute. discriminate.
  - reflexivity.
  - reflexivity.
  - reflexivity.
  - reflexivity.
  - split; reflexivity.
  - constructor.
  - intros X. inversion X.
  - split; [exact Seq|].
    apply Flight. reflexivity.
Defined.

(** The second request overtakes the first: it is the one created. *)
Example overtaken_request_is_refused :
  let w := Sample.world [] 1 [] in
  let create := createAppointment (Sample.request Sample.ten) in
  let outcome := interleave [First; Second; Second; Second] create create w in
  fst (fst outcome) = Some ConflictError
  /\ snd (fst outcome)
     = Some (Created (Sample.booking 1 Sample.ten
                        (Sample.ten + Sample.minutes 45) Pg.PENDING)).
Proof. split; reflexivity. Qed.

End SequentialExamples.

(* ================================================================== *)
(** ** Failures reported by the store *)
(* ================================================================== *)

Section StoreFailures.
Context {P : Platform}.

Lemma exec_flags {R} (q : Query R) (w w' : World) (r : option (list R)) :
  exec q w = (r, w') ->
  faults w' = tl (faults w) /\ issued w' = issued w ++ [tag q]
  /\ (hd false (faults w) = true -> r = None).
Proof.
  intros E. pose proof (exec_bookkeeping q w) as B. rewrite E in B.
  simpl in B. destruct B as [_ [B1 B2]]. repeat split; auto.
  intros F. rewrite (exec_fault q w F) in E. congruence.
Qed.

(** C4, as amended.  The create route issues a prefix of its three
    statements (catalog read, overlap check, insert), each once, and
    consumes one answer of the store per statement.  When the store fails
    one of them, that statement is the last one issued -- it is not issued
    again and nothing follows it -- and the reply is 500 "Erro ao criar
    agendamento." (InternalError) at once. *)
Theorem create_fails_fast (body : CreateBody) (w : World) :
  let outcome := run (createAppointment body) w in
  exists n : nat,
    issued (snd outcome)
    = issued w ++ firstn n [TServiceDetails; TOverlap; TInsert]
    /\ faults (snd outcome) = skipn n (faults w)
    /\ forall i, (i < n)%nat -> nth i (faults w) false = true ->
                 S i = n /\ fst outcome = Some InternalError.
Proof.
  intros outcome. subst outcome. rewrite run_createAppointment.
  assert (Z0 : forall r : option Reply,
             exists n : nat,
               issued (snd (r, w))
               = issued w ++ firstn n [TServiceDetails; TOverlap; TInsert]
               /\ faults (snd (r, w)) = skipn n (faults w)
               /\ forall i, (i < n)%nat -> nth i (faults w) false = true ->
                            S i = n /\ fst (r, w) = Some InternalError).
  { intros r. exists 0%nat. simpl. rewrite app_nil_r.
    repeat split; auto; lia. }
  destruct (forallb truthy (required_fields body)); [|apply Z0]. clear Z0.
  destruct (exec (ServiceDetailsQuery _ _) w) as [r1 w1] eqn:E1.
  apply exec_flags in E1. destruct E1 as [Fs1 [Is1 N1]]. simpl tag in Is1.
  assert (H0 : hd false (faults w) = nth 0 (faults w) false)
    by (destruct (faults w); reflexivity).
  assert (S1 : tl (faults w) = skipn 1 (faults w))
    by (destruct (faults w); reflexivity).
  assert (One : forall r : Reply,
             (r1 = None -> r = InternalError) ->
             exists n : nat,
               issued (snd (Some r, w1))
               = issued w ++ firstn n [TServiceDetails; TOverlap; TInsert]
               /\ faults (snd (Some r, w1)) = skipn n (faults w)
               /\ forall i, (i < n)%nat -> nth i (faults w) false = true ->
                            S i = n /\ fst (Some r, w1) = Some InternalError).
  { intros r Hr. exists 1%nat. simpl snd. simpl fst.
    split; [exact Is1|]. split; [congruence|].
    intros i Hi Hf. assert (i = 0)%nat by lia. subst i.
    split; [reflexivity|]. rewrite <- H0 in Hf. rewrite Hr; auto. }
  destruct r1 as [[|s rows]|];
    [apply One; discriminate| |apply One; reflexivity].
  assert (Ok1 : nth 0 (faults w) false = false).
  { rewrite <- H0. destruct (hd false (faults w)); [|reflexivity].
    discriminate (N1 eq_refl). }
  destruct (new_Date (startTime body)) as [t|]; [|apply One; discriminate].
  cbv zeta.
  destruct (TimeClip _) as [e|]; [|apply One; discriminate]. clear One.
  destruct (exec (OverlapQuery _ _ _) w1) as [r2 w2] eqn:E2.
  apply exec_flags in E2. destruct E2 as [Fs2 [Is2 N2]]. simpl tag in Is2.
  assert (H1 : hd false (faults w1) = nth 1 (faults w) false)
    by (rewrite Fs1; destruct (faults w) as [|? [|? ?]]; reflexivity).
  assert (S2 : tl (faults w1) = skipn 2 (faults w))
    by (rewrite Fs1; destruct (faults w) as [|? [|? ?]]; reflexivity).
  assert (Two : forall r : Reply,
             (r2 = None -> r = InternalError) ->
             exists n : nat,
               issued (snd (Some r, w2))
               = issued w ++ firstn n [TServiceDetails; TOverlap; TInsert]
               /\ faults (snd (Some r, w2)) = skipn n (faults w)
               /\ forall i, (i < n)%nat -> nth i (faults w) false = true ->
                            S i = n /\ fst (Some r, w2) = Some InternalError).
  { intros r Hr. exists 2%nat. simpl snd. simpl fst.
    split; [rewrite Is2, Is1, <- app_assoc; reflexivity|].
    split; [congruence|].
    intros i Hi Hf. destruct i as [|[|i]]; [congruence| |lia].
    split; [reflexivity|]. rewrite <- H1 in Hf. rewrite Hr; auto. }
  destruct r2 as [[|u us]|];
    [|apply Two; discriminate|apply Two; reflexivity].
  assert (Ok2 : nth 1 (faults w) false = false).
  { rewrite <- H1. destruct (hd false (faults w1)); [|reflexivity].
    discriminate (N2 eq_refl). }
  clear Two.
  destruct (exec (InsertQuery _ _ _ _ _ _ _) w2) as [r3 w3] eqn:E3.
  apply exec_flags in E3. destruct E3 as [Fs3 [Is3 N3]]. simpl tag in Is3.
  assert (H2 : hd false (faults w2) = nth 2 (faults w) false)
    by (rewrite Fs2, Fs1; destruct (faults w) as [|? [|? [|? ?]]]; reflexivity).
  assert (S3 : tl (faults w2) = skipn 3 (faults w))
    by (rewrite Fs2, Fs1; destruct (faults w) as [|? [|? [|? ?]]]; reflexivity).
  exists 3%nat.
  assert (I3 : issued w3
               = issued w ++ firstn 3 [TServiceDetails; TOverlap; TInsert])
    by (rewrite Is3, Is2, Is1, <- !app_assoc; reflexivity).
  destruct r3 as [rows'|]; simpl snd; simpl fst.
  - split; [exact I3|]. split; [congruence|].
    intros i Hi Hf. destruct i as [|[|[|i]]]; [congruence|congruence| |lia].
    rewrite <- H2 in Hf. discriminate (N3 Hf).
  - split; [exact I3|]. split; [congruence|].
    intros i Hi Hf. destruct i as [|[|[|i]]]; [congruence|congruence| |lia].
    split; reflexivity.
Qed.

End StoreFailures.

Section StoreFailuresExamples.
#[local] Existing Instance Sample.platform.

(** The store fails the first statement once and would answer every later
    one: the request is answered 500 after that single statement, although
    the same request on an answering store is created. *)
Lemma transient_failure_is_not_retried :
  let body := Sample.request Sample.ten in
  run (createAppointment body) (Sample.world [] 1 [true])
  = (Some InternalError,
     mkWorld (Sample.catalog [] 1) 1000 [] [TServiceDetails])
  /\ fst (run (createAppointment body) (Sample.world [] 1 []))
     = Some (Created (Sample.booking 1 Sample.ten
                        (Sample.ten + Sample.minutes 45) Pg.PENDING)).
Proof. split; reflexivity. Qed.

(** The same for a failure of the overlap check and of the insert. *)
Example later_failures_are_not_retried :
  let body := Sample.request Sample.ten in
  run (createAppointment body) (Sample.world [] 1 [false; true])
  = (Some InternalError,
     mkWorld (Sample.catalog [] 1) 1000 [] [TServiceDetails; TOverlap])
  /\ run (createAppointment body) (Sample.world [] 1 [false; false; true])
     = (Some InternalError,
        mkWorld (Sample.catalog [] 1) 1000 []
                [TServiceDetails; TOverlap; TInsert]).
Proof. split; reflexivity. Qed.

Lemma create_fails_fast_witness :
  let w := Sample.world [] 1 [false; true; false] in
  let outcome := run (createAppointment (Sample.request Sample.ten)) w in
  nth 1 (faults w) false = true
  /\ fst outcome = Some InternalError.
Proof.
  intros w outcome. split; [reflexivity|].
  destruct (@create_fails_fast Sample.platform (Sample.request Sample.ten) w)
    as [n [Hi [_ Hn]]].
  assert (N : n = 2%nat).
  { vm_compute in Hi. destruct n as [|[|[|n]]]; simpl in Hi;
      try discriminate Hi. reflexivity. }
  subst n. exact (proj2 (Hn 1%nat (Nat.lt_succ_diag_r 1) eq_refl)).
Defined.

End StoreFailuresExamples.

(* ================================================================== *)
(** ** Further properties of the booking routes *)
(* ================================================================== *)

Lemma kept_refl (a : Pg.Appointment) : kept a a.
Proof. unfold kept. repeat split; auto. Qed.

Lemma kept_trans (a b c : Pg.Appointment) : kept a b -> kept b c -> kept a c.
Proof.
  unfold kept. intros H1 H2.
  destruct H1 as (A1 & A2 & A3 & A4 & A5 & A6 & A7 & A8 & A9 & A10).
  destruct H2 as (B1 & B2 & B3 & B4 & B5 & B6 & B7 & B8 & B9 & B10).
  repeat split; try congruence.
  destruct B10 as [B10|B10]; [|auto]. rewrite B10. exact A10.
Qed.

Lemma Forall2_kept_refl (l : list Pg.Appointment) : Forall2 kept l l.
Proof. induction l; constructor; auto using kept_refl. Qed.

Lemma Forall2_kept_trans (l1 l2 l3 : list Pg.Appointment) :
  Forall2 kept l1 l2 -> Forall2 kept l2 l3 -> Forall2 kept l1 l3.
Proof.
  intros H. revert l3. induction H as [|a b l1 l2 Hab H IH]; intros l3 H3.
  - inversion H3. constructor.
  - inversion H3 as [|? c ? l3' Hbc H3']; subst. constructor.
    + eapply kept_trans; eauto.
    + auto.
Qed.

Lemma grown_from_refl (l : list Pg.Appointment) : grown_from l l.
Proof.
  exists l, []. rewrite app_nil_r.
  split; [reflexivity|]. split; [apply Forall2_kept_refl|constructor].
Qed.

Lemma grown_from_trans (l1 l2 l3 : list Pg.Appointment) :
  grown_from l1 l2 -> grown_from l2 l3 -> grown_from l1 l3.
Proof.
  intros (o1 & n1 & E1 & K1 & N1) (o2 & n2 & E2 & K2 & N2). subst l2 l3.
  apply Forall2_app_inv_l in K2.
  destruct K2 as (o2a & o2b & Ka & Kb & ->).
  exists o2a, (o2b ++ n2). rewrite app_assoc.
  split; [reflexivity|]. split; [eapply Forall2_kept_trans; eauto|].
  apply Forall_app. split; [|exact N2].
  clear - N1 Kb. induction Kb as [|a b n1 o2b Hab Kb IH]; [constructor|].
  inversion N1 as [|? ? Na N1']; subst. constructor; [|auto].
  destruct Hab as (_ & _ & _ & _ & _ & _ & _ & _ & _ & [S|S]); [|auto].
  rewrite S. exact Na.
Qed.

Lemma cancelled_rows_kept (now k : Z) (rows : list Pg.Appointment) :
  Forall2 kept rows
    (map (fun a => if Pg.id a =? k then Pg.set_cancelled now a else a) rows).
Proof.
  induction rows as [|a rows IH]; simpl; constructor; [|exact IH].
  destruct (Pg.id a =? k); [|apply kept_refl].
  unfold kept. simpl. repeat split; auto.
Qed.

Section BookingEffects.
Context {P : Platform}.

(** What a successful INSERT statement returns and stores. *)
Lemma exec_insert_some (cv pv sv : value) (t e price : Z) (n : value)
    (w w' : World) (rows : list Pg.Appointment) :
  exec (InsertQuery cv pv sv (Some t) (Some e) price n) w = (Some rows, w') ->
  exists c p s,
    pg_key cv = Some c /\ pg_key pv = Some p /\ pg_key sv = Some s
    /\ rows = [Pg.mkAppointment (Pg.next_id (db w)) c p s t e Pg.PENDING price
                 n (clock w) (clock w)]
    /\ db w' = Pg.mkStore (Pg.users (db w)) (Pg.professionals (db w))
                 (Pg.services (db w)) (Pg.professional_services (db w))
                 (Pg.appointments (db w) ++ rows) (Pg.next_id (db w) + 1).
Proof.
  unfold exec. destruct (hd false (faults w)); [discriminate|]. simpl.
  destruct (pg_key cv) as [c|]; [|discriminate].
  destruct (pg_key pv) as [p|]; [|discriminate].
  destruct (pg_key sv) as [s|]; [|discriminate].
  intros H. inversion H; subst. exists c, p, s. repeat split.
Qed.

(** An overlap statement that returned rows was given a range the store
    could build. *)
Lemma exec_overlap_some_range (pv : value) (t e : Z) (w w' : World)
    (rows : list unit) :
  exec (OverlapQuery pv (ISO_text t) (ISO_text e)) w = (Some rows, w') ->
  t <= e.
Proof.
  unfold exec. destruct (hd false (faults w)); [discriminate|]. simpl.
  destruct (pg_key pv); [|discriminate].
  destruct (Pg.timestamptz_in (ISO_text t)) as [t'|] eqn:Rt; [|discriminate].
  destruct (Pg.timestamptz_in (ISO_text e)) as [e'|] eqn:Re; [|discriminate].
  apply timestamptz_in_exact in Rt, Re. subst t' e'.
  unfold Pg.tstzrange. destruct (e <? t) eqn:L; [discriminate|].
  intros _. now apply Z.ltb_ge in L.
Qed.

Lemma TimeClip_some (t e : Z) : TimeClip t = Some e -> e = t /\ Z.abs t <= maxTime.
Proof.
  unfold TimeClip. destruct (Z.abs t <=? maxTime) eqn:C; [|discriminate].
  intros H. inversion H; subst. apply Z.leb_le in C. split; [reflexivity|exact C].
Qed.

Lemma new_Date_some (v : value) (t : Z) :
  new_Date v = Some t -> Z.abs t <= maxTime.
Proof.
  unfold new_Date, maxTime.
  destruct v as [| |[|]| |n|s|s]; try discriminate;
    try (intros H; inversion H; subst; simpl; lia);
    try (intros H; apply TimeClip_some in H; unfold maxTime in H; lia);
    destruct (Date_parse s); try discriminate;
    intros H; apply TimeClip_some in H; unfold maxTime in H; lia.
Qed.

(** X1.  Whatever the request and whatever the store does, the create
    route replies, with 201, 400, 409 or 500.  With 201 exactly one row
    has been appended: it is the row of the reply, PENDING, with the next
    id of the sequence, stamped with the clock, its start and end valid
    instants with the start not after the end; the other tables are
    untouched.  With any other reply the store is exactly as it was. *)
Theorem create_appends_one_row_or_nothing (body : CreateBody) (w : World) :
  let outcome := run (createAppointment body) w in
  exists r,
    fst outcome = Some r
    /\ ((exists row,
            r = Created row
            /\ Pg.appointments (db (snd outcome))
               = Pg.appointments (db w) ++ [row]
            /\ Pg.next_id (db (snd outcome)) = Pg.next_id (db w) + 1
            /\ same_catalog (db w) (db (snd outcome))
            /\ Pg.id row = Pg.next_id (db w)
            /\ Pg.status row = Pg.PENDING
            /\ Pg.created_at row = clock w /\ Pg.updated_at row = clock w
            /\ Pg.start_time row <= Pg.end_time row
            /\ Z.abs (Pg.start_time row) <= maxTime
            /\ Z.abs (Pg.end_time row) <= maxTime)
        \/ (db (snd outcome) = db w
            /\ (statusCode r = 400 \/ statusCode r = 409
                \/ statusCode r = 500))).
Proof.
  intros outcome. subst outcome. rewrite run_createAppointment.
  destruct (forallb truthy (required_fields body));
    [|eexists; split; [reflexivity|right; simpl; auto]].
  destruct (exec (ServiceDetailsQuery _ _) w) as [[[|s rows]|] w1] eqn:E1;
    apply exec_details_inv in E1; destruct E1 as [D1 [C1 _]];
    try (eexists; split; [reflexivity|right; simpl; auto]).
  destruct (new_Date (startTime body)) as [t|] eqn:Nd;
    [|eexists; split; [reflexivity|right; simpl; auto]].
  cbv zeta.
  destruct (TimeClip _) as [e|] eqn:Tc;
    [|eexists; split; [reflexivity|right; simpl; auto]].
  destruct (exec (OverlapQuery _ _ _) w1) as [[[|u us]|] w2] eqn:E2;
    pose proof (exec_overlap_inv _ _ _ _ E2) as [D2 [C2 _]];
    try (eexists; split; [reflexivity|right; simpl; split; [congruence|auto]]).
  apply exec_overlap_some_range in E2.
  destruct (exec (InsertQuery _ _ _ _ _ _ _) w2) as [[rows'|] w3] eqn:E3.
  - apply exec_insert_some in E3.
    destruct E3 as (c & p & s' & _ & _ & _ & Hr & D3). subst rows'.
    eexists. split; [reflexivity|]. left. eexists. split; [reflexivity|].
    simpl snd. rewrite D3, D2, D1, C2, C1. simpl.
    apply new_Date_some in Nd. apply TimeClip_some in Tc.
    unfold same_catalog. simpl. repeat split; auto.
    rewrite (proj1 Tc). exact (proj2 Tc).
  - apply exec_none_db in E3.
    eexists. split; [reflexivity|]. right. simpl. split; [congruence|auto].
Qed.

Lemma create_grows (body : CreateBody) (w : World) :
  grown_from (Pg.appointments (db w))
             (Pg.appointments (db (snd (run (createAppointment body) w))))
  /\ same_catalog (db w) (db (snd (run (createAppointment body) w))).
Proof.
  assert (Same : forall w', db w' = db w ->
            grown_from (Pg.appointments (db w)) (Pg.appointments (db w'))
            /\ same_catalog (db w) (db w')).
  { intros w' ->. split; [apply grown_from_refl|]. repeat split. }
  rewrite run_createAppointment.
  destruct (forallb truthy (required_fields body)); [|now apply Same].
  destruct (exec (ServiceDetailsQuery _ _) w) as [[[|s rows]|] w1] eqn:E1;
    apply exec_details_inv in E1; destruct E1 as [D1 _];
    try (now apply Same).
  destruct (new_Date (startTime body)) as [t|]; [|now apply Same].
  cbv zeta. destruct (TimeClip _) as [e|]; [|now apply Same].
  destruct (exec (OverlapQuery _ _ _) w1) as [[[|u us]|] w2] eqn:E2;
    pose proof (exec_overlap_inv _ _ _ _ E2) as [D2 _];
    try (apply Same; simpl; congruence).
  destruct (exec (InsertQuery _ _ _ _ _ _ _) w2) as [[rows'|] w3] eqn:E3.
  - apply exec_insert_some in E3.
    destruct E3 as (c & p & s' & _ & _ & _ & Hr & D3). subst rows'.
    simpl snd. rewrite D3, D2, D1. simpl. split; [|repeat split].
    eexists _, _. split; [reflexivity|].
    split; [apply Forall2_kept_refl|]. repeat constructor.
  - apply exec_none_db in E3. apply Same. simpl. congruence.
Qed.

Lemma cancel_grows (id : string) (w : World) :
  grown_from (Pg.appointments (db w))
             (Pg.appointments (db (snd (run (cancelAppointment id) w))))
  /\ same_catalog (db w) (db (snd (run (cancelAppointment id) w))).
Proof.
  rewrite run_cancelAppointment.
  assert (K : grown_from (Pg.appointments (db w))
                (Pg.appointments (db (snd (exec (CancelQuery (JStr id)) w))))
              /\ same_catalog (db w)
                   (db (snd (exec (CancelQuery (JStr id)) w)))).
  { unfold exec. destruct (hd false (faults w));
      [split; [apply grown_from_refl|repeat split]|]. simpl.
    destruct (pg_key (JStr id)) as [k|];
      [|split; [apply grown_from_refl|repeat split]].
    simpl. split; [|repeat split].
    eexists _, []. rewrite app_nil_r. split; [reflexivity|].
    split; [apply cancelled_rows_kept|constructor]. }
  destruct (exec (CancelQuery (JStr id)) w) as [[[|a rest]|] w1]; exact K.
Qed.

Lemma handle_grows (e : Event) (w : World) :
  grown_from (Pg.appointments (db w)) (Pg.appointments (db (handle e w)))
  /\ same_catalog (db w) (db (handle e w)).
Proof.
  destruct e as [body|id|id|id|dt]; unfold handle.
  - apply create_grows.
  - apply cancel_grows.
  - rewrite (proj1 (listings_keep_store id w)).
    split; [apply grown_from_refl|repeat split].
  - rewrite (proj2 (listings_keep_store id w)).
    split; [apply grown_from_refl|repeat split].
  - split; [apply grown_from_refl|repeat split].
Qed.

(** X2.  No sequence of requests handled one after the other removes an
    appointment or reorders the table: afterwards the table is the old
    rows in their order, each with the same id, client, professional,
    service, start, end, price, notes and creation time and with its old
    status or CANCELLED, followed by the rows created meanwhile, each
    PENDING or CANCELLED; users, professionals, services and overrides
    are never written. *)
Theorem history_keeps_rows (es : list Event) (w : World) :
  grown_from (Pg.appointments (db w))
             (Pg.appointments (db (handle_all es w)))
  /\ same_catalog (db w) (db (handle_all es w)).
Proof.
  revert w. induction es as [|e es IH]; intros w.
  - split; [apply grown_from_refl|repeat split].
  - simpl. destruct (handle_grows e w) as [G1 C1].
    destruct (IH (handle e w)) as [G2 C2]. split.
    + eapply grown_from_trans; eauto.
    + unfold same_catalog in *.
      destruct C1 as (A1 & A2 & A3 & A4), C2 as (B1 & B2 & B3 & B4).
      repeat split; congruence.
Qed.

End BookingEffects.

Lemma select_overlapping_empty (rows : list Pg.Appointment) (pid : Z) :
  Forall (fun a => Pg.start_time a <= Pg.end_time a) rows ->
  Pg.select_overlapping rows pid Pg.Empty = Some [].
Proof.
  induction 1 as [|a rows Ha _ IH]; simpl; [reflexivity|].
  destruct ((Pg.professional_id a =? pid)
            && Pg.not_in_cancelled_no_show (Pg.status a)); [|exact IH].
  unfold Pg.tstzrange. destruct (Pg.end_time a <? Pg.start_time a) eqn:L;
    [apply Z.ltb_lt in L; lia|].
  destruct (Pg.start_time a =? Pg.end_time a); simpl; exact IH.
Qed.

Lemma answers_2 (w : World) :
  answers 2 w = true ->
  hd false (faults w) = false /\ hd false (tl (faults w)) = false.
Proof.
  unfold answers. destruct (faults w) as [|[] [|[] fs]]; simpl;
    intros H; try discriminate H; auto.
Qed.

Section BookingEdges.
Context {P : Platform}.

Lemma cancel_world (id : string) (k : Z) (w : World) :
  pg_key (JStr id) = Some k ->
  hd false (faults w) = false ->
  snd (run (cancelAppointment id) w)
  = mkWorld (snd (Pg.update_cancel (db w) (clock w) k)) (clock w)
            (tl (faults w)) (issued w ++ [TCancel]).
Proof.
  intros Hk F. rewrite run_cancelAppointment, (exec_ok _ _ F).
  simpl statement. rewrite Hk.
  destruct (Pg.update_cancel (db w) (clock w) k) as [[|a rest] d']; reflexivity.
Qed.

(** X3.  Cancelling releases the slot.  If every appointment that blocks
    a valid request (same professional, status neither CANCELLED nor
    NO_SHOW, overlapping interval) has the id being cancelled, then the
    same request sent right after the cancel route has run is created, on
    the interval it asked for.  (Rows span positive time, keys bind, the
    store reads the start and the end from their ISO text and answers the
    four statements.) *)
Theorem cancel_releases_the_slot (id : string) (k : Z) (body : CreateBody)
    (w : World) (c p s t : Z) (sv : Pg.Service) :
  pg_key (JStr id) = Some k ->
  forallb truthy (required_fields body) = true ->
  pg_key (clientId body) = Some c ->
  pg_key (professionalId body) = Some p ->
  pg_key (serviceId body) = Some s ->
  answers 4 w = true ->
  find (fun x => Pg.s_id x =? s) (Pg.services (db w)) = Some sv ->
  new_Date (startTime body) = Some t ->
  let details := resolution_rule sv (override_of (db w) p s) in
  let e := t + durationMin details * 60000 in
  0 < durationMin details ->
  Z.abs e <= maxTime ->
  Pg.timestamptz_in (ISO_text t) = Some t ->
  Pg.timestamptz_in (ISO_text e) = Some e ->
  well_timed (Pg.appointments (db w)) ->
  (forall a, In a (Pg.appointments (db w)) -> blocks p t e a -> Pg.id a = k) ->
  let w1 := snd (run (cancelAppointment id) w) in
  let outcome := run (createAppointment body) w1 in
  exists row,
    fst outcome = Some (Created row)
    /\ Pg.professional_id row = p
    /\ Pg.start_time row = t /\ Pg.end_time row = e
    /\ Pg.status row = Pg.PENDING
    /\ Pg.appointments (db (snd outcome)) = Pg.appointments (db w1) ++ [row].
Proof.
  intros Hk V Hc Hp Hs A Hsv Ht details e Hd He Rt Re W Only w1 outcome.
  apply answers_S in A. destruct A as [F0 A].
  assert (E1 : w1 = mkWorld (snd (Pg.update_cancel (db w) (clock w) k))
                            (clock w) (tl (faults w)) (issued w ++ [TCancel]))
    by (apply cancel_world; assumption).
  specialize (A (snd (Pg.update_cancel (db w) (clock w) k)) (clock w)
                (issued w ++ [TCancel])).
  rewrite <- E1 in A. apply answers_3 in A. destruct A as [A F3].
  assert (Hsv1 : find (fun x => Pg.s_id x =? s) (Pg.services (db w1)) = Some sv)
    by (rewrite E1; exact Hsv).
  assert (Hdet : resolution_rule sv (override_of (db w1) p s) = details)
    by (rewrite E1; reflexivity).
  assert (Hd1 : 0 < durationMin (resolution_rule sv (override_of (db w1) p s)))
    by (rewrite Hdet; exact Hd).
  assert (He1 : Z.abs (t + durationMin
                         (resolution_rule sv (override_of (db w1) p s)) * 60000)
                <= maxTime) by (rewrite Hdet; exact He).
  assert (Re1 : Pg.timestamptz_in
                  (ISO_text (t + durationMin
                               (resolution_rule sv (override_of (db w1) p s))
                             * 60000))
                = Some (t + durationMin
                              (resolution_rule sv (override_of (db w1) p s))
                            * 60000)) by (rewrite Hdet; exact Re).
  subst outcome.
  rewrite (@run_create_resolved _ body w1 c p s t sv V Hc Hp Hs A Hsv1 Ht
             Hd1 He1 Rt Re1).
  rewrite Hdet. fold e.
  assert (L : t < e) by (subst e; lia).
  assert (R1 : Pg.appointments (db w1)
               = map (fun a => if Pg.id a =? k
                               then Pg.set_cancelled (clock w) a else a)
                     (Pg.appointments (db w))) by (rewrite E1; reflexivity).
  assert (W1 : well_timed (Pg.appointments (db w1))).
  { rewrite R1. unfold well_timed. apply Forall_map.
    eapply Forall_impl; [|exact W]. intros a Ha. simpl.
    destruct (Pg.id a =? k); exact Ha. }
  assert (Free : ~ Exists (blocks p t e) (Pg.appointments (db w1))).
  { rewrite R1. intros X. apply Exists_exists in X.
    destruct X as [a' [Ia' Ba']]. apply in_map_iff in Ia'.
    destruct Ia' as [a [Ea Ia]]. destruct (Pg.id a =? k) eqn:Ek.
    - subst a'. destruct Ba' as [_ [[Live _] _]]. apply Live. reflexivity.
    - subst a'. apply Z.eqb_neq in Ek. apply Ek. now apply Only. }
  destruct (select_overlapping_half_open p W1 L) as [l [Hl [_ Hclear]]].
  rewrite Hl. assert (l = []) by (apply Hclear; exact Free). subst l.
  rewrite F3. eexists. simpl. repeat split.
Qed.

(** X4.  A start time that is not a valid date, or an end that falls
    outside the range of dates, is not reported as a bad request: for a
    request that passed validation and whose service exists, the route
    reads the catalog, then fails on [toISOString] and replies 500;
    neither the overlap check nor the insert is issued and nothing is
    written. *)
Theorem invalid_instant_is_an_internal_error (body : CreateBody) (w : World)
    (p s : Z) (sv : Pg.Service) :
  forallb truthy (required_fields body) = true ->
  pg_key (professionalId body) = Some p ->
  pg_key (serviceId body) = Some s ->
  hd false (faults w) = false ->
  find (fun x => Pg.s_id x =? s) (Pg.services (db w)) = Some sv ->
  let details := resolution_rule sv (override_of (db w) p s) in
  (new_Date (startTime body) = None
   \/ exists t, new_Date (startTime body) = Some t
                /\ maxTime < Z.abs (t + durationMin details * 60000)) ->
  run (createAppointment body) w
  = (Some InternalError,
     mkWorld (db w) (clock w) (tl (faults w)) (issued w ++ [TServiceDetails])).
Proof.
  intros V Hp Hs F Hsv details Bad.
  rewrite run_createAppointment, V.
  rewrite (@exec_details_ok _ _ _ p s w Hp Hs F).
  pose proof (@select_service_details_hd (db w) p s sv Hsv) as H.
  destruct (Pg.select_service_details (db w) p s) as [|r rows];
    [discriminate H|].
  simpl in H. injection H as Hr.
  assert (Hdur : nullish (Pg.custom_duration_min r) (Pg.duration_min r)
                 = durationMin details).
  { subst r details. unfold resolution_rule.
    destruct (override_of (db w) p s) as [ps|]; simpl; [|reflexivity].
    destruct (Pg.ps_custom_duration_min ps); reflexivity. }
  destruct Bad as [Nd|[t [Nd Far]]]; rewrite Nd; [reflexivity|].
  cbv zeta. rewrite Hdur. unfold TimeClip.
  destruct (Z.abs (t + durationMin details * 60000) <=? maxTime) eqn:C;
    [apply Z.leb_le in C; lia|reflexivity].
Qed.

(** X5.  Durations that are not positive.  For a request that passed
    validation, whose keys bind and whose instants are valid, on a store
    that answers and whose rows do not end before they start: when the
    service resolves to a duration of zero and the store reads the start
    from its ISO text, the request is created with end equal to start
    whatever the table holds (the empty range overlaps nothing, even
    inside a live appointment of the professional); when it resolves to a
    negative duration the overlap statement fails -- the store refuses
    to build the range, if it has read the two timestamps at all -- the
    reply is 500 and nothing is written. *)
Theorem non_positive_durations (body : CreateBody) (w : World)
    (c p s t : Z) (sv : Pg.Service) :
  forallb truthy (required_fields body) = true ->
  pg_key (clientId body) = Some c ->
  pg_key (professionalId body) = Some p ->
  pg_key (serviceId body) = Some s ->
  answers 3 w = true ->
  find (fun x => Pg.s_id x =? s) (Pg.services (db w)) = Some sv ->
  new_Date (startTime body) = Some t ->
  let details := resolution_rule sv (override_of (db w) p s) in
  let e := t + durationMin details * 60000 in
  Z.abs e <= maxTime ->
  Forall (fun a => Pg.start_time a <= Pg.end_time a) (Pg.appointments (db w)) ->
  let outcome := run (createAppointment body) w in
  (durationMin details = 0 ->
   Pg.timestamptz_in (ISO_text t) = Some t ->
   exists row,
     fst outcome = Some (Created row)
     /\ Pg.professional_id row = p
     /\ Pg.start_time row = t /\ Pg.end_time row = t
     /\ Pg.appointments (db (snd outcome)) = Pg.appointments (db w) ++ [row])
  /\ (durationMin details < 0 ->
      fst outcome = Some InternalError
      /\ db (snd outcome) = db w
      /\ issued (snd outcome) = issued w ++ [TServiceDetails; TOverlap]).
Proof.
  intros V Hc Hp Hs A Hsv Ht details e He W outcome.
  apply answers_3 in A. destruct A as [A F3].
  apply answers_2 in A. destruct A as [F1 F2].
  set (w1 := mkWorld (db w) (clock w) (tl (faults w))
                     (issued w ++ [TServiceDetails])).
  set (w2 := mkWorld (db w) (clock w) (tl (tl (faults w)))
                     ((issued w ++ [TServiceDetails]) ++ [TOverlap])).
  assert (F2' : hd false (faults w1) = false) by exact F2.
  assert (F3' : hd false (faults w2) = false) by exact F3.
  assert (Run :
             run (createAppointment body) w
             = match Pg.timestamptz_in (ISO_text t),
                     Pg.timestamptz_in (ISO_text e) with
               | Some _, Some _ =>
                   match Pg.tstzrange t e with
                   | None => (Some InternalError, w2)
                   | Some r =>
                       match Pg.select_overlapping (Pg.appointments (db w)) p r
                       with
                       | None => (Some InternalError, w2)
                       | Some (_ :: _) => (Some ConflictError, w2)
                       | Some [] =>
                           (Some (Created
                                    (Pg.mkAppointment (Pg.next_id (db w)) c p s
                                       t e Pg.PENDING (priceCents details)
                                       (nullish_null (notes body))
                                       (clock w) (clock w))),
                            mkWorld
                              (snd (Pg.insert_appointment (db w) (clock w) c p s
                                      t e (priceCents details)
                                      (nullish_null (notes body))))
                              (clock w) (tl (faults w2))
                              (issued w2 ++ [TInsert]))
                       end
                   end
               | _, _ => (Some InternalError, w2)
               end).
  { rewrite run_createAppointment, V.
    rewrite (@exec_details_ok _ _ _ p s w Hp Hs F1).
    pose proof (@select_service_details_hd (db w) p s sv Hsv) as H.
    destruct (Pg.select_service_details (db w) p s) as [|r rows];
      [discriminate H|].
    simpl in H. injection H as Hr.
    assert (Hdur : nullish (Pg.custom_duration_min r) (Pg.duration_min r)
                   = durationMin details).
    { subst r details. unfold resolution_rule.
      destruct (override_of (db w) p s) as [ps|]; simpl; [|reflexivity].
      destruct (Pg.ps_custom_duration_min ps); reflexivity. }
    assert (Hprice : nullish (Pg.custom_price_cents r) (Pg.price_cents r)
                     = priceCents details).
    { subst r details. unfold resolution_rule.
      destruct (override_of (db w) p s) as [ps|]; simpl; [|reflexivity].
      destruct (Pg.ps_custom_price_cents ps); reflexivity. }
    clear Hr. rewrite Ht. cbv zeta. rewrite Hdur, Hprice. fold e.
    unfold TimeClip. destruct (Z.abs e <=? maxTime) eqn:C;
      [|apply Z.leb_gt in C; lia].
    fold w1. rewrite (exec_ok _ _ F2'). simpl statement. rewrite Hp.
    destruct (Pg.timestamptz_in (ISO_text t)) as [t'|] eqn:Rt; [|reflexivity].
    destruct (Pg.timestamptz_in (ISO_text e)) as [e'|] eqn:Re; [|reflexivity].
    apply timestamptz_in_exact in Rt, Re. subst t' e'.
    destruct (Pg.tstzrange t e) as [r0|]; [|reflexivity]. simpl db.
    destruct (Pg.select_overlapping (Pg.appointments (db w)) p r0)
      as [[|u us]|]; try reflexivity.
    change (mkWorld (db w) (clock w1) (tl (faults w1))
                    (issued w1 ++ [TOverlap])) with w2.
    rewrite (@exec_insert_ok _ _ _ _ c p s t e _ _ w2 Hc Hp Hs F3').
    reflexivity. }
  subst outcome. rewrite Run. clear Run. split.
  - intros Z0 Rt. assert (Et : e = t) by (subst e; lia). rewrite Et, Rt.
    unfold Pg.tstzrange. rewrite Z.ltb_irrefl, Z.eqb_refl.
    rewrite (select_overlapping_empty p W).
    eexists. simpl. repeat split.
  - intros Neg. assert (Lt : e < t) by (subst e; lia).
    unfold Pg.tstzrange. apply Z.ltb_lt in Lt. rewrite Lt.
    destruct (Pg.timestamptz_in (ISO_text t)), (Pg.timestamptz_in (ISO_text e));
      simpl; rewrite <- app_assoc; repeat split.
Qed.

(** X18.  Dates the store cannot read.  [toISOString] writes a year
    after 9999 in the expanded form ([+010000-01-01T00:00:00.000Z]), which
    the store does not read as a timestamp: for a request that passed
    validation, whose keys bind and whose service exists, with valid
    instants of which the start or the end falls after the year 9999, the
    overlap statement fails; the reply is 500 (not 400), the INSERT is
    never issued and nothing is written. *)
Theorem unreadable_instant_is_an_internal_error (body : CreateBody)
    (w : World) (p s t : Z) (sv : Pg.Service) :
  forallb truthy (required_fields body) = true ->
  pg_key (professionalId body) = Some p ->
  pg_key (serviceId body) = Some s ->
  answers 2 w = true ->
  find (fun x => Pg.s_id x =? s) (Pg.services (db w)) = Some sv ->
  new_Date (startTime body) = Some t ->
  let details := resolution_rule sv (override_of (db w) p s) in
  let e := t + durationMin details * 60000 in
  Z.abs e <= maxTime ->
  9999 < YearFromTime t \/ 9999 < YearFromTime e ->
  run (createAppointment body) w
  = (Some InternalError,
     mkWorld (db w) (clock w) (tl (tl (faults w)))
             (issued w ++ [TServiceDetails; TOverlap])).
Proof.
  intros V Hp Hs A Hsv Ht details e He Far.
  apply answers_2 in A. destruct A as [F1 F2].
  rewrite run_createAppointment, V.
  rewrite (@exec_details_ok _ _ _ p s w Hp Hs F1).
  pose proof (@select_service_details_hd (db w) p s sv Hsv) as H.
  destruct (Pg.select_service_details (db w) p s) as [|r rows];
    [discriminate H|].
  simpl in H. injection H as Hr.
  assert (Hdur : nullish (Pg.custom_duration_min r) (Pg.duration_min r)
                 = durationMin details).
  { subst r details. unfold resolution_rule.
    destruct (override_of (db w) p s) as [ps|]; simpl; [|reflexivity].
    destruct (Pg.ps_custom_duration_min ps); reflexivity. }
  clear Hr. rewrite Ht. cbv zeta. rewrite Hdur. fold e.
  unfold TimeClip. destruct (Z.abs e <=? maxTime) eqn:C;
    [|apply Z.leb_gt in C; lia].
  set (w1 := mkWorld (db w) (clock w) (tl (faults w))
                     (issued w ++ [TServiceDetails])).
  assert (F2' : hd false (faults w1) = false) by exact F2.
  rewrite (exec_ok _ _ F2'). simpl statement. rewrite Hp.
  rewrite !timestamptz_in_ISO_text.
  assert (N : (1 <=? YearFromTime t) && (YearFromTime t <=? 9999) = false
              \/ (1 <=? YearFromTime e) && (YearFromTime e <=? 9999) = false).
  { destruct Far as [Y|Y]; [left|right]; apply andb_false_iff; right;
      apply Z.leb_gt; exact Y. }
  destruct N as [N|N]; rewrite N.
  - simpl. rewrite <- app_assoc. reflexivity.
  - destruct ((1 <=? YearFromTime t) && (YearFromTime t <=? 9999));
      simpl; rewrite <- app_assoc; reflexivity.
Qed.

End BookingEdges.

Section BookingEdgesExamples.
#[local] Existing Instance Sample.platform.

(** Bob is booked 10:00-10:45; the same request is refused before the
    cancellation of appointment 1 and created after it. *)
Lemma cancel_releases_the_slot_witness :
  let w := Sample.world
             [Sample.booking 1 Sample.ten (Sample.ten + Sample.minutes 45)
                Pg.PENDING] 2 [] in
  let body := Sample.request (Sample.ten + Sample.minutes 15) in
  fst (run (createAppointment body) w) = Some ConflictError
  /\ exists row,
      fst (run (createAppointment body) (snd (run (cancelAppointment "1") w)))
      = Some (Created row)
      /\ Pg.start_time row = Sample.ten + Sample.minutes 15.
Proof.
  intros w body. split; [reflexivity|].
  destruct (@cancel_releases_the_slot Sample.platform "1" 1 body w 1 7 3
              (Sample.ten + Sample.minutes 15)
              (Pg.mkService 3 "Corte" 30 5000)
              eq_refl eq_refl eq_refl eq_refl eq_refl eq_refl eq_refl eq_refl)
    as [row [H1 [_ [H2 _]]]].
  - reflexivity.
  - vm_compute. discriminate.
  - reflexivity.
  - reflexivity.
  - repeat constructor.
  - intros a [<-|[]] _. reflexivity.
  - exists row. split; [exact H1|exact H2].
Defined.

(** One millisecond past the last valid date. *)
Lemma invalid_instant_is_an_internal_error_witness :
  run (createAppointment (Sample.request (maxTime + 1))) (Sample.world [] 1 [])
  = (Some InternalError,
     mkWorld (Sample.catalog [] 1) 1000 [] [TServiceDetails]).
Proof.
  apply (@invalid_instant_is_an_internal_error Sample.platform
           (Sample.request (maxTime + 1)) (Sample.world [] 1 []) 7 3
           (Pg.mkService 3 "Corte" 30 5000)
           eq_refl eq_refl eq_refl eq_refl eq_refl).
  left. reflexivity.
Defined.

(** A request for the service of no length at 10:15, while the
    professional is booked 10:00-10:45, is created. *)
Lemma non_positive_durations_witness :
  let w := mkWorld
             (odd_catalog [Sample.booking 1 Sample.ten
                             (Sample.ten + Sample.minutes 45) Pg.PENDING] 2)
             1000 [] [] in
  exists row,
    fst (run (createAppointment
                (odd_request 4 (Sample.ten + Sample.minutes 15))) w)
    = Some (Created row)
    /\ Pg.start_time row = Sample.ten + Sample.minutes 15
    /\ Pg.end_time row = Sample.ten + Sample.minutes 15.
Proof.
  intros w.
  destruct (@non_positive_durations Sample.platform
              (odd_request 4 (Sample.ten + Sample.minutes 15)) w 1 7 4
              (Sample.ten + Sample.minutes 15) (Pg.mkService 4 "Brinde" 0 0)
              eq_refl eq_refl eq_refl eq_refl eq_refl eq_refl eq_refl)
    as [Zero _].
  - vm_compute. discriminate.
  - repeat constructor. vm_compute. discriminate.
  - destruct (Zero eq_refl eq_refl) as [row [H1 [_ [H2 [H3 _]]]]].
    exists row. auto.
Defined.

(** The first millisecond of the year 10000. *)
Lemma unreadable_instant_is_an_internal_error_witness :
  ISO_text 253402300800000 = "+010000-01-01T00:00:00.000Z"
  /\ run (createAppointment (Sample.request 253402300800000))
         (Sample.world [] 1 [])
     = (Some InternalError,
        mkWorld (Sample.catalog [] 1) 1000 [] [TServiceDetails; TOverlap]).
Proof.
  split; [reflexivity|].
  apply (@unreadable_instant_is_an_internal_error Sample.platform
           (Sample.request 253402300800000) (Sample.world [] 1 []) 7 3
           253402300800000 (Pg.mkService 3 "Corte" 30 5000)
           eq_refl eq_refl eq_refl eq_refl eq_refl eq_refl).
  - vm_compute. discriminate.
  - left. reflexivity.
Defined.

(** The last millisecond of the year 9999 is read, but the end of the
    appointment is not. *)
Example end_after_the_year_9999 :
  fst (run (createAppointment (Sample.request 253402300799999))
           (Sample.world [] 1 []))
  = Some InternalError.
Proof. reflexivity. Qed.

(** The service of negative length: the store raises on the range. *)
Example negative_duration_is_an_internal_error :
  run (createAppointment (odd_request 5 Sample.ten))
      (mkWorld (odd_catalog [] 1) 1000 [] [])
  = (Some InternalError,
     mkWorld (odd_catalog [] 1) 1000 [] [TServiceDetails; TOverlap]).
Proof. reflexivity. Qed.

End BookingEdgesExamples.

(* ================================================================== *)
(** ** Phone numbers *)
(* ================================================================== *)

Lemma strip_non_digits_chars (s : string) :
  list_ascii_of_string (Auth.strip_non_digits s)
  = filter Auth.is_digit (list_ascii_of_string s).
Proof.
  induction s as [|c s IH]; simpl; [reflexivity|].
  destruct (Auth.is_digit c); simpl; congruence.
Qed.

Lemma strip_non_digits_idem (s : string) :
  Auth.strip_non_digits (Auth.strip_non_digits s) = Auth.strip_non_digits s.
Proof.
  induction s as [|c s IH]; simpl; [reflexivity|].
  destruct (Auth.is_digit c) eqn:D; simpl; [rewrite D, IH|]; auto.
Qed.

Lemma strip_non_digits_empty (s : string) :
  Auth.strip_non_digits s = "" <->
  Forall (fun c => Auth.is_digit c = false) (list_ascii_of_string s).
Proof.
  induction s as [|c s IH]; simpl.
  - split; [constructor|reflexivity].
  - destruct (Auth.is_digit c) eqn:D.
    + split; [discriminate|]. intros H. inversion H; congruence.
    + rewrite IH. split; [constructor; auto|]. intros H. now inversion H.
Qed.

Lemma strip_non_digits_fixed (s : string) :
  Forall (fun c => Auth.is_digit c = true) (list_ascii_of_string s) ->
  Auth.strip_non_digits s = s.
Proof.
  induction s as [|c s IH]; simpl; intros H; [reflexivity|].
  inversion H as [|? ? Hc Hs]; subst. rewrite Hc, IH; auto.
Qed.

Lemma eqb_empty (s : string) : String.eqb s "" = true <-> s = "".
Proof. apply String.eqb_eq. Qed.

(** X6.  On a string [normalizePhone] returns either null, exactly when
    the string holds no digit, or a non-empty string made of the digits
    of the input in their order and of nothing else; it never returns
    the empty string. *)
Theorem normalizePhone_keeps_the_digits (s : string) :
  (Auth.normalizePhone (JStr s) = Some JNull
   /\ Forall (fun c => Auth.is_digit c = false) (list_ascii_of_string s))
  \/ (exists d,
        Auth.normalizePhone (JStr s) = Some (JStr d)
        /\ d <> ""
        /\ list_ascii_of_string d
           = filter Auth.is_digit (list_ascii_of_string s)
        /\ Forall (fun c => Auth.is_digit c = true) (list_ascii_of_string d)).
Proof.
  unfold Auth.normalizePhone.
  destruct (String.eqb (Auth.strip_non_digits s) "") eqn:E.
  - left. split; [reflexivity|].
    apply strip_non_digits_empty. now apply eqb_empty.
  - right. exists (Auth.strip_non_digits s). split; [reflexivity|].
    split; [intros H; apply eqb_empty in H; congruence|].
    split; [apply strip_non_digits_chars|].
    rewrite strip_non_digits_chars. apply Forall_forall.
    intros c Hc. apply filter_In in Hc. tauto.
Qed.

(** X7.  [normalizePhone] is idempotent: whatever it returns, it returns
    the same for; in particular a non-empty string of digits is left as
    it is. *)
Theorem normalizePhone_idempotent (v v' : value) :
  Auth.normalizePhone v = Some v' ->
  Auth.normalizePhone v' = Some v'
  /\ (forall d, v = JStr d -> d <> "" ->
                Forall (fun c => Auth.is_digit c = true)
                       (list_ascii_of_string d) ->
                v' = v).
Proof.
  intros H. split.
  - destruct v; simpl in H; try discriminate H;
      try (inversion H; subst; reflexivity).
    destruct (String.eqb (Auth.strip_non_digits s) "") eqn:E;
      inversion H; subst; [reflexivity|].
    simpl. rewrite strip_non_digits_idem, E. reflexivity.
  - intros d -> Hne Hd. simpl in H.
    rewrite (strip_non_digits_fixed _ Hd) in H.
    destruct (String.eqb d "") eqn:E; [apply eqb_empty in E; congruence|].
    congruence.
Qed.

Lemma normalizePhone_idempotent_witness :
  Auth.normalizePhone (JStr "+55 (11) 99999-0000") = Some (JStr "5511999990000")
  /\ Auth.normalizePhone (JStr "5511999990000") = Some (JStr "5511999990000").
Proof.
  split; [reflexivity|].
  exact (proj1 (@normalizePhone_idempotent (JStr "+55 (11) 99999-0000")
                  (JStr "5511999990000") eq_refl)).
Defined.

(* ================================================================== *)
(** ** The account routes *)
(* ================================================================== *)

Section AccountRoutes.
Import Auth.
Context {R : Runtime}.

Lemma dbQuery_served {A} (stmt : Store -> Z -> option (A * Store)) (w : World) :
  hd false (connects w) = false -> hd false (faults w) = false ->
  dbQuery stmt w =
  match stmt (store w) (clock w) with
  | Some (a, d') =>
      (Some a, mkWorld d' (clock w) (tl (connects w)) (tl (faults w))
                       (entropy w) (S (connected w)) (S (released w)))
  | None =>
      (None, mkWorld (store w) (clock w) (tl (connects w)) (tl (faults w))
                     (entropy w) (S (connected w)) (S (released w)))
  end.
Proof.
  intros C F. unfold dbQuery, bind, pool_connect, try_finally, client_query,
    client_release. rewrite C. simpl. rewrite F.
  destruct (stmt (store w) (clock w)) as [[a d']|]; reflexivity.
Qed.

(** What any [dbQuery] may do to the world. *)
Lemma dbQuery_effect {A} (stmt : Store -> Z -> option (A * Store)) (w : World) :
  let r := fst (dbQuery stmt w) in
  let w' := snd (dbQuery stmt w) in
  clock w' = clock w /\ entropy w' = entropy w
  /\ (connected w' + released w = released w' + connected w)%nat
  /\ (r = None -> store w' = store w)
  /\ (forall a, r = Some a -> stmt (store w) (clock w) = Some (a, store w')).
Proof.
  unfold dbQuery, bind, pool_connect, try_finally, client_query,
    client_release.
  destruct (hd false (connects w)); simpl;
    [repeat split; auto; try lia; intros; discriminate|].
  destruct (hd false (faults w)); simpl;
    [repeat split; auto; try lia; intros; discriminate|].
  destruct (stmt (store w) (clock w)) as [[a d']|]; simpl;
    repeat split; auto; try lia; intros; try discriminate; congruence.
Qed.

Lemma register_run (body : Body) (w : World) :
  register body w =
  if register_required body then
    match normalizePhone (phone body) with
    | None => (Some RegisterFailed, w)
    | Some np =>
        match dbQuery (existing_statement (email body) np) w with
        | (None, w1) => (Some RegisterFailed, w1)
        | (Some (_ :: _), w1) => (Some AlreadyRegistered, w1)
        | (Some [], w1) =>
            match hash (password body) w1 with
            | (None, w2) => (Some RegisterFailed, w2)
            | (Some h, w2) =>
                match dbQuery (insert_statement (fullName body) (email body)
                                 np h (role_or_default (role body))) w2 with
                | (None, w3) => (Some RegisterFailed, w3)
                | (Some rows, w3) =>
                    (Some (mkReply 201 (RegisteredBody (hd_error rows))), w3)
                end
            end
        end
    end
  else (Some MissingFields, w).
Proof.
  unfold register, register_required, try_catch.
  destruct (truthy (fullName body)); simpl; [|reflexivity].
  destruct (truthy (email body)); simpl; [|reflexivity].
  destruct (truthy (phone body)); simpl; [|reflexivity].
  destruct (truthy (password body)); simpl; [|reflexivity].
  unfold bind at 1.
  destruct (normalizePhone (phone body)) as [np|]; simpl; [|reflexivity].
  unfold bind at 1.
  destruct (dbQuery (existing_statement (email body) np) w)
    as [[[|x xs]|] w1]; simpl; try reflexivity.
  unfold bind at 1.
  destruct (hash (password body) w1) as [[h|] w2]; simpl; [|reflexivity].
  unfold bind at 1.
  destruct (dbQuery _ w2) as [[rows|] w3]; reflexivity.
Qed.

Lemma login_run (body : Body) (w : World) :
  login body w =
  if login_required body then
    match normalizePhone (phone body) with
    | None => (Some LoginFailed, w)
    | Some np =>
        match dbQuery (by_phone_statement np) w with
        | (None, w1) => (Some LoginFailed, w1)
        | (Some [], w1) => (Some InvalidCredentials, w1)
        | (Some (user :: _), w1) =>
            match compare (password body) (a_password_hash user) w1 with
            | (None, w2) => (Some LoginFailed, w2)
            | (Some false, w2) => (Some InvalidCredentials, w2)
            | (Some true, w2) =>
                let sent := mkAccount (a_id user) (a_full_name user)
                              (a_email user) (a_phone user) (a_role user)
                              None (a_professional user) in
                if String.eqb (a_role user) "BARBER" then
                  match dbQuery (professional_statement (a_id user)) w2 with
                  | (None, w3) => (Some LoginFailed, w3)
                  | (Some [], w3) => (Some (mkReply 200 (LoggedBody sent)), w3)
                  | (Some (prof :: _), w3) =>
                      (Some (mkReply 200
                               (LoggedBody
                                  (mkAccount (a_id user) (a_full_name user)
                                     (a_email user) (a_phone user)
                                     (a_role user) None (Some prof)))), w3)
                  end
                else (Some (mkReply 200 (LoggedBody sent)), w2)
            end
        end
    end
  else (Some MissingCredentials, w).
Proof.
  unfold login, login_required, try_catch.
  destruct (truthy (phone body)); simpl; [|reflexivity].
  destruct (truthy (password body)); simpl; [|reflexivity].
  unfold bind at 1.
  destruct (normalizePhone (phone body)) as [np|]; simpl; [|reflexivity].
  unfold bind at 1.
  destruct (dbQuery (by_phone_statement np) w)
    as [[[|user rest]|] w1]; simpl; try reflexivity.
  unfold bind at 1.
  destruct (compare (password body) (a_password_hash user) w1)
    as [[[|]|] w2]; simpl; try reflexivity.
  destruct (String.eqb (a_role user) "BARBER"); [|reflexivity].
  unfold bind at 1.
  destruct (dbQuery (professional_statement (a_id user)) w2)
    as [[[|prof rest']|] w3]; reflexivity.
Qed.

Lemma existing_statement_inv (ev np : value) (d d' : Store) (now : Z)
    (rows : list Z) :
  existing_statement ev np d now = Some (rows, d') ->
  d' = d /\ exists e ph, pg_text ev = Some e /\ bind_text np = Some ph
                         /\ rows = select_existing d e ph.
Proof.
  unfold existing_statement.
  destruct (pg_text ev) as [e|]; [|discriminate].
  destruct (bind_text np) as [ph|]; [|discriminate].
  intros H. inversion H; subst. split; [reflexivity|]. exists e, ph. auto.
Qed.

Lemma insert_statement_inv (nv ev np : value) (h : string) (rv : value)
    (d d' : Store) (now : Z) (rows : list RegisteredUser) :
  insert_statement nv ev np h rv d now = Some (rows, d') ->
  exists n e ph r,
    pg_text nv = Some n /\ pg_text ev = Some e /\ bind_text np = Some ph
    /\ pg_role rv = Some r
    /\ rows = [mkRegisteredUser (next_user_id d) n e ph r now]
    /\ d' = mkStore (users d ++ [mkUserRow (next_user_id d) n e ph h r now])
                    (professionals d) (next_user_id d + 1).
Proof.
  unfold insert_statement.
  destruct (pg_text nv) as [n|]; [|discriminate].
  destruct (pg_text ev) as [e|]; [|discriminate].
  destruct (bind_text np) as [ph|]; [|discriminate].
  destruct (pg_role rv) as [r|]; [|discriminate].
  intros H. inversion H; subst. exists n, e, ph, r. repeat split.
Qed.

Lemma hash_effect (pw : value) (w w' : World) (r : option string) :
  hash pw w = (r, w') ->
  store w' = store w /\ clock w' = clock w
  /\ connected w' = connected w /\ released w' = released w
  /\ (forall h, r = Some h -> exists salt, bcrypt_hash salt pw = Some h).
Proof.
  unfold hash. destruct (bcrypt_hash (hd 0 (entropy w)) pw) as [h|] eqn:E;
    intros H; inversion H; subst; simpl; repeat split; auto.
  - intros h' Hh. inversion Hh; subst. eauto.
  - discriminate.
Qed.

Lemma compare_effect (pw : value) (h : option string) (w w' : World)
    (r : option bool) :
  compare pw h w = (r, w') ->
  w' = w /\ (forall b, r = Some b ->
                       exists h', h = Some h' /\ bcrypt_compare pw h' = Some b).
Proof.
  unfold compare, lift, ret, throw. destruct h as [h'|].
  - destruct (bcrypt_compare pw h') as [b|] eqn:E; intros H; inversion H;
      subst; split; auto.
    + intros b' Hb. inversion Hb; subst. eauto.
    + discriminate.
  - intros H. inversion H; subst. split; [reflexivity|discriminate].
Qed.

Lemma select_existing_nil (d : Store) (e : string) (ph : option string) :
  select_existing d e ph = [] <->
  (forall u, In u (users d) ->
             u_email u <> e /\ forall x, ph = Some x -> u_phone u <> Some x).
Proof.
  unfold select_existing. induction (users d) as [|u l IH]; simpl.
  - split; [intros _ u []|reflexivity].
  - destruct (String.eqb (u_email u) e) eqn:Ee; simpl.
    + split; [discriminate|]. intros H. apply String.eqb_eq in Ee.
      destruct (H u (or_introl eq_refl)) as [N _]. contradiction.
    + apply String.eqb_neq in Ee.
      assert (Hp : match ph with Some x => phone_is x u | None => false end
                   = true <-> exists x, ph = Some x /\ u_phone u = Some x).
      { destruct ph as [x|]; [|split; [discriminate|intros [x [X _]];
                                       discriminate X]].
        unfold phone_is. destruct (u_phone u) as [y|].
        - rewrite String.eqb_eq. split.
          + intros ->. eauto.
          + intros [x' [X Y]]. congruence.
        - split; [discriminate|]. intros [x' [_ Y]]. discriminate Y. }
      destruct (match ph with Some x => phone_is x u | None => false end).
      * split; [discriminate|]. intros H.
        destruct (proj1 Hp eq_refl) as [x [X Y]].
        destruct (H u (or_introl eq_refl)) as [_ N]. exfalso.
        exact (N x X Y).
      * simpl. rewrite IH. split.
        -- intros H v [<-|Hv]; [|auto]. split; [exact Ee|].
           intros x X Y.
           assert (F : false = true) by (apply Hp; eauto). discriminate F.
        -- intros H v Hv. apply H. auto.
Qed.

Lemma select_existing_in (d : Store) (e : string) (ph : option string) (i : Z) :
  In i (select_existing d e ph) ->
  exists u, In u (users d)
            /\ (u_email u = e \/ exists x, ph = Some x /\ u_phone u = Some x).
Proof.
  unfold select_existing. intros H. apply in_map_iff in H.
  destruct H as [u [_ H]]. apply filter_In in H. destruct H as [Hu H].
  exists u. split; [exact Hu|]. apply orb_true_iff in H.
  destruct H as [H|H]; [left; now apply String.eqb_eq|right].
  destruct ph as [x|]; [|discriminate]. exists x. split; [reflexivity|].
  unfold phone_is in H. destruct (u_phone u) as [y|]; [|discriminate].
  apply String.eqb_eq in H. congruence.
Qed.

(** X8.  The account routes normalise the phone before anything else: a
    phone that is not a string (a JSON number, [true], an array or an
    object) makes [normalizePhone] throw.  A registration that passed its
    presence check (name, e-mail, phone, password) with such a phone is
    answered 500, and so is a login that passed its own presence check
    (phone and password only); the pool and the store are never
    touched. *)
Theorem phone_that_is_not_a_string (body : Body) (w : World) :
  (exists n, phone body = JNum n) \/ phone body = JBool true
  \/ (exists o, phone body = JObj o) ->
  (register_required body = true ->
   register body w = (Some RegisterFailed, w))
  /\ (login_required body = true ->
      login body w = (Some LoginFailed, w)).
Proof.
  intros Hp.
  assert (N : normalizePhone (phone body) = None)
    by (destruct Hp as [[n ->]|[->|[o ->]]]; reflexivity).
  split; intros V.
  - rewrite register_run, V, N. reflexivity.
  - rewrite login_run, V, N. reflexivity.
Qed.

(** X9.  For a registration that passed the presence check, whose phone
    normalises, whose e-mail and phone the store can read, on a pool and
    a store that serve the first statement: the reply is 409 exactly when
    some user already has that e-mail or that normalised phone (a null
    phone matches nobody), and then the store is unchanged and no
    password has been hashed. *)
Theorem register_refuses_duplicates (body : Body) (w : World) (np : value)
    (e : string) (ph : option string) :
  register_required body = true ->
  normalizePhone (phone body) = Some np ->
  pg_text (email body) = Some e ->
  bind_text np = Some ph ->
  hd false (connects w) = false -> hd false (faults w) = false ->
  (fst (register body w) = Some AlreadyRegistered
   <-> exists u, In u (users (store w))
                 /\ (u_email u = e
                     \/ exists x, ph = Some x /\ u_phone u = Some x))
  /\ (fst (register body w) = Some AlreadyRegistered ->
      store (snd (register body w)) = store w
      /\ entropy (snd (register body w)) = entropy w).
Proof.
  intros V Hn He Hb C F.
  rewrite register_run, V, Hn, (dbQuery_served _ _ C F).
  unfold existing_statement. rewrite He, Hb.
  pose proof (select_existing_nil (store w) e ph) as N.
  destruct (select_existing (store w) e ph) as [|x xs] eqn:Sel.
  - assert (A : forall u, In u (users (store w)) ->
                  u_email u <> e
                  /\ forall x, ph = Some x -> u_phone u <> Some x)
      by (apply N; reflexivity).
    assert (NoDup' : ~ exists u, In u (users (store w))
                     /\ (u_email u = e
                         \/ exists x, ph = Some x /\ u_phone u = Some x)).
    { intros [u [Hu [E|[x [X Y]]]]]; destruct (A u Hu) as [A1 A2];
        [contradiction|exact (A2 x X Y)]. }
    assert (Not409 : fst
      match hash (password body)
              (mkWorld (store w) (clock w) (tl (connects w)) (tl (faults w))
                       (entropy w) (S (connected w)) (S (released w))) with
      | (Some h, w2) =>
          match dbQuery (insert_statement (fullName body) (email body) np h
                           (role_or_default (role body))) w2 with
          | (Some rows, w3) =>
              (Some (mkReply 201 (RegisteredBody (hd_error rows))), w3)
          | (None, w3) => (Some RegisterFailed, w3)
          end
      | (None, w2) => (Some RegisterFailed, w2)
      end <> Some AlreadyRegistered).
    { destruct (hash _ _) as [[h|] w2]; [|discriminate].
      destruct (dbQuery _ w2) as [[rows|] w3]; discriminate. }
    split; [split; intros H; [contradiction|contradiction]|].
    intros H. contradiction.
  - split; [|intros _; split; reflexivity].
    split; [intros _|reflexivity].
    apply (@select_existing_in (store w) e ph x). rewrite Sel. left. reflexivity.
Qed.

(** Everything a registration can do: nothing, or append one user that no
    existing user clashes with. *)
Lemma register_effect (body : Body) (w : World) :
  exists r,
    fst (register body w) = Some r
    /\ clock (snd (register body w)) = clock w
    /\ (connected (snd (register body w)) + released w
        = released (snd (register body w)) + connected w)%nat
    /\ ((store (snd (register body w)) = store w
         /\ (r = MissingFields \/ r = AlreadyRegistered \/ r = RegisterFailed))
        \/ (exists np n e ph h rl salt,
              normalizePhone (phone body) = Some np
              /\ pg_text (fullName body) = Some n
              /\ pg_text (email body) = Some e
              /\ bind_text np = Some ph
              /\ pg_role (role_or_default (role body)) = Some rl
              /\ bcrypt_hash salt (password body) = Some h
              /\ select_existing (store w) e ph = []
              /\ store (snd (register body w))
                 = mkStore (users (store w)
                              ++ [mkUserRow (next_user_id (store w)) n e ph h
                                            rl (clock w)])
                           (professionals (store w))
                           (next_user_id (store w) + 1)
              /\ r = mkReply 201
                       (RegisteredBody
                          (Some (mkRegisteredUser (next_user_id (store w)) n e
                                                  ph rl (clock w)))))).
Proof.
  rewrite register_run.
  assert (Same : forall (r : Reply) (w' : World),
             clock w' = clock w ->
             (connected w' + released w = released w' + connected w)%nat ->
             store w' = store w ->
             r = MissingFields \/ r = AlreadyRegistered \/ r = RegisterFailed ->
             exists r0,
               fst (Some r, w') = Some r0
               /\ clock (snd (Some r, w')) = clock w
               /\ (connected (snd (Some r, w')) + released w
                   = released (snd (Some r, w')) + connected w)%nat
               /\ ((store (snd (Some r, w')) = store w
                    /\ (r0 = MissingFields \/ r0 = AlreadyRegistered
                        \/ r0 = RegisterFailed))
                   \/ (exists np n e ph h rl salt,
                         normalizePhone (phone body) = Some np
                         /\ pg_text (fullName body) = Some n
                         /\ pg_text (email body) = Some e
                         /\ bind_text np = Some ph
                         /\ pg_role (role_or_default (role body)) = Some rl
                         /\ bcrypt_hash salt (password body) = Some h
                         /\ select_existing (store w) e ph = []
                         /\ store (snd (Some r, w'))
                            = mkStore (users (store w)
                                         ++ [mkUserRow (next_user_id (store w))
                                               n e ph h rl (clock w)])
                                      (professionals (store w))
                                      (next_user_id (store w) + 1)
                         /\ r0 = mkReply 201
                                   (RegisteredBody
                                      (Some (mkRegisteredUser
                                               (next_user_id (store w)) n e ph
                                               rl (clock w))))))).
  { intros r w' Hc Hp Hs Hr. exists r. simpl. auto 6. }
  destruct (register_required body); [|apply Same; auto; lia].
  destruct (normalizePhone (phone body)) as [np|] eqn:Hn;
    [|apply Same; auto; lia].
  destruct (dbQuery (existing_statement (email body) np) w) as [r1 w1] eqn:E1.
  pose proof (dbQuery_effect (existing_statement (email body) np) w) as D1.
  rewrite E1 in D1. simpl in D1. destruct D1 as (C1 & N1 & P1 & S1 & Q1).
  assert (St1 : store w1 = store w).
  { destruct r1 as [rows|]; [|auto].
    destruct (existing_statement_inv _ _ _ _ (Q1 rows eq_refl)) as [X _].
    exact X. }
  destruct r1 as [[|x xs]|]; try (apply Same; auto; fail).
  destruct (existing_statement_inv _ _ _ _ (Q1 [] eq_refl))
    as [_ (e & ph & He & Hb & Sel)].
  destruct (hash (password body) w1) as [r2 w2] eqn:E2.
  apply hash_effect in E2. destruct E2 as (St2 & C2 & Cn2 & Rl2 & H2).
  destruct r2 as [h|];
    [|apply Same; auto; [congruence|lia|congruence]].
  destruct (H2 h eq_refl) as [salt Hh].
  destruct (dbQuery (insert_statement (fullName body) (email body) np h
                       (role_or_default (role body))) w2) as [r3 w3] eqn:E3.
  pose proof (dbQuery_effect (insert_statement (fullName body) (email body) np
                                h (role_or_default (role body))) w2) as D3.
  rewrite E3 in D3. simpl in D3. destruct D3 as (C3 & N3 & P3 & S3 & Q3).
  destruct r3 as [rows|].
  - destruct (insert_statement_inv _ _ _ _ _ _ _ (Q3 rows eq_refl))
      as (n & e' & ph' & rl & Hn' & He' & Hb' & Hr & Hrows & Hd).
    assert (e' = e) by congruence. assert (ph' = ph) by congruence. subst e' ph'.
    eexists. split; [reflexivity|]. simpl.
    split; [congruence|]. split; [lia|]. right.
    exists np, n, e, ph, h, rl, salt.
    rewrite St2, St1, C2, C1 in Hd. rewrite St2, St1, C2, C1 in Hrows.
    subst rows. rewrite <- Sel. repeat split; auto.
  - apply Same; auto; [congruence|lia|].
    rewrite (S3 eq_refl). congruence.
Qed.

(** X10.  A registration handled on its own, no other request being
    served between its statements: whatever the request and whatever the
    pool, the store and bcrypt do, the register route replies, with 201,
    400, 409 or 500.  With 201 exactly one user has been appended: it has
    the next id of the sequence and the time of the clock, its phone is
    what the store read from the normalised phone, its password column
    holds a bcrypt hash of the password sent, no user that was there when
    the request arrived has its e-mail or its phone, and the reply shows
    the row without the hash.  With any other reply the store is exactly
    as it was.  (The route awaits between its SELECT and its INSERT and
    takes no lock: nothing is said here of two registrations in flight
    together.) *)
Theorem register_appends_one_user_or_nothing (body : Body) (w : World) :
  let outcome := register body w in
  exists r,
    fst outcome = Some r
    /\ ((exists row np salt,
            users (store (snd outcome)) = users (store w) ++ [row]
            /\ professionals (store (snd outcome)) = professionals (store w)
            /\ next_user_id (store (snd outcome)) = next_user_id (store w) + 1
            /\ u_id row = next_user_id (store w)
            /\ u_created_at row = clock w
            /\ normalizePhone (phone body) = Some np
            /\ bind_text np = Some (u_phone row)
            /\ pg_text (email body) = Some (u_email row)
            /\ bcrypt_hash salt (password body) = Some (u_password_hash row)
            /\ (forall u, In u (users (store w)) ->
                          u_email u <> u_email row
                          /\ forall x, u_phone row = Some x ->
                                       u_phone u <> Some x)
            /\ r = mkReply 201
                     (RegisteredBody
                        (Some (mkRegisteredUser (u_id row) (u_full_name row)
                                 (u_email row) (u_phone row) (u_role row)
                                 (u_created_at row)))))
        \/ (store (snd outcome) = store w
            /\ (statusCode r = 400 \/ statusCode r = 409
                \/ statusCode r = 500))).
Proof.
  intros outcome. subst outcome.
  destruct (register_effect body w) as (r & Hr & _ & _ & [[St Rs]|Ok]).
  - exists r. split; [exact Hr|]. right. split; [exact St|].
    destruct Rs as [->|[->| ->]]; simpl; auto.
  - destruct Ok as (np & n & e & ph & h & rl & salt & Hn & Hfn & He & Hb & Hrl
                    & Hh & Sel & St & Rr).
    exists r. split; [exact Hr|]. left.
    exists (mkUserRow (next_user_id (store w)) n e ph h rl (clock w)), np, salt.
    rewrite St. simpl. repeat split; auto.
    + apply (proj1 (select_existing_nil (store w) e ph) Sel u H).
    + apply (proj1 (select_existing_nil (store w) e ph) Sel u H).
Qed.

Lemma register_keeps_accounts_distinct (body : Body) (w : World) :
  distinct_accounts (store w) ->
  distinct_accounts (store (snd (register body w))).
Proof.
  intros I.
  destruct (register_effect body w) as (r & _ & _ & _ & [[St _]|Ok]).
  - rewrite St. exact I.
  - destruct Ok as (np & n & e & ph & h & rl & salt & _ & _ & _ & _ & _ & _
                    & Sel & St & _).
    rewrite St. unfold distinct_accounts. simpl.
    apply ForallOrdPairs_snoc; [exact I|].
    apply Forall_forall. intros u Hu. simpl.
    destruct (proj1 (select_existing_nil (store w) e ph) Sel u Hu) as [A B].
    split; [exact A|]. intros x Hx Hph. apply (B x Hph Hx).
Qed.

Lemma login_keeps_store (body : Body) (w : World) :
  store (snd (login body w)) = store w
  /\ clock (snd (login body w)) = clock w
  /\ (connected (snd (login body w)) + released w
      = released (snd (login body w)) + connected w)%nat.
Proof.
  rewrite login_run.
  destruct (login_required body); [|simpl; repeat split; lia].
  destruct (normalizePhone (phone body)) as [np|];
    [|simpl; repeat split; lia].
  destruct (dbQuery (by_phone_statement np) w) as [r1 w1] eqn:E1.
  pose proof (dbQuery_effect (by_phone_statement np) w) as D1.
  rewrite E1 in D1. simpl in D1. destruct D1 as (C1 & N1 & P1 & S1 & Q1).
  assert (St1 : store w1 = store w).
  { destruct r1 as [rows|]; [|auto]. specialize (Q1 rows eq_refl).
    unfold by_phone_statement in Q1.
    destruct (bind_text np); inversion Q1. reflexivity. }
  destruct r1 as [[|user rest]|]; simpl; try (repeat split; auto; fail).
  destruct (compare (password body) (a_password_hash user) w1)
    as [r2 w2] eqn:E2.
  apply compare_effect in E2. destruct E2 as [-> _].
  destruct r2 as [[|]|]; simpl; try (repeat split; auto; fail).
  destruct (String.eqb (a_role user) "BARBER"); simpl;
    try (repeat split; auto; fail).
  destruct (dbQuery (professional_statement (a_id user)) w1) as [r3 w3] eqn:E3.
  pose proof (dbQuery_effect (professional_statement (a_id user)) w1) as D3.
  rewrite E3 in D3. simpl in D3. destruct D3 as (C3 & N3 & P3 & S3 & Q3).
  assert (St3 : store w3 = store w1).
  { destruct r3 as [rows|]; [|auto]. specialize (Q3 rows eq_refl).
    unfold professional_statement in Q3. inversion Q3. reflexivity. }
  destruct r3 as [[|prof rest']|]; simpl;
    (split; [congruence|split; [congruence|lia]]).
Qed.

(** X11.  Starting from a users table in which no two rows share an
    e-mail or a phone, after any sequence of registrations and logins
    handled one after the other, whatever the pool, the store and bcrypt
    do, still no two users share an e-mail or a phone. *)
Theorem accounts_stay_distinct (es : list Event) (w : World) :
  distinct_accounts (store w) ->
  forall i j u v,
    i <> j ->
    nth_error (users (store (handle_all es w))) i = Some u ->
    nth_error (users (store (handle_all es w))) j = Some v ->
    u_email u <> u_email v
    /\ forall x, u_phone u = Some x -> u_phone v <> Some x.
Proof.
  intros I.
  assert (K : distinct_accounts (store (handle_all es w))).
  { revert w I. induction es as [|e es IH]; intros w I; [exact I|].
    simpl. apply IH. destruct e as [body|body]; simpl.
    - now apply register_keeps_accounts_distinct.
    - rewrite (proj1 (login_keeps_store body w)). exact I. }
  intros i j u v N Hi Hj.
  destruct (Nat.lt_trichotomy i j) as [L|[L|L]]; [|contradiction|].
  - exact (ForallOrdPairs_nth K L Hi Hj).
  - destruct (ForallOrdPairs_nth K L Hj Hi) as [A B].
    split; [congruence|]. intros x Hu Hv. exact (B x Hv Hu).
Qed.

Lemma in_firstn {A} (n : nat) (l : list A) (a : A) :
  In a (firstn n l) -> In a l.
Proof.
  revert l. induction n as [|n IH]; intros [|x l]; simpl; try tauto.
  intros [H|H]; auto.
Qed.

Lemma select_by_phone_in (d : Store) (ph : option string) (acc : Account) :
  In acc (select_by_phone d ph) ->
  exists x row, ph = Some x /\ In row (users d) /\ u_phone row = Some x
                /\ acc = account_of row.
Proof.
  unfold select_by_phone. destruct ph as [x|]; [|intros []].
  intros H. apply in_firstn in H.
  change (In acc (map account_of (filter (phone_is x) (users d)))) in H.
  apply in_map_iff in H. destruct H as [row [Ha Hr]].
  apply filter_In in Hr. destruct Hr as [Hr Hp].
  exists x, row. repeat split; auto.
  unfold phone_is in Hp. destruct (u_phone row) as [y|]; [|discriminate].
  apply String.eqb_eq in Hp. congruence.
Qed.

Lemma select_professional_in (d : Store) (uid : Z) (prof : ProfessionalInfo) :
  In prof (select_professional d uid) ->
  exists p, In p (professionals d) /\ p_user_id p = uid
            /\ prof = mkProfessionalInfo (p_id p) (p_barbershop_id p) (p_bio p)
                        (p_is_active p) (p_is_master p).
Proof.
  unfold select_professional. intros H. apply in_firstn in H.
  apply in_map_iff in H. destruct H as [p [Hp H]].
  apply filter_In in H. destruct H as [H E]. apply Z.eqb_eq in E.
  exists p. auto.
Qed.

(** X12.  The login route never writes and never logs anybody in on its
    own authority.  Whatever the request and whatever the pool, the store
    and bcrypt do, the users and professionals are as they were, and the
    reply is one of the three error replies or 200 with an account that
    (a) is the row of a stored user whose phone is what the store read
    from the normalised phone of the request and whose hash bcrypt
    accepted for the password of the request, (b) carries no
    [password_hash], and (c) carries a professional only if the user's
    role is BARBER and the professional row belongs to that user. *)
Theorem login_is_sound (body : Body) (w : World) :
  let outcome := login body w in
  store (snd outcome) = store w
  /\ exists r,
      fst outcome = Some r
      /\ (r = MissingCredentials \/ r = InvalidCredentials \/ r = LoginFailed
          \/ exists acc row np x,
               r = mkReply 200 (LoggedBody acc)
               /\ In row (users (store w))
               /\ normalizePhone (phone body) = Some np
               /\ bind_text np = Some (Some x)
               /\ u_phone row = Some x
               /\ bcrypt_compare (password body) (u_password_hash row)
                  = Some true
               /\ a_id acc = u_id row /\ a_full_name acc = u_full_name row
               /\ a_email acc = u_email row /\ a_phone acc = u_phone row
               /\ a_role acc = u_role row
               /\ a_password_hash acc = None
               /\ (forall prof, a_professional acc = Some prof ->
                     u_role row = "BARBER"
                     /\ exists p, In p (professionals (store w))
                                  /\ p_user_id p = u_id row
                                  /\ id prof = p_id p)).
Proof.
  intros outcome. subst outcome.
  split; [apply login_keeps_store|].
  rewrite login_run.
  destruct (login_required body); [|eexists; split; [reflexivity|auto]].
  destruct (normalizePhone (phone body)) as [np|] eqn:Hn;
    [|eexists; split; [reflexivity|auto]].
  destruct (dbQuery (by_phone_statement np) w) as [r1 w1] eqn:E1.
  pose proof (dbQuery_effect (by_phone_statement np) w) as D1.
  rewrite E1 in D1. simpl in D1. destruct D1 as (_ & _ & _ & S1 & Q1).
  destruct r1 as [[|user rest]|];
    try (eexists; split; [reflexivity|auto]; fail).
  specialize (Q1 _ eq_refl). unfold by_phone_statement in Q1.
  destruct (bind_text np) as [ph|] eqn:Hb; [|discriminate Q1].
  injection Q1 as Sel St1.
  assert (Hin : In user (select_by_phone (store w) ph))
    by (rewrite Sel; left; reflexivity).
  apply select_by_phone_in in Hin.
  destruct Hin as (x & row & -> & Hrow & Hph & ->).
  destruct (compare (password body) (a_password_hash (account_of row)) w1)
    as [r2 w2] eqn:E2.
  apply compare_effect in E2. destruct E2 as [-> Hc].
  destruct r2 as [[|]|]; try (eexists; split; [reflexivity|auto]; fail).
  destruct (Hc true eq_refl) as [h [Hh Cmp]]. simpl in Hh.
  injection Hh as <-.
  assert (Base : forall acc,
             a_id acc = u_id row -> a_full_name acc = u_full_name row ->
             a_email acc = u_email row -> a_phone acc = u_phone row ->
             a_role acc = u_role row -> a_password_hash acc = None ->
             (forall prof, a_professional acc = Some prof ->
                 u_role row = "BARBER"
                 /\ exists p, In p (professionals (store w))
                              /\ p_user_id p = u_id row /\ id prof = p_id p) ->
             exists acc0 row0 np0 x0,
               mkReply 200 (LoggedBody acc) = mkReply 200 (LoggedBody acc0)
               /\ In row0 (users (store w))
               /\ Some np = Some np0
               /\ bind_text np0 = Some (Some x0)
               /\ u_phone row0 = Some x0
               /\ bcrypt_compare (password body) (u_password_hash row0)
                  = Some true
               /\ a_id acc0 = u_id row0 /\ a_full_name acc0 = u_full_name row0
               /\ a_email acc0 = u_email row0 /\ a_phone acc0 = u_phone row0
               /\ a_role acc0 = u_role row0
               /\ a_password_hash acc0 = None
               /\ (forall prof, a_professional acc0 = Some prof ->
                     u_role row0 = "BARBER"
                     /\ exists p, In p (professionals (store w))
                                  /\ p_user_id p = u_id row0
                                  /\ id prof = p_id p)).
  { intros acc A1 A2 A3 A4 A5 A6 A7. exists acc, row, np, x.
    split; [reflexivity|]. split; [exact Hrow|]. split; [reflexivity|].
    split; [exact Hb|]. split; [exact Hph|]. split; [exact Cmp|].
    split; [exact A1|]. split; [exact A2|]. split; [exact A3|].
    split; [exact A4|]. split; [exact A5|]. split; [exact A6|exact A7]. }
  cbv zeta.
  destruct (String.eqb (a_role (account_of row)) "BARBER") eqn:Rl.
  - apply String.eqb_eq in Rl. simpl in Rl.
    destruct (dbQuery (professional_statement (a_id (account_of row))) w1)
      as [r3 w3] eqn:E3.
    pose proof (dbQuery_effect
                  (professional_statement (a_id (account_of row))) w1) as D3.
    rewrite E3 in D3. simpl in D3. destruct D3 as (_ & _ & _ & _ & Q3).
    destruct r3 as [[|prof rest']|];
      try (eexists; split; [reflexivity|auto]; fail).
    + eexists. split; [reflexivity|]. right. right. right.
      apply Base; simpl; auto. discriminate.
    + specialize (Q3 _ eq_refl). unfold professional_statement in Q3.
      injection Q3 as Selp _.
      assert (Hp : In prof (select_professional (store w1) (u_id row)))
        by (rewrite Selp; left; reflexivity).
      apply select_professional_in in Hp. destruct Hp as (p & Hp & Hu & ->).
      eexists. split; [reflexivity|]. right. right. right.
      apply Base; simpl; auto.
      intros prof' Hprof. injection Hprof as <-. split; [exact Rl|].
      exists p. rewrite St1. auto.
  - eexists. split; [reflexivity|]. right. right. right.
    apply Base; simpl; auto. discriminate.
Qed.

Lemma select_by_phone_find (d : Store) (x : string) :
  select_by_phone d (Some x) =
  match find (phone_is x) (users d) with
  | Some u => [account_of u]
  | None => []
  end.
Proof.
  unfold select_by_phone. induction (users d) as [|u l IH]; simpl;
    [reflexivity|].
  destruct (phone_is x u); [reflexivity|exact IH].
Qed.

Lemma serves_S (n : nat) (w : World) :
  serves (S n) w ->
  hd false (connects w) = false /\ hd false (faults w) = false
  /\ forall d c e k r,
      serves n (mkWorld d c (tl (connects w)) (tl (faults w)) e k r).
Proof.
  unfold serves. intros [C F].
  destruct (connects w) as [|c cs], (faults w) as [|f fs]; simpl in *.
  - repeat split; auto; destruct n; reflexivity.
  - apply andb_true_iff in F. destruct F as [F1 F2].
    repeat split; auto; [now destruct f|destruct n; reflexivity].
  - apply andb_true_iff in C. destruct C as [C1 C2].
    repeat split; auto; [now destruct c|destruct n; reflexivity].
  - apply andb_true_iff in C. destruct C as [C1 C2].
    apply andb_true_iff in F. destruct F as [F1 F2].
    repeat split; auto; [now destruct c|now destruct f].
Qed.

Lemma compare_some (pw : value) (h : string) (w : World) :
  compare pw (Some h) w = (bcrypt_compare pw h, w).
Proof.
  unfold compare, lift, ret, throw. destruct (bcrypt_compare pw h); reflexivity.
Qed.

(** The login route when the first statement is served. *)
Lemma login_served (body : Body) (w : World) (np : value)
    (ph : option string) :
  login_required body = true ->
  normalizePhone (phone body) = Some np ->
  bind_text np = Some ph ->
  serves 2 w ->
  fst (login body w) =
  match ph with
  | None => Some InvalidCredentials
  | Some x =>
      match find (phone_is x) (users (store w)) with
      | None => Some InvalidCredentials
      | Some u =>
          match bcrypt_compare (password body) (u_password_hash u) with
          | None => Some LoginFailed
          | Some false => Some InvalidCredentials
          | Some true =>
              Some (mkReply 200
                      (LoggedBody
                         (mkAccount (u_id u) (u_full_name u) (u_email u)
                            (u_phone u) (u_role u) None
                            (if String.eqb (u_role u) "BARBER"
                             then hd_error (select_professional (store w)
                                              (u_id u))
                             else None))))
          end
      end
  end.
Proof.
  intros V Hn Hb Sv. apply serves_S in Sv. destruct Sv as (C1 & F1 & Sv).
  rewrite login_run, V, Hn, (dbQuery_served _ _ C1 F1).
  unfold by_phone_statement. rewrite Hb.
  destruct ph as [x|]; [|reflexivity].
  rewrite select_by_phone_find.
  destruct (find (phone_is x) (users (store w))) as [u|]; [|reflexivity].
  simpl a_password_hash. rewrite compare_some.
  destruct (bcrypt_compare (password body) (u_password_hash u)) as [[|]|];
    try reflexivity.
  cbv zeta. simpl a_role. simpl a_id.
  destruct (String.eqb (u_role u) "BARBER"); [|reflexivity].
  set (w1 := mkWorld (store w) (clock w) (tl (connects w)) (tl (faults w))
                     (entropy w) (S (connected w)) (S (released w))).
  specialize (Sv (store w) (clock w) (entropy w) (S (connected w))
                 (S (released w))). fold w1 in Sv.
  apply serves_S in Sv. destruct Sv as (C2 & F2 & _).
  rewrite (dbQuery_served _ _ C2 F2). unfold professional_statement.
  simpl store.
  destruct (select_professional (store w) (u_id u)) as [|prof rest];
    reflexivity.
Qed.

(** X13.  For a login that passed the presence check, whose phone
    normalises and binds, on a pool and a store that serve: an unknown
    phone and a password that bcrypt rejects for the first user with that
    phone get the very same reply, 401 "Telefone ou senha invalidos."; a
    password that bcrypt accepts gets 200 with that user, without the
    hash, and with the user's first professional row when (and only when)
    the role is BARBER. *)
Theorem login_decides (body : Body) (w : World) (np : value) (x : string) :
  login_required body = true ->
  normalizePhone (phone body) = Some np ->
  bind_text np = Some (Some x) ->
  serves 2 w ->
  (find (phone_is x) (users (store w)) = None ->
   fst (login body w) = Some InvalidCredentials)
  /\ (forall u,
        find (phone_is x) (users (store w)) = Some u ->
        (bcrypt_compare (password body) (u_password_hash u) = Some false ->
         fst (login body w) = Some InvalidCredentials)
        /\ (bcrypt_compare (password body) (u_password_hash u) = Some true ->
            exists acc,
              fst (login body w) = Some (mkReply 200 (LoggedBody acc))
              /\ a_id acc = u_id u /\ a_email acc = u_email u
              /\ a_role acc = u_role u /\ a_password_hash acc = None
              /\ a_professional acc
                 = if String.eqb (u_role u) "BARBER"
                   then hd_error (select_professional (store w) (u_id u))
                   else None)).
Proof.
  intros V Hn Hb Sv. rewrite (login_served body V Hn Hb Sv). split.
  - intros ->. reflexivity.
  - intros u ->. split; intros ->; [reflexivity|].
    eexists. split; [reflexivity|]. simpl. repeat split.
Qed.

Lemma find_snoc_fresh {A} (f : A -> bool) (l : list A) (a : A) :
  (forall b, In b l -> f b = false) -> f a = true ->
  find f (l ++ [a]) = Some a.
Proof.
  induction l as [|b l IH]; simpl; intros N T; [now rewrite T|].
  rewrite (N b (or_introl eq_refl)). apply IH; auto.
Qed.

(** X14.  Register, then log in.  If a registration with a phone that
    has at least one digit is answered 201, and bcrypt accepts a password
    for the hashes it makes of it, then a login sent next with the same
    password and any phone that normalises to the same digits (other
    punctuation, spaces, a leading +) is answered 200 with the user just
    created, on a pool and a store that serve. *)
Theorem register_then_login (body body' : Body) (w : World) (r : Reply)
    (digits : string) :
  fst (register body w) = Some r -> statusCode r = 201 ->
  normalizePhone (phone body) = Some (JStr digits) ->
  normalizePhone (phone body') = Some (JStr digits) ->
  truthy (phone body') = true ->
  password body' = password body ->
  (forall salt h, bcrypt_hash salt (password body) = Some h ->
                  bcrypt_compare (password body) h = Some true) ->
  serves 2 (snd (register body w)) ->
  exists acc,
    fst (login body' (snd (register body w)))
    = Some (mkReply 200 (LoggedBody acc))
    /\ a_id acc = next_user_id (store w)
    /\ a_password_hash acc = None
    /\ pg_text (email body) = Some (a_email acc).
Proof.
  intros Hr H201 Hn Hn' Tp Hpw Bc Sv.
  assert (Vr : register_required body = true).
  { rewrite register_run in Hr.
    destruct (register_required body); [reflexivity|].
    inversion Hr; subst. discriminate H201. }
  assert (V : login_required body' = true).
  { unfold login_required. rewrite Tp, Hpw. unfold register_required in Vr.
    destruct (truthy (password body)); [reflexivity|].
    rewrite !andb_false_r in Vr. discriminate Vr. }
  destruct (register_effect body w) as (r0 & Hr0 & _ & _ & [[_ Rs]|Ok]).
  { rewrite Hr in Hr0. injection Hr0 as <-.
    destruct Rs as [->|[->| ->]]; discriminate H201. }
  destruct Ok as (np & n & e & ph & h & rl & salt & Hn0 & Hfn & He & Hb & Hrl
                  & Hh & Sel & St & Rr).
  assert (np = JStr digits) by congruence. subst np.
  assert (exists x, ph = Some x) as [x ->].
  { unfold bind_text in Hb. destruct (pg_text (JStr digits)) as [t|];
      [|discriminate Hb]. injection Hb as <-. eauto. }
  rewrite (login_served body' V Hn' Hb Sv), St. simpl users.
  set (row := mkUserRow (next_user_id (store w)) n e (Some x) h rl (clock w)).
  assert (Fd : find (phone_is x) (users (store w) ++ [row]) = Some row).
  { apply find_snoc_fresh.
    - intros u Hu. unfold phone_is.
      destruct (proj1 (select_existing_nil (store w) e (Some x)) Sel u Hu)
        as [_ N].
      destruct (u_phone u) as [y|] eqn:Y; [|reflexivity].
      apply String.eqb_neq. intros ->. exact (N x eq_refl eq_refl).
    - unfold phone_is. simpl. apply String.eqb_refl. }
  rewrite Fd. simpl u_password_hash. rewrite Hpw, (Bc salt h Hh).
  eexists. split; [reflexivity|]. simpl. auto.
Qed.

(** X15.  Every client taken from the pool is given back: after any
    sequence of registrations and logins, whatever fails, the number of
    clients released has grown exactly as much as the number of clients
    connected. *)
Theorem pool_clients_are_released (es : list Event) (w : World) :
  (connected (handle_all es w) + released w
   = released (handle_all es w) + connected w)%nat.
Proof.
  revert w. induction es as [|e es IH]; intros w; simpl; [lia|].
  specialize (IH (handle e w)).
  assert (H : (connected (handle e w) + released w
               = released (handle e w) + connected w)%nat).
  { destruct e as [body|body]; simpl.
    - destruct (register_effect body w) as (_ & _ & _ & H & _). exact H.
    - apply login_keeps_store. }
  lia.
Qed.

(** X16.  A phone without a single digit.  [normalizePhone] turns it
    into null: a registration that succeeds stores a null phone, and a
    login with such a phone is answered 401 whatever the users table
    holds, since a null parameter matches no row. *)
Theorem phone_without_digits (body : Body) (w : World) (s : string) :
  phone body = JStr s ->
  Forall (fun c => is_digit c = false) (list_ascii_of_string s) ->
  (forall r, fst (register body w) = Some r -> statusCode r = 201 ->
             exists row,
               users (store (snd (register body w)))
               = users (store w) ++ [row]
               /\ u_phone row = None)
  /\ (login_required body = true -> serves 2 w ->
      fst (login body w) = Some InvalidCredentials).
Proof.
  intros Hp Nd.
  assert (Hn : normalizePhone (phone body) = Some JNull).
  { rewrite Hp. unfold normalizePhone.
    rewrite (proj2 (strip_non_digits_empty s) Nd). reflexivity. }
  split.
  - intros r Hr H201.
    destruct (register_effect body w) as (r0 & Hr0 & _ & _ & [[_ Rs]|Ok]).
    { rewrite Hr in Hr0. injection Hr0 as <-.
      destruct Rs as [->|[->| ->]]; discriminate H201. }
    destruct Ok as (np & n & e & ph & h & rl & salt & Hn0 & _ & _ & Hb & _
                    & _ & _ & St & _).
    assert (np = JNull) by congruence. subst np.
    simpl in Hb. injection Hb as <-.
    rewrite St. simpl. eexists. split; reflexivity.
  - intros V Sv.
    rewrite (@login_served body w JNull None V Hn eq_refl Sv). reflexivity.
Qed.

End AccountRoutes.

Section AccountExamples.
Import Auth.
#[local] Existing Instance runtime.

(** A phone sent as a JSON number: in a registration, and in a login
    that carries the phone and the password only. *)
Lemma phone_that_is_not_a_string_witness :
  let body := mkBody (JStr "Caio") (JStr "caio@example.com")
                     (JNum 11977770000) (JStr "tesoura") JUndefined in
  let creds := mkBody JUndefined JUndefined (JNum 11977770000)
                      (JStr "tesoura") JUndefined in
  register body (world shop) = (Some RegisterFailed, world shop)
  /\ login creds (world shop) = (Some LoginFailed, world shop).
Proof.
  intros body creds. split.
  - apply (proj1 (@phone_that_is_not_a_string runtime body (world shop)
                    (or_introl (ex_intro _ 11977770000 eq_refl)))).
    reflexivity.
  - apply (proj2 (@phone_that_is_not_a_string runtime creds (world shop)
                    (or_introl (ex_intro _ 11977770000 eq_refl)))).
    reflexivity.
Defined.

(** Ana's e-mail with a new phone, and a new e-mail with Bob's phone
    written differently. *)
Lemma register_refuses_duplicates_witness :
  fst (register (mkBody (JStr "Outra Ana") (JStr "ana@example.com")
                        (JStr "11 96666-0000") (JStr "x") JUndefined)
                (world shop)) = Some AlreadyRegistered
  /\ fst (register (mkBody (JStr "Beto") (JStr "beto@example.com")
                           (JStr "+11 (888) 88-0000") (JStr "x") JUndefined)
                   (world shop)) = Some AlreadyRegistered.
Proof.
  split.
  - apply (proj1 (@register_refuses_duplicates runtime
                    (mkBody (JStr "Outra Ana") (JStr "ana@example.com")
                            (JStr "11 96666-0000") (JStr "x") JUndefined)
                    (world shop) (JStr "11966660000") "ana@example.com"
                    (Some "11966660000")
                    eq_refl eq_refl eq_refl eq_refl eq_refl eq_refl)).
    exists ana. split; [left; reflexivity|left; reflexivity].
  - reflexivity.
Defined.

Lemma accounts_stay_distinct_witness :
  let es := [PostRegister caio; PostRegister caio;
             PostLogin (credentials "11 97777 0000" "tesoura");
             PostRegister (mkBody (JStr "Caio B") (JStr "outro@example.com")
                                  (JStr "11977770000") (JStr "x") JUndefined)]
  in
  distinct_accounts shop
  /\ map u_id (users (store (handle_all es (world shop)))) = [1; 2; 3]
  /\ forall i j u v,
      i <> j ->
      nth_error (users (store (handle_all es (world shop)))) i = Some u ->
      nth_error (users (store (handle_all es (world shop)))) j = Some v ->
      u_email u <> u_email v
      /\ forall x, u_phone u = Some x -> u_phone v <> Some x.
Proof.
  intros es.
  assert (I : distinct_accounts shop).
  { unfold distinct_accounts, shop. simpl.
    repeat constructor; simpl; try discriminate.
    intros x Hx Hy. rewrite <- Hx in Hy. discriminate Hy. }
  split; [exact I|]. split; [reflexivity|].
  exact (@accounts_stay_distinct runtime es (world shop) I).
Defined.

(** Bob's phone with a wrong password and a phone nobody has: the same
    reply. *)
Lemma login_decides_witness :
  fst (login (credentials "(11) 88888-0000" "errada") (world shop))
  = Some InvalidCredentials
  /\ fst (login (credentials "(11) 80000-0000" "errada") (world shop))
     = Some InvalidCredentials.
Proof.
  assert (Sv : serves 2 (world shop)) by (split; reflexivity).
  split.
  - apply (proj1 (proj2 (@login_decides runtime
                           (credentials "(11) 88888-0000" "errada")
                           (world shop) (JStr "11888880000") "11888880000"
                           eq_refl eq_refl eq_refl Sv) bob eq_refl)).
    reflexivity.
  - apply (proj1 (@login_decides runtime
                    (credentials "(11) 80000-0000" "errada")
                    (world shop) (JStr "11800000000") "11800000000"
                    eq_refl eq_refl eq_refl Sv)).
    reflexivity.
Defined.

(** Caio registers with "(11) 97777-0000" and logs in with
    "+11 97777 0000". *)
Lemma register_then_login_witness :
  exists acc,
    fst (login (credentials "+11 97777 0000" "tesoura")
               (snd (register caio (world shop))))
    = Some (mkReply 200 (LoggedBody acc))
    /\ a_id acc = 3.
Proof.
  destruct (@register_then_login runtime caio
              (credentials "+11 97777 0000" "tesoura") (world shop)
              (mkReply 201
                 (RegisteredBody
                    (Some (mkRegisteredUser 3 "Caio" "caio@example.com"
                             (Some "11977770000") "CLIENTE" 1000))))
              "11977770000" eq_refl eq_refl eq_refl eq_refl eq_refl eq_refl)
    as [acc [H1 [H2 _]]].
  - intros salt h Hh. simpl in Hh. injection Hh as <-. reflexivity.
  - split; reflexivity.
  - exists acc. split; [exact H1|exact H2].
Defined.

(** The phone "a definir". *)
Lemma phone_without_digits_witness :
  fst (login (credentials "a definir" "tesoura") (world shop))
  = Some InvalidCredentials.
Proof.
  apply (proj2 (@phone_without_digits runtime
                  (credentials "a definir" "tesoura") (world shop)
                  "a definir" eq_refl
                  ltac:(repeat constructor))).
  - reflexivity.
  - split; reflexivity.
Defined.

End AccountExamples.

(* ================================================================== *)
(** ** A create in flight together with a cancel *)
(* ================================================================== *)

Lemma cancel_keeps_no_overlap (d : Pg.Store) (now k : Z) :
  no_overlap d -> no_overlap (snd (Pg.update_cancel d now k)).
Proof.
  intros I. unfold no_overlap. simpl. apply ForallOrdPairs_map; [|exact I].
  intros a b. apply set_cancelled_compatible.
Qed.

Lemma set_cancelled_compatible_l (now k : Z) (a row : Pg.Appointment) :
  compatible a row ->
  compatible (if Pg.id a =? k then Pg.set_cancelled now a else a) row.
Proof.
  unfold compatible. destruct (Pg.id a =? k); simpl; auto.
  intros _ _ L. discriminate L.
Qed.

Section InFlight.
Context {P : Platform}.

Lemma exec_adds_no_row {R} (q : Query R) (w : World) :
  adds_no_row q = true ->
  db (snd (exec q w)) = db w
  \/ exists k, db (snd (exec q w)) = snd (Pg.update_cancel (db w) (clock w) k).
Proof.
  intros H. unfold exec. destruct (hd false (faults w)); [left; reflexivity|].
  destruct q as [pv sv|pv s e|cv pv sv s e pr n|iv|cv|pv]; simpl in *;
    try discriminate H.
  - destruct (pg_key pv), (pg_key sv); left; reflexivity.
  - destruct (pg_key pv); [|left; reflexivity].
    destruct (Pg.timestamptz_in s); [|left; reflexivity].
    destruct (Pg.timestamptz_in e); [|left; reflexivity].
    destruct (Pg.tstzrange _ _); [|left; reflexivity].
    destruct (Pg.select_overlapping _ _ _); left; reflexivity.
  - destruct (pg_key iv) as [k|]; [right; exists k|left]; reflexivity.
  - destruct (pg_key cv); left; reflexivity.
  - destruct (pg_key pv); left; reflexivity.
Qed.

Lemma exec_harmless {R} (q : Query R) (w : World) (C : Pg.Store -> Prop) :
  adds_no_row q = true -> stable C -> C (db w) -> no_overlap (db w) ->
  C (db (snd (exec q w))) /\ no_overlap (db (snd (exec q w))).
Proof.
  intros H St Cw I. destruct (exec_adds_no_row q w H) as [E|[k E]]; rewrite E.
  - auto.
  - split; [now apply St|now apply cancel_keeps_no_overlap].
Qed.

Lemma harmless_run {A} (q : Prog A) (w : World) :
  harmless q -> no_overlap (db w) -> no_overlap (db (snd (run q w))).
Proof.
  revert w. induction q as [a| |R q k IH]; simpl; intros w H I; auto.
  destruct H as [H1 H2].
  destruct (exec_harmless q w (C := fun _ => True) H1) as [_ I'];
    [intros ? ? ? ?; exact Logic.I|exact Logic.I|exact I|].
  destruct (exec q w) as [r w']. simpl in I'. apply IH; auto.
Qed.

Lemma guarded_run {A} (p : Prog A) (C : Pg.Store -> Prop) (w : World) :
  guarded p C -> C (db w) -> no_overlap (db w) ->
  no_overlap (db (snd (run p w))).
Proof.
  revert C w. induction p as [a| |R q k IH]; simpl; intros C w G Cw I; auto.
  destruct (G w Cw I) as [I' [C' [Cw' [_ G']]]].
  destruct (exec q w) as [r w']. simpl in *. eapply IH; eauto.
Qed.

(** Any schedule of a guarded program with a harmless one keeps the
    table free of overlap. *)
Lemma interleave_guarded {A B} (sched : list Turn) (p : Prog A) (q : Prog B)
    (C : Pg.Store -> Prop) (w : World) :
  guarded p C -> stable C -> C (db w) -> harmless q -> no_overlap (db w) ->
  no_overlap (db (snd (interleave sched p q w))).
Proof.
  revert p q C w. induction sched as [|turn sched IH];
    intros p q C w G St Cw H I.
  - simpl. pose proof (guarded_run p C w G Cw I) as I1.
    destruct (run p w) as [r1 w1]. simpl in I1.
    pose proof (harmless_run q w1 H I1) as I2.
    destruct (run q w1) as [r2 w2]. exact I2.
  - destruct turn; simpl.
    + destruct p as [a| |R0 q0 k]; simpl; try (eapply IH; eauto; fail).
      simpl in G. destruct (G w Cw I) as [I' [C' [Cw' [St' G']]]].
      destruct (exec q0 w) as [r w']. simpl in *. eapply IH; eauto.
    + destruct q as [b| |R0 q0 k]; simpl; try (eapply IH; eauto; fail).
      simpl in H. destruct H as [H1 H2].
      destruct (exec_harmless q0 w H1 St Cw I) as [Cw' I'].
      destruct (exec q0 w) as [r w']. simpl in *. eapply IH; eauto.
Qed.

Lemma cancel_is_harmless (id : string) : harmless (cancelAppointment id).
Proof.
  unfold cancelAppointment. simpl. split; [reflexivity|].
  intros [[|a rest]|]; simpl; exact Logic.I.
Qed.

Lemma listings_are_harmless (id : string) :
  harmless (listClientAppointments id) /\ harmless (listTodayAppointments id).
Proof.
  split.
  - unfold listClientAppointments. simpl. split; [reflexivity|].
    intros [rows|]; simpl; exact Logic.I.
  - unfold listTodayAppointments. destruct (truthy (Number id)); simpl;
      [|exact Logic.I].
    split; [reflexivity|]. intros [rows|]; simpl; exact Logic.I.
Qed.

(** The create route never adds a row its overlap check has not cleared
    on the table as it is when the row is added, provided the table only
    lost live rows in between. *)
Lemma create_is_guarded (body : CreateBody) :
  guarded (createAppointment body) (fun _ => True).
Proof.
  assert (T : stable (fun _ : Pg.Store => True))
    by (intros ? ? ? ?; exact Logic.I).
  unfold createAppointment.
  destruct (negb (truthy (clientId body)) || negb (truthy (professionalId body))
            || negb (truthy (serviceId body)) || negb (truthy (startTime body)));
    [exact Logic.I|].
  simpl. intros w _ I. split; [rewrite exec_details_db; exact I|].
  exists (fun _ => True). split; [exact Logic.I|]. split; [exact T|].
  destruct (fst (exec (ServiceDetailsQuery (professionalId body)
                         (serviceId body)) w)) as [[|s rows]|];
    simpl; try exact Logic.I.
  destruct (new_Date (startTime body)) as [t|]; simpl; [|exact Logic.I].
  destruct (TimeClip (t + nullish (Pg.custom_duration_min s)
                             (Pg.duration_min s) * 60000)) as [e|];
    simpl; [|exact Logic.I].
  intros w2 _ I2. split; [rewrite exec_overlap_db; exact I2|].
  destruct (exec (OverlapQuery (professionalId body) (ISO_text t)
                    (ISO_text e)) w2)
    as [r2 w2'] eqn:E2.
  pose proof (exec_overlap_inv _ _ _ _ E2) as [D2 _].
  destruct r2 as [[|u us]|]; simpl;
    try (exists (fun _ => True); split; [exact Logic.I|];
         split; [exact T|exact Logic.I]).
  apply exec_overlap_clear_inv in E2. destruct E2 as [p [r [Hp [Hr Hs]]]].
  exists (fun d => forall row,
              Pg.professional_id row = p -> Pg.start_time row = t ->
              Pg.end_time row = e ->
              Forall (fun a => compatible a row) (Pg.appointments d)).
  split; [|split].
  - intros row R1 R2 R3. rewrite D2. eapply cleared_row_compatible; eauto.
  - intros d now k Cd row R1 R2 R3. simpl. apply Forall_map.
    eapply Forall_impl; [|exact (Cd row R1 R2 R3)].
    intros a. apply set_cancelled_compatible_l.
  - intros w3 C3 I3. split.
    + unfold exec. destruct (hd false (faults w3)); [exact I3|]. simpl.
      destruct (pg_key (clientId body)) as [c|]; [|exact I3].
      rewrite Hp. destruct (pg_key (serviceId body)) as [sv|]; [|exact I3].
      unfold no_overlap. simpl. apply ForallOrdPairs_snoc; [exact I3|].
      apply C3; reflexivity.
    + exists (fun _ => True). split; [exact Logic.I|]. split; [exact T|].
      destruct (fst (exec _ w3)) as [rows'|]; simpl; exact Logic.I.
Qed.

(** X17.  A cancellation or a listing in flight together with a create
    cannot make the create double-book: starting from a table without
    overlap, whatever the schedule of their statements, whatever the
    requests and whatever the store fails, the table ends without
    overlap.  (Two creates in flight together have no such guarantee.) *)
Theorem create_with_cancel_in_flight (sched : list Turn) (body : CreateBody)
    (id : string) (w : World) :
  no_overlap (db w) ->
  no_overlap (db (snd (interleave sched (createAppointment body)
                         (cancelAppointment id) w)))
  /\ no_overlap (db (snd (interleave sched (createAppointment body)
                            (listClientAppointments id) w)))
  /\ no_overlap (db (snd (interleave sched (createAppointment body)
                            (listTodayAppointments id) w))).
Proof.
  intros I.
  assert (T : stable (fun _ : Pg.Store => True))
    by (intros ? ? ? ?; exact Logic.I).
  pose proof (create_is_guarded body) as G.
  split; [|split].
  - eapply interleave_guarded;
      [exact G|exact T|exact Logic.I|apply cancel_is_harmless|exact I].
  - eapply interleave_guarded;
      [exact G|exact T|exact Logic.I|apply listings_are_harmless|exact I].
  - eapply interleave_guarded;
      [exact G|exact T|exact Logic.I|apply listings_are_harmless|exact I].
Qed.

End InFlight.

Section InFlightExamples.
#[local] Existing Instance Sample.platform.

(** The create has read the catalog and run its check when the
    cancellation of another appointment lands; then it inserts. *)
Lemma create_with_cancel_in_flight_witness :
  let w := Sample.world
             [Sample.booking 1 Sample.ten (Sample.ten + Sample.minutes 45)
                Pg.PENDING] 2 [] in
  let w' := snd (interleave [First; First; Second]
                   (createAppointment
                      (Sample.request (Sample.ten + Sample.minutes 60)))
                   (cancelAppointment "1") w) in
  map Pg.status (Pg.appointments (db w')) = [Pg.CANCELLED; Pg.PENDING]
  /\ no_overlap (db w').
Proof.
  intros w w'. split; [reflexivity|].
  apply (@create_with_cancel_in_flight Sample.platform
           [First; First; Second]
           (Sample.request (Sample.ten + Sample.minutes 60)) "1" w).
  repeat constructor.
Defined.

End InFlightExamples.
